(** * annual_report_analsys: the report pipeline and its web runner

    A shallow embedding of [analyze_reports.py], of the prompt override
    [prompts/aggregate/prompt.py] and of [run_analysis] from [web_app.py],
    followed by the properties of the specification that are stated about
    them.

    Conventions of the embedding.
    - A Python [str] is the list of its code points ([PyStr.str]); the
      literals of the source are written as UTF-8 text and decoded by
      [PyStr.py].
    - A [pathlib] path is the list of its parts.
    - A value produced by [json.loads] is a [Json.json]; a Python [dict] is
      an association list in insertion order with distinct keys.
    - Exceptions are values of [exn]; code that performs I/O lives in the
      monad [M], which threads the log of performed operations and may end
      in an exception. *)

From Stdlib Require Import List String Ascii NArith ZArith Lia Bool.
From Stdlib Require Import Permutation Sorted.
From stdpp Require Import base gmap.
Import ListNotations.

Local Open Scope N_scope.

Set Warnings "-register-all".

(* ================================================================== *)
(** * Python strings *)
(* ================================================================== *)

Module PyStr.

Definition str := list N.

(** Decoding of the UTF-8 bytes of a literal into code points. *)
Fixpoint utf8_decode (bs : list N) : str :=
  match bs with
  | [] => []
  | b0 :: r0 =>
    if b0 <? 128 then b0 :: utf8_decode r0
    else match r0 with
      | [] => []
      | b1 :: r1 =>
        if b0 <? 224 then ((b0 - 192) * 64 + (b1 - 128)) :: utf8_decode r1
        else match r1 with
          | [] => []
          | b2 :: r2 =>
            if b0 <? 240
            then ((b0 - 224) * 4096 + (b1 - 128) * 64 + (b2 - 128)) :: utf8_decode r2
            else match r2 with
              | [] => []
              | b3 :: r3 =>
                ((b0 - 240) * 262144 + (b1 - 128) * 4096 + (b2 - 128) * 64 + (b3 - 128))
                  :: utf8_decode r3
              end
          end
      end
  end.

Definition py (s : string) : str :=
  utf8_decode (map N_of_ascii (list_ascii_of_string s)).

(** The characters that cannot be typed inside a literal. *)
Definition nl : str := [10].
Definition dq : str := [34].

Fixpoint str_eqb (a b : str) : bool :=
  match a, b with
  | [], [] => true
  | x :: a', y :: b' => (x =? y) && str_eqb a' b'
  | _, _ => false
  end.

(** [a < b] on two sequences: item by item, a proper prefix is smaller. *)
Fixpoint seq_ltb {A : Type} (ltb eqb : A -> A -> bool) (a b : list A) : bool :=
  match a, b with
  | _, [] => false
  | [], _ :: _ => true
  | x :: a', y :: b' => ltb x y || (eqb x y && seq_ltb ltb eqb a' b')
  end.

(** [a < b] on [str]: by code points. *)
Definition str_ltb (a b : str) : bool := seq_ltb N.ltb N.eqb a b.

(** [s.startswith(p)] *)
Fixpoint startswith (s p : str) {struct p} : bool :=
  match p, s with
  | [], _ => true
  | _ :: _, [] => false
  | c :: p', d :: s' => (c =? d) && startswith s' p'
  end.

(** [needle in hay] *)
Fixpoint str_in (needle hay : str) : bool :=
  startswith hay needle ||
  match hay with
  | [] => false
  | _ :: t => str_in needle t
  end.

(** [s.replace(old, new)]: the occurrences of [old] are replaced from left
    to right, without overlap.  [skip] counts the characters of a matched
    occurrence that are still to be dropped. *)
Fixpoint replace_from (old new : str) (skip : nat) (s : str) : str :=
  match s with
  | [] => []
  | c :: t =>
    match skip with
    | S k => replace_from old new k t
    | O =>
      if startswith s old
      then new ++ replace_from old new (length old - 1) t
      else c :: replace_from old new 0 t
    end
  end.

Definition replace (s old new : str) : str :=
  match old with
  | [] => new ++ flat_map (fun c => c :: new) s
  | _ :: _ => replace_from old new 0 s
  end.

(** The characters [str.strip()] removes: the Unicode white space. *)
Definition isspace (c : N) : bool :=
  ((9 <=? c) && (c <=? 13)) || ((28 <=? c) && (c <=? 32)) ||
  (c =? 133) || (c =? 160) || (c =? 5760) ||
  ((8192 <=? c) && (c <=? 8202)) || (c =? 8232) || (c =? 8233) ||
  (c =? 8239) || (c =? 8287) || (c =? 12288).

Fixpoint lstrip (s : str) : str :=
  match s with
  | [] => []
  | c :: t => if isspace c then lstrip t else s
  end.

Definition rstrip (s : str) : str := rev (lstrip (rev s)).

Definition strip (s : str) : str := rstrip (lstrip s).

(** [s.lower()] on the ASCII letters.  Outside ASCII the case mapping of
    Python is not modelled; no character outside ASCII is mapped by it to
    one of the letters of [".txt"], [".md"] or [".docx"], the only strings
    a lowered string is compared with. *)
Definition lower_cp (c : N) : N :=
  if (65 <=? c) && (c <=? 90) then c + 32 else c.

Definition lower (s : str) : str := map lower_cp s.

(** [s.rfind(c)] for a single character, [None] for -1. *)
Fixpoint rfind (c : N) (s : str) : option nat :=
  match s with
  | [] => None
  | d :: t =>
    match rfind c t with
    | Some i => Some (S i)
    | None => if d =? c then Some O else None
    end
  end.

(** [sep.join(parts)] *)
Fixpoint join (sep : str) (parts : list str) : str :=
  match parts with
  | [] => []
  | [p] => p
  | p :: rest => p ++ sep ++ join sep rest
  end.

(** Truth value of a [str]. *)
Definition nonempty (s : str) : bool :=
  match s with [] => false | _ :: _ => true end.

(** Decimal rendering of an integer, as [str(n)]. *)
Fixpoint uint_digits (d : Decimal.uint) : str :=
  match d with
  | Decimal.Nil => []
  | Decimal.D0 r => 48 :: uint_digits r
  | Decimal.D1 r => 49 :: uint_digits r
  | Decimal.D2 r => 50 :: uint_digits r
  | Decimal.D3 r => 51 :: uint_digits r
  | Decimal.D4 r => 52 :: uint_digits r
  | Decimal.D5 r => 53 :: uint_digits r
  | Decimal.D6 r => 54 :: uint_digits r
  | Decimal.D7 r => 55 :: uint_digits r
  | Decimal.D8 r => 56 :: uint_digits r
  | Decimal.D9 r => 57 :: uint_digits r
  end.

Definition str_of_N (n : N) : str := uint_digits (N.to_uint n).

Definition str_of_Z (z : Z) : str :=
  match z with
  | Z0 => [48]
  | Zpos p => str_of_N (Npos p)
  | Zneg p => 45 :: str_of_N (Npos p)
  end.

(** One hexadecimal digit, lower case. *)
Definition hex_digit (n : N) : N :=
  if n <? 10 then 48 + n else 87 + n.

(** The [k] low hexadecimal digits of [n], most significant first. *)
Fixpoint hex_fixed (k : nat) (n : N) : str :=
  match k with
  | O => []
  | S k' => hex_fixed k' (n / 16) ++ [hex_digit (n mod 16)]
  end.

End PyStr.

Import PyStr.

(** Results of fallible code: a value, or what was raised. *)
Inductive result (E A : Type) : Type :=
  | Ok (a : A)
  | Err (e : E).
Arguments Ok {E A} a.
Arguments Err {E A} e.

(* ================================================================== *)
(** * JSON values, [json.dumps], [str()] and [json.loads] *)
(* ================================================================== *)

Module Json.

(** A Python [float] is kept as what the pipeline observes of it: its
    [repr] and whether it is zero. *)
Record pyfloat := { float_repr : str; float_is_zero : bool }.

Inductive json :=
  | JNull
  | JBool (b : bool)
  | JInt (z : Z)
  | JFloat (f : pyfloat)
  | JStr (s : str)
  | JArr (l : list json)
  | JObj (d : list (str * json)).

Definition dict := list (str * json).

(** [d.get(k)], [None] of the option for a missing key. *)
Fixpoint dict_get (k : str) (d : dict) : option json :=
  match d with
  | [] => None
  | (k', v) :: r => if str_eqb k k' then Some v else dict_get k r
  end.

(** [k in d] *)
Definition dict_has (k : str) (d : dict) : bool :=
  match dict_get k d with Some _ => true | None => false end.

(** [d[k] = v]: an existing key keeps its position. *)
Fixpoint dict_set (k : str) (v : json) (d : dict) : dict :=
  match d with
  | [] => [(k, v)]
  | (k', v') :: r =>
    if str_eqb k k' then (k, v) :: r else (k', v') :: dict_set k v r
  end.

(** [d.get(k, default)] *)
Definition dict_get_default (k : str) (default : json) (d : dict) : json :=
  match dict_get k d with Some v => v | None => default end.

(** Truth value, as tested by [not v]. *)
Definition truthy (v : json) : bool :=
  match v with
  | JNull => false
  | JBool b => b
  | JInt z => negb (Z.eqb z 0)
  | JFloat f => negb (float_is_zero f)
  | JStr s => nonempty s
  | JArr l => match l with [] => false | _ :: _ => true end
  | JObj d => match d with [] => false | _ :: _ => true end
  end.

(** Whether a value can be looked up in a [set]: lists and dicts cannot. *)
Definition hashable (v : json) : bool :=
  match v with
  | JArr _ | JObj _ => false
  | _ => true
  end.

(** The name of the Python type of a value, for [TypeError] messages. *)
Definition type_name (v : json) : str :=
  match v with
  | JNull => py "NoneType"
  | JBool _ => py "bool"
  | JInt _ => py "int"
  | JFloat _ => py "float"
  | JStr _ => py "str"
  | JArr _ => py "list"
  | JObj _ => py "dict"
  end.

(** ** [json.dumps(v, ensure_ascii=False, indent=2)] *)

Definition escape_char (c : N) : str :=
  if c =? 34 then [92; 34]
  else if c =? 92 then [92; 92]
  else if c =? 10 then [92; 110]
  else if c =? 13 then [92; 114]
  else if c =? 9 then [92; 116]
  else if c =? 8 then [92; 98]
  else if c =? 12 then [92; 102]
  else if c <? 32 then [92; 117] ++ hex_fixed 4 c
  else [c].

Definition encode_basestring (s : str) : str :=
  dq ++ flat_map escape_char s ++ dq.

Definition float_json (f : pyfloat) : str :=
  if str_eqb (float_repr f) (py "nan") then py "NaN"
  else if str_eqb (float_repr f) (py "inf") then py "Infinity"
  else if str_eqb (float_repr f) (py "-inf") then py "-Infinity"
  else float_repr f.

Definition newline_indent (level : nat) : str :=
  nl ++ repeat 32 (2 * level)%nat.

Fixpoint dumps_at (level : nat) (v : json) : str :=
  match v with
  | JNull => py "null"
  | JBool true => py "true"
  | JBool false => py "false"
  | JInt z => str_of_Z z
  | JFloat f => float_json f
  | JStr s => encode_basestring s
  | JArr l =>
    match l with
    | [] => py "[]"
    | _ :: _ =>
      py "[" ++ newline_indent (S level)
        ++ join (py "," ++ newline_indent (S level)) (map (dumps_at (S level)) l)
        ++ newline_indent level ++ py "]"
    end
  | JObj d =>
    match d with
    | [] => py "{}"
    | _ :: _ =>
      py "{" ++ newline_indent (S level)
        ++ join (py "," ++ newline_indent (S level))
             (map (fun kv => let '(k, x) := kv in
                             encode_basestring k ++ py ": " ++ dumps_at (S level) x) d)
        ++ newline_indent level ++ py "}"
    end
  end.

Definition dumps (v : json) : str := dumps_at 0 v.

(** ** [str(v)], the rendering of a value inside an f-string

    [str.isprintable] outside ASCII comes from the Unicode database and is
    a parameter. *)
Section Repr.

Variable isprintable : N -> bool.




End Repr.

(** ** A reference decoder for [json.loads]

    The decoder follows the grammar accepted by [json.JSONDecoder]: white
    space is blank, tab, line feed and carriage return; strings are strict
    (no control character); [NaN], [Infinity] and [-Infinity] are accepted;
    a repeated key keeps its first position and its last value.  The
    conversion of a number with a fraction or an exponent is the
    decoder's [parse_float] hook.  [fuel] bounds the number of nested
    calls. *)
Section Loads.

Variable parse_float : str -> pyfloat.

Definition is_ws (c : N) : bool :=
  (c =? 32) || (c =? 9) || (c =? 10) || (c =? 13).

Fixpoint skip_ws (s : str) : str :=
  match s with
  | [] => []
  | c :: t => if is_ws c then skip_ws t else s
  end.

Definition is_digit (c : N) : bool := (48 <=? c) && (c <=? 57).

Fixpoint span_digits (s : str) : str * str :=
  match s with
  | [] => ([], [])
  | c :: t =>
    if is_digit c then let '(ds, r) := span_digits t in (c :: ds, r) else ([], s)
  end.

Definition digits_value (ds : str) : Z :=
  fold_left (fun acc d => (acc * 10 + Z.of_N (d - 48))%Z) ds 0%Z.

Definition hex_val (c : N) : option N :=
  if is_digit c then Some (c - 48)
  else if (97 <=? c) && (c <=? 102) then Some (c - 87)
  else if (65 <=? c) && (c <=? 70) then Some (c - 55)
  else None.

Definition take_hex4 (s : str) : option (N * str) :=
  match s with
  | a :: b :: c :: d :: r =>
    match hex_val a, hex_val b, hex_val c, hex_val d with
    | Some x, Some y, Some z, Some w => Some (((x * 16 + y) * 16 + z) * 16 + w, r)
    | _, _, _, _ => None
    end
  | _ => None
  end.

Definition simple_escape (e : N) : option N :=
  if e =? 34 then Some 34
  else if e =? 92 then Some 92
  else if e =? 47 then Some 47
  else if e =? 98 then Some 8
  else if e =? 102 then Some 12
  else if e =? 110 then Some 10
  else if e =? 114 then Some 13
  else if e =? 116 then Some 9
  else None.

(** The body of a string, after its opening quote. *)
Fixpoint parse_string (fuel : nat) (s : str) : option (str * str) :=
  match fuel with
  | O => None
  | S f =>
    match s with
    | [] => None
    | c :: t =>
      if c =? 34 then Some ([], t)
      else if c =? 92 then
        match t with
        | [] => None
        | e :: t' =>
          if e =? 117 then
            match take_hex4 t' with
            | None => None
            | Some (u1, t2) =>
              if (55296 <=? u1) && (u1 <=? 56319) && startswith t2 [92; 117] then
                match take_hex4 (skipn 2 t2) with
                | None => None
                | Some (u2, t3) =>
                  if (56320 <=? u2) && (u2 <=? 57343) then
                    match parse_string f t3 with
                    | Some (r, rest) =>
                      Some ((65536 + (u1 - 55296) * 1024 + (u2 - 56320)) :: r, rest)
                    | None => None
                    end
                  else
                    match parse_string f t2 with
                    | Some (r, rest) => Some (u1 :: r, rest)
                    | None => None
                    end
                end
              else
                match parse_string f t2 with
                | Some (r, rest) => Some (u1 :: r, rest)
                | None => None
                end
            end
          else
            match simple_escape e with
            | None => None
            | Some x =>
              match parse_string f t' with
              | Some (r, rest) => Some (x :: r, rest)
              | None => None
              end
            end
        end
      else if c <? 32 then None
      else
        match parse_string f t with
        | Some (r, rest) => Some (c :: r, rest)
        | None => None
        end
    end
  end.

(** A number: an optional minus sign, then 0 or a digit string without
    leading zero, then an optional fraction (a dot and digits) and an
    optional exponent (e or E, an optional sign, digits).  A fraction or an
    exponent that is not complete is left unread. *)
Definition parse_number (s : str) : option (json * str) :=
  let '(neg, s1) := match s with
                    | c :: r => if c =? 45 then (true, r) else (false, s)
                    | [] => (false, s)
                    end in
  match s1 with
  | [] => None
  | d :: r =>
    if negb (is_digit d) then None
    else
      let '(ds, r1) := if d =? 48 then ([d], r) else span_digits s1 in
      let '(frac, r2) :=
        match r1 with
        | c :: r' =>
          if c =? 46 then
            let '(fs, r'') := span_digits r' in
            match fs with [] => (false, r1) | _ :: _ => (true, r'') end
          else (false, r1)
        | [] => (false, r1)
        end in
      let '(expo, r3) :=
        match r2 with
        | c :: r' =>
          if (c =? 101) || (c =? 69) then
            let r'' := match r' with
                       | g :: q => if (g =? 45) || (g =? 43) then q else r'
                       | [] => r'
                       end in
            let '(es, r''') := span_digits r'' in
            match es with [] => (false, r2) | _ :: _ => (true, r''') end
          else (false, r2)
        | [] => (false, r2)
        end in
      if frac || expo
      then Some (JFloat (parse_float (firstn (length s - length r3) s)), r3)
      else Some (JInt (if neg then - digits_value ds else digits_value ds)%Z, r3)
  end.

Fixpoint parse_value (fuel : nat) (s : str) : option (json * str) :=
  match fuel with
  | O => None
  | S f =>
    match s with
    | [] => None
    | c :: t =>
      if c =? 34 then
        match parse_string (length t + 1) t with
        | Some (x, r) => Some (JStr x, r)
        | None => None
        end
      else if c =? 123 then
        match skip_ws t with
        | c1 :: r1 =>
          if c1 =? 125 then Some (JObj [], r1)
          else parse_members f (c1 :: r1) []
        | [] => None
        end
      else if c =? 91 then
        match skip_ws t with
        | c1 :: r1 =>
          if c1 =? 93 then Some (JArr [], r1)
          else parse_items f (c1 :: r1) []
        | [] => None
        end
      else if startswith s (py "null") then Some (JNull, skipn 4 s)
      else if startswith s (py "true") then Some (JBool true, skipn 4 s)
      else if startswith s (py "false") then Some (JBool false, skipn 5 s)
      else
        match parse_number s with
        | Some r => Some r
        | None =>
          if startswith s (py "NaN") then Some (JFloat (parse_float (py "nan")), skipn 3 s)
          else if startswith s (py "Infinity")
          then Some (JFloat (parse_float (py "inf")), skipn 8 s)
          else if startswith s (py "-Infinity")
          then Some (JFloat (parse_float (py "-inf")), skipn 9 s)
          else None
        end
    end
  end
with parse_items (fuel : nat) (s : str) (acc : list json) : option (json * str) :=
  match fuel with
  | O => None
  | S f =>
    match parse_value f s with
    | None => None
    | Some (x, r) =>
      match skip_ws r with
      | c :: r1 =>
        if c =? 44 then parse_items f (skip_ws r1) (acc ++ [x])
        else if c =? 93 then Some (JArr (acc ++ [x]), r1)
        else None
      | [] => None
      end
    end
  end
with parse_members (fuel : nat) (s : str) (acc : dict) : option (json * str) :=
  match fuel with
  | O => None
  | S f =>
    match s with
    | c :: t =>
      if c =? 34 then
        match parse_string (length t + 1) t with
        | None => None
        | Some (k, r) =>
          match skip_ws r with
          | c1 :: r1 =>
            if c1 =? 58 then
              match parse_value f (skip_ws r1) with
              | None => None
              | Some (x, r2) =>
                match skip_ws r2 with
                | c2 :: r3 =>
                  if c2 =? 44 then parse_members f (skip_ws r3) (dict_set k x acc)
                  else if c2 =? 125 then Some (JObj (dict_set k x acc), r3)
                  else None
                | [] => None
                end
              end
            else None
          | [] => None
          end
        end
      else None
    | [] => None
    end
  end.

(** [json.loads(s)]: the value, or the text of the [JSONDecodeError] (whose
    position information is not reproduced). *)
Definition loads (s : str) : result str json :=
  match parse_value (2 * length s + 2) (skip_ws s) with
  | Some (v, r) =>
    match skip_ws r with
    | [] => Ok v
    | _ :: _ => Err (py "Extra data")
    end
  | None => Err (py "Expecting value")
  end.

End Loads.

End Json.

Import Json.

(* ================================================================== *)
(** * [pathlib] paths and the directory tree under the input root *)
(* ================================================================== *)

Module Pathlib.

(** A path is the list of its parts; an absolute path starts with the part
    ["/"]. *)
Definition path := list str.

(** [p.name] *)
Definition name (p : path) : str := List.last p [].

(** The position of the dot that starts the suffix of a file name: the
    last dot, unless it is the first or the last character. *)
Definition suffix_index (nm : str) : option nat :=
  match rfind 46 nm with
  | Some i => if (0 <? i)%nat && (i <? length nm - 1)%nat then Some i else None
  | None => None
  end.

(** [p.suffix] *)
Definition suffix (p : path) : str :=
  match suffix_index (name p) with
  | Some i => skipn i (name p)
  | None => []
  end.

(** [p.stem] *)
Definition stem (p : path) : str :=
  match suffix_index (name p) with
  | Some i => firstn i (name p)
  | None => name p
  end.

(** [p.with_suffix(suf)], for a path with a name. *)
Definition with_suffix (p : path) (suf : str) : path :=
  removelast p ++ [stem p ++ suf].

(** [str(p)] *)
Definition path_str (p : path) : str :=
  match p with
  | [] => py "."
  | a :: r => if str_eqb a (py "/") then a ++ join (py "/") r else join (py "/") p
  end.

(** [p.relative_to(root)], [None] when [root] is not a prefix of [p]
    ([ValueError]). *)
Fixpoint relative_to (p root : path) : option path :=
  match root, p with
  | [], _ => Some p
  | _ :: _, [] => None
  | a :: r, b :: q => if str_eqb a b then relative_to q r else None
  end.

(** [a < b] on paths: the comparison of the lists of parts. *)
Definition path_ltb (a b : path) : bool := seq_ltb str_ltb str_eqb a b.

(** [sorted(paths)]: a stable sort that only uses [<]. *)
Fixpoint insert_sorted (p : path) (l : list path) : list path :=
  match l with
  | [] => [p]
  | q :: r => if path_ltb q p then q :: insert_sorted p r else p :: q :: r
  end.

Definition sorted (l : list path) : list path := fold_right insert_sorted [] l.

(** What is found under a directory: regular files, directories with
    their own entries, and entries that are neither (sockets, dangling
    links). *)
Inductive node :=
  | File (nm : str)
  | Dir (nm : str) (children : list node)
  | Special (nm : str).

Inductive kind := KFile | KDir | KSpecial.

Definition node_name (n : node) : str :=
  match n with
  | File nm | Dir nm _ | Special nm => nm
  end.

(** The entries below a node, with paths relative to the directory that
    holds the node. *)
Fixpoint entries (n : node) : list (path * kind) :=
  match n with
  | File nm => [([nm], KFile)]
  | Special nm => [([nm], KSpecial)]
  | Dir nm ch =>
    ([nm], KDir) :: map (fun e => (nm :: fst e, snd e)) (flat_map entries ch)
  end.

Definition tree_entries (tree : list node) : list (path * kind) :=
  flat_map entries tree.

(** [root.rglob("*")]: every entry below [root], in the order of the
    directory scan. *)
Definition rglob (root : path) (tree : list node) : list path :=
  map (fun e => root ++ fst e) (tree_entries tree).

(** The entry a relative path leads to. *)
Fixpoint lookup_node (tree : list node) (rel : path) : option node :=
  match rel with
  | [] => None
  | nm :: rest =>
    match List.find (fun n => str_eqb (node_name n) nm) tree with
    | None => None
    | Some n =>
      match rest with
      | [] => Some n
      | _ :: _ =>
        match n with
        | Dir _ ch => lookup_node ch rest
        | _ => None
        end
      end
    end
  end.

(** [p.is_file()] for the tree found under [root]. *)
Definition is_file (root : path) (tree : list node) (p : path) : bool :=
  match relative_to p root with
  | Some rel =>
    match lookup_node tree rel with
    | Some (File _) => true
    | _ => false
    end
  | None => false
  end.

(** The invariant of a directory: names are not empty and no two entries
    of one directory share a name. *)
Inductive wf_node : node -> Prop :=
  | wf_file : forall nm, nm <> [] -> wf_node (File nm)
  | wf_special : forall nm, nm <> [] -> wf_node (Special nm)
  | wf_dir : forall nm ch,
      nm <> [] -> List.NoDup (map node_name ch) -> Forall wf_node ch ->
      wf_node (Dir nm ch).

Definition wf_tree (tree : list node) : Prop :=
  List.NoDup (map node_name tree) /\ Forall wf_node tree.

Definition kind_of (n : node) : kind :=
  match n with
  | File _ => KFile
  | Dir _ _ => KDir
  | Special _ => KSpecial
  end.

(** Two properties of a list of entries, stated for the induction over
    the tree: [lookup_node] finds every listed entry, and no path is listed
    twice. *)

(** What [lookup_node] finds for the entries of a well-formed tree. *)
Definition lookup_agrees (tree : list node) : Prop :=
  List.NoDup (map node_name tree) -> Forall wf_node tree ->
  forall rel k,
    In (rel, k) (tree_entries tree) ->
    exists n, lookup_node tree rel = Some n /\ kind_of n = k.

Definition children_lookup_agree (n : node) : Prop :=
  match n with
  | Dir _ ch => lookup_agrees ch
  | _ => True
  end.

(** No path is listed twice. *)
Definition paths_distinct (tree : list node) : Prop :=
  List.NoDup (map node_name tree) -> Forall wf_node tree ->
  List.NoDup (map fst (tree_entries tree)).

Definition children_paths_distinct (n : node) : Prop :=
  match n with
  | Dir _ ch => paths_distinct ch
  | _ => True
  end.

End Pathlib.

Import Pathlib.

(* ================================================================== *)
(** * [analyze_reports.py] *)
(* ================================================================== *)

Module AnalyzeReports.

Definition ALLOWED_SUFFIXES : list str := [py ".txt"; py ".md"; py ".docx"].

Definition MANAGER_HINTS : list str :=
  [py "干部"; py "领导"; py "经理"; py "主管"; py "总监";
   py "部长"; py "书记"; py "主任"; py "处长"; py "科长"].

Definition INDUSTRY_CONTEXT : str :=
  py "部门聚焦钢铁行业解决方案交付，场景涵盖生产、质量、计划、物流、成本、ERP/产品运营等。"
  ++ py "研发包含前端与后端开发；产品为产品经理；模型算法室负责算法赋能；"
  ++ py "质量做钢厂质量分析与质量设计；物流做钢厂物流功能；产品运营室类似 ERP；"
  ++ py "计划做钢厂生产计划；管理层为部门领导与管控。".

Definition DEPARTMENT_PROMPT_HINTS : list (list str * str) :=
  [ ([py "研发"; py "技术"; py "工程"; py "开发"],
     py "研发（前端/后端）：关注架构/核心模块、稳定性/缺陷率、性能指标、交付节奏、复用与技术债务。");
    ([py "产品"; py "产品经理"],
     py "产品：关注需求测评、产品路线、共性能力沉淀、业务匹配度、交付与迭代节奏。");
    ([py "模型"; py "算法"],
     py "模型算法：关注算法赋能、模型效果/覆盖、数据质量、算力成本、上线与迭代节奏。");
    ([py "质量"; py "质检"; py "测试"],
     py "质量：关注缺陷发现率/漏检率、质量门禁、回归效率、工艺质量设计、风险预警。");
    ([py "物流"; py "供应链"; py "仓储"],
     py "物流：关注交付准确率、响应时效、库存/成本效率、流程优化与数字化。");
    ([py "产品运营"; py "运营"; py "ERP"],
     py "产品运营/ERP：关注流程覆盖、上线与运维、用户采用度、效率/成本改进。");
    ([py "计划"; py "PMO"; py "项目管理"],
     py "计划/PMO：关注生产计划/资源调配、里程碑兑现、关键路径、风险管控与协同。");
    ([py "成本"; py "财务"; py "绩效"],
     py "成本/绩效：关注成本节约、ROI、效率提升、财务合规、绩效改进。");
    ([py "管控"; py "综合管理"; py "外委"; py "管理层"],
     py "管控/管理：关注流程制度、供应商/外协管理、风险与合规、资源统筹、组织保障。") ].

Record Report := {
  path : Pathlib.path;
  department : str;
  title : str;
  role : str;
  content : str
}.

(** What Python raises.  [except Exception] catches [Exception] and not
    [SystemExit]. *)
Inductive exn :=
  | SystemExit (msg : str)
  | Exception (msg : str).

(** [str(exc)] *)
Definition exn_str (e : exn) : str :=
  match e with
  | SystemExit msg | Exception msg => msg
  end.

(** [s in names] for a list or a set of strings. *)
Definition mem (s : str) (names : list str) : bool := existsb (str_eqb s) names.

Definition detect_role (title : str) : str :=
  if existsb (fun key => str_in key title) MANAGER_HINTS
  then py "cadre" else py "employee".

Fixpoint first_hint (dept_lower : str) (hints : list (list str * str)) : option str :=
  match hints with
  | [] => None
  | (keywords, hint) :: rest =>
    if existsb (fun k => str_in (lower k) dept_lower) keywords
    then Some hint
    else first_hint dept_lower rest
  end.

Definition department_focus (department : str) : str :=
  match first_hint (lower department) DEPARTMENT_PROMPT_HINTS with
  | Some hint => hint
  | None => py "关注年度成果、工作量、优势、改进点、跨部门支撑与风险。"
  end.

(** ** Reading the files

    [read_text_file] and [read_docx_file] decode bytes and unpack
    archives; what they return for a path is given from outside.
    [read_docx_file] fails with [BadZipFile] or with something else. *)

Inductive docx_error :=
  | BadZipFile
  | DocxError (e : exn).

Section Loading.

Variable read_text_file : Pathlib.path -> result exn str.
Variable read_docx_file : Pathlib.path -> result docx_error str.

Definition load_content (p : Pathlib.path) : result exn str :=
  let suffix := lower (Pathlib.suffix p) in
  if mem suffix [py ".txt"; py ".md"] then read_text_file p
  else if str_eqb suffix (py ".docx") then
    match read_docx_file p with
    | Ok text => Ok text
    | Err BadZipFile => read_text_file p
    | Err (DocxError e) => Err e
    end
  else Err (Exception (py "不支持的文件类型: " ++ Pathlib.suffix p)).

Variable root : Pathlib.path.
Variable tree : list node.

(** The entries that the loop of [collect_reports] does not skip. *)
Definition selected (file_path : Pathlib.path) : bool :=
  is_file root tree file_path && mem (lower (Pathlib.suffix file_path)) ALLOWED_SUFFIXES.

Definition make_report (file_path : Pathlib.path) (relative : Pathlib.path) (text : str)
  : Report :=
  {| path := file_path;
     department := match relative with
                   | first :: _ :: _ => first
                   | _ => py "未分类"
                   end;
     title := stem file_path;
     role := detect_role (stem file_path);
     content := text |}.

(** The loop of [collect_reports] over the sorted entries. *)
Fixpoint collect_from (files : list Pathlib.path) : result exn (list Report) :=
  match files with
  | [] => Ok []
  | file_path :: rest =>
    if negb (is_file root tree file_path)
       || negb (mem (lower (Pathlib.suffix file_path)) ALLOWED_SUFFIXES)
    then collect_from rest
    else
      match relative_to file_path root with
      | None => Err (Exception (py "is not in the subpath of the root"))
      | Some relative =>
        match load_content file_path with
        | Err e => Err e
        | Ok text =>
          match collect_from rest with
          | Err e => Err e
          | Ok reports => Ok (make_report file_path relative text :: reports)
          end
        end
      end
  end.

Definition collect_reports : result exn (list Report) :=
  collect_from (sorted (rglob root tree)).

End Loading.

(** ** Records of the summaries *)

Definition make_failure_record (report : Report) (error : str) : json :=
  JObj
    [ (py "name", JStr (title report));
      (py "department", JStr (department report));
      (py "role", JStr (role report));
      (py "position", JStr []);
      (py "title", JStr []);
      (py "entry_date", JStr []);
      (py "key_results", JArr []);
      (py "strengths", JArr []);
      (py "improvements", JArr []);
      (py "self_review", JArr []);
      (py "issues", JArr []);
      (py "suggestions", JArr []);
      (py "workload", JStr (py "提炼失败（估计）"));
      (py "support_to_departments", JArr []);
      (py "risk_flags", JArr []);
      (py "source_path", JStr (path_str (path report)));
      (py "error", JStr error) ].

(** [if key not in data or not data[key]: data[key] = value] *)
Definition default_if_falsy (key : str) (value : json) (d : dict) : dict :=
  match dict_get key d with
  | Some v => if truthy v then d else dict_set key value d
  | None => dict_set key value d
  end.

(** The end of [summarize_individual], from [data["source_path"] = ...] to
    [return data], for the value [data] that [json.loads] returned.  An
    item assignment on a value that is not a [dict], and the membership
    test of an unhashable [role] in a set, raise [TypeError]. *)
Definition repair (report : Report) (data : json) : result exn json :=
  match data with
  | JObj d0 =>
    let d1 := dict_set (py "source_path") (JStr (path_str (path report))) d0 in
    let d2 := default_if_falsy (py "name") (JStr (title report)) d1 in
    let d3 := default_if_falsy (py "department") (JStr (department report)) d2 in
    match dict_get (py "role") d3 with
    | Some v =>
      if negb (hashable v)
      then Err (Exception (py "unhashable type: '" ++ type_name v ++ py "'"))
      else
        let d4 := match v with
                  | JStr s => if mem s [py "cadre"; py "employee"] then d3
                              else dict_set (py "role") (JStr (role report)) d3
                  | _ => dict_set (py "role") (JStr (role report)) d3
                  end in
        Ok (JObj (default_if_falsy (py "workload") (JStr (py "未提及/估计")) d4))
    | None =>
      let d4 := dict_set (py "role") (JStr (role report)) d3 in
      Ok (JObj (default_if_falsy (py "workload") (JStr (py "未提及/估计")) d4))
    end
  | JArr _ => Err (Exception (py "list indices must be integers or slices, not str"))
  | other =>
    Err (Exception (py "'" ++ type_name other ++ py "' object does not support item assignment"))
  end.

(** The parsing of the content of a response: directly, then once more
    without the code fences. *)
Definition strip_fences (content : str) : str :=
  strip (replace (replace (strip content) (py "```json") []) (py "```") []).

Definition parse_content (json_loads : str -> result str json) (content : str)
  : result exn json :=
  match json_loads content with
  | Ok data => Ok data
  | Err _ =>
    match json_loads (strip_fences content) with
    | Ok data => Ok data
    | Err exc =>
      Err (Exception (py "无法解析模型返回的 JSON: " ++ exc ++ py "; content=" ++ content))
    end
  end.

(** ** The aggregate prompt *)

(** What a prompt builder receives: the keys of the [ctx] dictionary that
    the call site fills in. *)
Record ctx := {
  industry_context : str;
  ctx_department_focus : option str;
  ctx_report : option Report;
  ctx_raw_content : option str;
  ctx_people : option (list json)
}.

(** A prompt builder loaded from a module: it returns a prompt or raises
    an exception with a message. *)
Definition builder := ctx -> result str str.

(** What [load_prompt_builder] gives: the function of the module, [None]
    when the module or the function is not found or the module fails to
    run, or the [ModuleNotFoundError] that [importlib.util.find_spec]
    raises when the package [missing] of the module cannot be imported. *)
Inductive loaded :=
  | Loaded (b : option builder)
  | ModuleNotFound (missing : str).

Definition module_not_found (missing : str) : exn :=
  Exception (py "No module named '" ++ missing ++ py "'").

(** The call of [load_prompt_builder] as it ends. *)
Definition load (l : loaded) : result exn (option builder) :=
  match l with
  | Loaded b => Ok b
  | ModuleNotFound missing => Err (module_not_found missing)
  end.

(** The builder in hand after a call that returned. *)
Definition found (l : loaded) : option builder :=
  match l with
  | Loaded b => b
  | ModuleNotFound _ => None
  end.

(** [person.get(key)] and [person.get(key, [])] in the compaction. *)
Definition compact_person (person : dict) : json :=
  let get k := dict_get_default k JNull person in
  let get_list k := dict_get_default k (JArr []) person in
  JObj
    [ (py "name", get (py "name"));
      (py "department", get (py "department"));
      (py "role", get (py "role"));
      (py "position", get (py "position"));
      (py "title", get (py "title"));
      (py "entry_date", get (py "entry_date"));
      (py "key_results", get_list (py "key_results"));
      (py "strengths", get_list (py "strengths"));
      (py "improvements", get_list (py "improvements"));
      (py "self_review", get_list (py "self_review"));
      (py "issues", get_list (py "issues"));
      (py "suggestions", get_list (py "suggestions"));
      (py "workload", get (py "workload"));
      (py "support_to_departments", get_list (py "support_to_departments"));
      (py "risk_flags", get_list (py "risk_flags"));
      (py "error", get (py "error")) ].

(** The loop that fills [compact]; [.get] on a value that is not a [dict]
    raises [AttributeError]. *)
Fixpoint compact_people (people : list json) : result exn (list json) :=
  match people with
  | [] => Ok []
  | JObj person :: rest =>
    match compact_people rest with
    | Ok r => Ok (compact_person person :: r)
    | Err e => Err e
    end
  | other :: _ =>
    Err (Exception (py "'" ++ type_name other ++ py "' object has no attribute 'get'"))
  end.

(** The prompt of [build_aggregate_prompt] when no builder is loaded or
    the builder raises. *)
Definition default_aggregate_prompt (compact : list json) (extra : str) : str :=
  py "Industry background: " ++ INDUSTRY_CONTEXT ++ nl ++ nl
  ++ py "Structured individual summaries:" ++ nl ++ dumps (JArr compact) ++ nl ++ nl
  ++ py "Additional context: " ++ (if nonempty extra then extra else py "None") ++ nl
  ++ py "Please generate the organization report per the system prompt requirements.".

(** [{"people": compact, "industry_context": INDUSTRY_CONTEXT}] *)
Definition aggregate_ctx (compact : list json) : ctx :=
  {| industry_context := INDUSTRY_CONTEXT;
     ctx_department_focus := None;
     ctx_report := None;
     ctx_raw_content := None;
     ctx_people := Some compact |}.

(** [build_aggregate_prompt], for what its call of [load_prompt_builder]
    gives: the compaction comes first, then the loading, which can raise,
    then the builder or the default prompt. *)
Definition build_aggregate_prompt (prompt_builder : loaded)
    (people : list json) (extra_prompt : option str) : result exn str :=
  match compact_people people with
  | Err e => Err e
  | Ok compact =>
    let extra := match extra_prompt with
                 | Some e => if nonempty e then strip e else []
                 | None => []
                 end in
    match prompt_builder with
    | ModuleNotFound missing => Err (module_not_found missing)
    | Loaded (Some build) =>
      match build (aggregate_ctx compact) with
      | Ok prompt => Ok prompt
      | Err _ => Ok (default_aggregate_prompt compact extra)
      end
    | Loaded None => Ok (default_aggregate_prompt compact extra)
    end
  end.

(** ** The run: what it reads from outside and what it performs *)

Record request := {
  req_model : str;
  req_system : str;
  req_user : str;
  req_temperature : pyfloat;
  req_max_tokens : Z
}.

(** The outcome of [client.chat.completions.create]: an exception, or the
    content of the first choice ([None] without choices or content). *)
Inductive completion :=
  | ApiError (msg : str)
  | ApiContent (content : option str).

(** The operations a run performs on the outside. *)
Inductive event :=
  | EApi (req : request)
  | EWrite (p : Pathlib.path) (text : str).

Definition is_api (e : event) : bool :=
  match e with EApi _ => true | EWrite _ _ => false end.

Definition is_write (e : event) : bool :=
  match e with EWrite _ _ => true | EApi _ => false end.

(** What a run finds outside: the files, the modules with prompt
    builders, the behaviour of the model service and of the disk, the
    clock.  [env_file] holds the lines of the environment file, none when
    the file does not exist, or the message of the exception that the
    reading of the file raises.  The service and the disk answer the n-th
    request and the n-th write; [write_error] gives the message of the
    [OSError] of a write that fails. *)
Record World := {
  read_text_file : Pathlib.path -> result exn str;
  read_docx_file : Pathlib.path -> result docx_error str;
  input_exists : bool;
  tree : list node;
  env_file : result str (list str);
  load_prompt_builder : str -> str -> loaded;
  json_loads : str -> result str json;
  chat_completions_create : nat -> request -> completion;
  write_error : nat -> option str;
  now : str
}.

Record Args := {
  input : Pathlib.path;
  out_dir : Pathlib.path;
  model : str;
  aggregate_model : str;
  temperature : pyfloat;
  max_tokens_individual : Z;
  max_tokens_aggregate : Z;
  plan_prompt : option str
}.

(** The state a run changes: [os.environ], the list [people] of [main]
    (a list object that [append] mutates), and the operations performed
    so far. *)
Record state := {
  environ : gmap str str;
  people : list json;
  log : list event
}.

Definition M (A : Type) : Type := state -> result exn A * state.

Definition ret {A : Type} (a : A) : M A := fun s => (Ok a, s).

Definition bind {A B : Type} (m : M A) (k : A -> M B) : M B :=
  fun s =>
    match m s with
    | (Ok a, s') => k a s'
    | (Err e, s') => (Err e, s')
    end.

Definition raise {A : Type} (e : exn) : M A := fun s => (Err e, s).

Definition lift {A : Type} (r : result exn A) : M A := fun s => (r, s).

(** [try: body  except Exception as exc: handler(str(exc))].  What the body
    changed before it raised stays changed. *)
Definition try_except {A : Type} (body : M A) (handler : str -> M A) : M A :=
  fun s =>
    match body s with
    | (Err (Exception msg), s') => handler msg s'
    | other => other
    end.

Declare Scope run_scope.
Delimit Scope run_scope with run.
Bind Scope run_scope with M.

Notation "x <- c1 ;; c2" := (bind c1 (fun x => c2))
  (at level 100, c1 at next level, c2 at level 200, right associativity) : run_scope.
Notation "c1 ;; c2" := (bind c1 (fun _ => c2))
  (at level 100, c2 at level 200, right associativity) : run_scope.

Local Open Scope run_scope.

Fixpoint for_each {A : Type} (l : list A) (body : A -> M unit) : M unit :=
  match l with
  | [] => ret tt
  | x :: rest => body x ;; for_each rest body
  end.

Definition add_event (e : event) (s : state) : state :=
  {| environ := environ s; people := people s; log := log s ++ [e] |}.

Definition count_api (l : list event) : nat := length (List.filter is_api l).
Definition count_writes (l : list event) : nat := length (List.filter is_write l).

(** [client.chat.completions.create(...)] followed by the selection of the
    content of the first choice. *)
Definition create_completion (w : World) (req : request) : M (option str) :=
  fun s =>
    match chat_completions_create w (count_api (log s)) req with
    | ApiError msg => (Err (Exception msg), add_event (EApi req) s)
    | ApiContent c => (Ok c, add_event (EApi req) s)
    end.

(** [dest.parent.mkdir(parents=True, exist_ok=True)] and
    [dest.write_text(text, encoding="utf-8")], as one operation. *)
Definition write_text (w : World) (dest : Pathlib.path) (text : str) : M unit :=
  fun s =>
    match write_error w (count_writes (log s)) with
    | Some msg => (Err (Exception msg), add_event (EWrite dest text) s)
    | None => (Ok tt, add_event (EWrite dest text) s)
    end.

(** [people.append(v)] *)
Definition append_people (v : json) : M unit :=
  fun s => (Ok tt, {| environ := environ s; people := people s ++ [v]; log := log s |}).

Definition get_people : M (list json) := fun s => (Ok (people s), s).

(** [os.getenv(k)] *)
Definition getenv (k : str) : M (option str) := fun s => (Ok (environ s !! k), s).

(** ** The environment file *)

(** [s.lstrip(chars)] and [s.strip(chars)] *)
Fixpoint lstrip_chars (chars s : str) : str :=
  match s with
  | [] => []
  | c :: t => if existsb (N.eqb c) chars then lstrip_chars chars t else s
  end.

Definition strip_chars (chars s : str) : str :=
  rev (lstrip_chars chars (rev (lstrip_chars chars s))).

(** [s.split(sep, 1)] for a separator of one character that occurs in
    [s]: what is before the first separator and what is after it. *)
Fixpoint split_once (sep : N) (s : str) : option (str * str) :=
  match s with
  | [] => None
  | c :: t =>
    if c =? sep then Some ([], t)
    else match split_once sep t with
         | Some (before, after) => Some (c :: before, after)
         | None => None
         end
  end.

(** The body of the loop of [load_env_from_file] before the assignment:
    the key and the value of a line of the file, [None] for a line that
    is skipped. *)
Definition parse_env_line (raw : str) : option (str * str) :=
  let line := strip raw in
  if negb (nonempty line) || startswith line (py "#") || negb (str_in (py "=") line)
  then None
  else
    match split_once 61 line with
    | Some (key, value) =>
      Some (strip key, strip_chars (py "'") (strip_chars dq (strip value)))
    | None => None
    end.

Definition has_nul (s : str) : bool := existsb (N.eqb 0) s.

(** [os.environ[key] = value]: a key or a value with a NUL character is
    refused with [ValueError]. *)
Definition setenv (key value : str) : M unit :=
  fun s =>
    if has_nul key || has_nul value
    then (Err (Exception (py "embedded null byte")), s)
    else (Ok tt,
          {| environ := <[key := value]> (environ s);
             people := people s;
             log := log s |}).

(** One turn of the loop: [if key and key not in os.environ], with the
    keys of [os.environ] case sensitive as on POSIX. *)
Definition load_env_line (raw : str) : M unit :=
  match parse_env_line raw with
  | None => ret tt
  | Some (key, value) =>
    fun s =>
      match environ s !! key with
      | None => if nonempty key then setenv key value s else (Ok tt, s)
      | Some _ => (Ok tt, s)
      end
  end.

(** [load_env_from_file]: the exception of the reading leaves the
    function, and so does the [ValueError] of an assignment; the lines
    before it are loaded, the later ones are not. *)
Definition load_env_from_file (w : World) : M unit :=
  match env_file w with
  | Err msg => raise (Exception msg)
  | Ok lines => for_each lines load_env_line
  end.

Record client := { api_key : str; base_url : str }.

Definition create_client : M client :=
  key <- getenv (py "DEEPSEEK_API_KEY") ;;
  match key with
  | Some k =>
    if nonempty k then
      url <- getenv (py "DEEPSEEK_BASE_URL") ;;
      ret {| api_key := k;
             base_url := match url with
                         | Some u => u
                         | None => py "https://api.deepseek.com"
                         end |}
    else raise (SystemExit (py "请先在环境变量中设置 DEEPSEEK_API_KEY"))
  | None => raise (SystemExit (py "请先在环境变量中设置 DEEPSEEK_API_KEY"))
  end.

(** The prompt of a builder when it is loaded and does not raise, the
    default otherwise. *)
Definition built_prompt (b : option builder) (c : ctx) (default : str) : str :=
  match b with
  | Some build =>
    match build c with
    | Ok prompt => prompt
    | Err _ => default
    end
  | None => default
  end.

(** The two calls of [load_prompt_builder] at the head of
    [summarize_individual], outside every [try]. *)
Definition individual_prompts (w : World) : result exn unit :=
  match load (load_prompt_builder w (py "prompts.individual.prompt")
                (py "build_system_prompt")) with
  | Err e => Err e
  | Ok _ =>
    match load (load_prompt_builder w (py "prompts.individual.prompt")
                  (py "build_prompt")) with
    | Err e => Err e
    | Ok _ => Ok tt
    end
  end.

(** The request of [summarize_individual], once the two builders are
    loaded. *)
Definition individual_request (w : World) (model : str) (report : Report)
    (temperature : pyfloat) (max_tokens : Z) : request :=
  let dept_hint := department_focus (department report) in
  let sys_prompt :=
    built_prompt
      (found (load_prompt_builder w (py "prompts.individual.prompt")
                (py "build_system_prompt")))
      {| industry_context := INDUSTRY_CONTEXT;
         ctx_department_focus := Some dept_hint;
         ctx_report := None;
         ctx_raw_content := None;
         ctx_people := None |}
      (py "You are an HR/Org design expert. Extract concise, decision-grade facts from the annual report. "
       ++ py "Respond ONLY with the required JSON object in Chinese, no extra text.") in
  let user_prompt :=
    built_prompt
      (found (load_prompt_builder w (py "prompts.individual.prompt") (py "build_prompt")))
      {| industry_context := INDUSTRY_CONTEXT;
         ctx_department_focus := Some dept_hint;
         ctx_report := Some report;
         ctx_raw_content := Some (content report);
         ctx_people := None |}
      (content report) in
  {| req_model := model;
     req_system := sys_prompt;
     req_user := user_prompt;
     req_temperature := temperature;
     req_max_tokens := max_tokens |}.

Definition summarize_individual (w : World) (model : str) (report : Report)
    (temperature : pyfloat) (max_tokens : Z) : M json :=
  lift (individual_prompts w) ;;
  completion <-
    try_except
      (create_completion w (individual_request w model report temperature max_tokens))
      (fun exc => raise (Exception (py "调用模型失败: " ++ exc))) ;;
  match completion with
  | Some content =>
    if nonempty content then
      data <- lift (parse_content (json_loads w) content) ;;
      lift (repair report data)
    else raise (Exception (py "模型未返回内容"))
  | None => raise (Exception (py "模型未返回内容"))
  end.

(** The request of [aggregate_review], once the builders are loaded. *)
Definition aggregate_request (w : World) (model : str) (user_prompt : str)
    (temperature : pyfloat) (max_tokens : Z) : request :=
  {| req_model := model;
     req_system :=
       built_prompt
         (found (load_prompt_builder w (py "prompts.aggregate.prompt")
                   (py "build_system_prompt")))
         {| industry_context := INDUSTRY_CONTEXT;
            ctx_department_focus := None;
            ctx_report := None;
            ctx_raw_content := None;
            ctx_people := None |}
         (py "You are an organizational strategy consultant focusing on steel-industry solutions. Respond in Chinese with concise, actionable analysis.");
     req_user := user_prompt;
     req_temperature := temperature;
     req_max_tokens := max_tokens |}.

Definition aggregate_review (w : World) (model : str) (people : list json)
    (temperature : pyfloat) (extra_prompt : option str) (max_tokens : Z) : M str :=
  user_prompt <-
    lift (build_aggregate_prompt
            (load_prompt_builder w (py "prompts.aggregate.prompt") (py "build_prompt"))
            people extra_prompt) ;;
  lift (load (load_prompt_builder w (py "prompts.aggregate.prompt")
                (py "build_system_prompt"))) ;;
  completion <-
    try_except
      (create_completion w (aggregate_request w model user_prompt temperature max_tokens))
      (fun exc => raise (Exception (py "调用模型失败: " ++ exc))) ;;
  match completion with
  | Some content =>
    if nonempty content then ret (strip content)
    else raise (Exception (py "模型未返回内容"))
  | None => raise (Exception (py "模型未返回内容"))
  end.

(** [per_report_dir / report.path.relative_to(args.input).with_suffix(".json")] *)
Definition per_report_dest (args : Args) (report : Report) : result exn Pathlib.path :=
  match relative_to (path report) (input args) with
  | Some rel => Ok (out_dir args ++ [py "per_report"] ++ with_suffix rel (py ".json"))
  | None => Err (Exception (py "is not in the subpath of the input"))
  end.

(** The body of the loop of [main] over the reports. *)
Definition process_report (w : World) (args : Args) (report : Report) : M unit :=
  try_except
    (summary <- summarize_individual w (model args) report (temperature args)
                  (max_tokens_individual args) ;;
     append_people summary ;;
     dest <- lift (per_report_dest args report) ;;
     write_text w dest (dumps summary))
    (fun exc =>
       let fail := make_failure_record report exc in
       append_people fail ;;
       dest <- lift (per_report_dest args report) ;;
       write_text w dest (dumps fail)).

Definition people_path (args : Args) : Pathlib.path :=
  out_dir args ++ [py "individual_summaries.json"].

Definition report_path (args : Args) : Pathlib.path :=
  out_dir args ++ [py "organization_review.md"].

Definition header (w : World) (args : Args) : str :=
  py "# 年终总结评审" ++ nl ++ nl
  ++ py "生成时间：" ++ now w ++ nl
  ++ py "使用模型：个人提炼=" ++ model args ++ py "；汇总=" ++ aggregate_model args ++ nl
  ++ py "采样温度：" ++ float_repr (temperature args) ++ nl ++ nl.

(** [main] from the loop over the reports to the batch file. *)
Definition summarize_phase (w : World) (args : Args) (reports : list Report) : M unit :=
  for_each reports (process_report w args) ;;
  batch <- get_people ;;
  write_text w (people_path args) (dumps (JArr batch)).

(** [main] from the call of [aggregate_review] to its end. *)
Definition aggregate_phase (w : World) (args : Args) : M unit :=
  batch <- get_people ;;
  outcome <-
    try_except
      (aggregate_markdown <-
         aggregate_review w (aggregate_model args) batch (temperature args)
           (plan_prompt args) (max_tokens_aggregate args) ;;
       ret (aggregate_markdown, None))
      (fun agg_error => ret (py "生成失败：" ++ agg_error, Some agg_error)) ;;
  let '(aggregate_markdown, agg_error) := outcome in
  write_text w (report_path args) (header w args ++ aggregate_markdown ++ nl) ;;
  match agg_error with
  | Some e =>
    if nonempty e then raise (SystemExit (py "汇总失败，详见上方日志")) else ret tt
  | None => ret tt
  end.

(** [main], from the parsed arguments on.  What it prints is not
    modelled, and the directories it creates belong to the writes that
    follow them. *)
Definition main (w : World) (args : Args) : M unit :=
  load_env_from_file w ;;
  if negb (input_exists w)
  then raise (SystemExit (py "输入目录不存在: " ++ path_str (input args)))
  else
    _client <- create_client ;;
    reports <- lift (collect_reports (read_text_file w) (read_docx_file w)
                       (input args) (tree w)) ;;
    match reports with
    | [] => raise (SystemExit (py "未找到可处理的文件，请确认目录下包含 txt/md/docx 文件。"))
    | _ :: _ =>
      summarize_phase w args reports ;;
      aggregate_phase w args
    end.

(** [main] up to the batch file: all of it but the aggregate phase. *)
Definition collect_and_summarize (w : World) (args : Args) : M unit :=
  load_env_from_file w ;;
  if negb (input_exists w)
  then raise (SystemExit (py "输入目录不存在: " ++ path_str (input args)))
  else
    _client <- create_client ;;
    reports <- lift (collect_reports (read_text_file w) (read_docx_file w)
                       (input args) (tree w)) ;;
    match reports with
    | [] => raise (SystemExit (py "未找到可处理的文件，请确认目录下包含 txt/md/docx 文件。"))
    | _ :: _ => summarize_phase w args reports
    end.

(** The exit status of the interpreter: 0 after a normal end, 1 after a
    [SystemExit] with a message and after an exception nobody caught. *)
Definition exit_status {A : Type} (r : result exn A) : Z :=
  match r with
  | Ok _ => 0
  | Err (SystemExit _) => 1
  | Err (Exception _) => 1
  end.

Definition initial (env : gmap str str) : state :=
  {| environ := env; people := []; log := [] |}.

End AnalyzeReports.

Import AnalyzeReports.

(* ================================================================== *)
(** * [prompts/aggregate/prompt.py] *)
(* ================================================================== *)

Module PromptsAggregate.

Section Builder.

Variable isprintable : N -> bool.


End Builder.

End PromptsAggregate.

(* ================================================================== *)
(** * [run_analysis] of [web_app.py] *)
(* ================================================================== *)

Module WebApp.

(** The fields of the payload that [run_analysis] reads, after the
    conversions at its head. *)
Record Payload := {
  input_dir : Pathlib.path;
  p_temperature : pyfloat;
  p_model : str;
  p_aggregate_model : str;
  p_api_key : option str;
  p_plan_prompt : option str;
  p_max_tokens_individual : Z;
  p_max_tokens_aggregate : Z
}.

(** [exc.code] of a [SystemExit]. *)
Inductive exit_arg :=
  | CodeNone
  | CodeInt (z : Z)
  | CodeStr (s : str).

(** How the call [analyze_reports.main(argv)], with the redirections
    around it, ends. [OtherBaseException] is an exception that is neither a
    [SystemExit] nor an [Exception]. *)
Inductive main_end :=
  | Returned
  | RaisedSystemExit (code : exit_arg)
  | RaisedException (msg : str)
  | OtherBaseException.

Record Response := {
  exit_code : Z;
  stdout : str;
  stderr : str;
  run_dir : option Pathlib.path
}.

Section RunAnalysis.

(** [analyze_reports.main]: from the arguments and [os.environ] to how it
    ends, the [os.environ] it leaves and the chunks it prints. *)
Variable analyze_main :
  list str -> gmap str str -> main_end * gmap str str * list str.

(** [any(Path(input_dir).rglob("*"))] and the name of the run directory. *)
Variable input_has_entries : Pathlib.path -> bool.
Variable run_name : str.
Variable RUN_ROOT : Pathlib.path.

Definition KEY : str := py "DEEPSEEK_API_KEY".

Definition str_of_exit_arg (c : exit_arg) : str :=
  match c with
  | CodeNone => py "None"
  | CodeInt z => str_of_Z z
  | CodeStr s => s
  end.

(** [emit]: empty chunks are dropped. *)
Definition emit (text : str) (log_chunks : list str) : list str :=
  if nonempty text then log_chunks ++ [text] else log_chunks.

Definition build_argv (payload : Payload) (out : Pathlib.path) : list str :=
  [ py "--input"; path_str (input_dir payload);
    py "--out-dir"; path_str out;
    py "--model"; p_model payload;
    py "--aggregate-model"; p_aggregate_model payload;
    py "--temperature"; float_repr (p_temperature payload);
    py "--max-tokens-individual"; str_of_Z (p_max_tokens_individual payload);
    py "--max-tokens-aggregate"; str_of_Z (p_max_tokens_aggregate payload) ]
  ++ match p_plan_prompt payload with
     | Some plan => if nonempty plan then [py "--plan-prompt"; plan] else []
     | None => []
     end.

(** The [finally] clause. *)
Definition restore (env_backup : option str) (env : gmap str str) : gmap str str :=
  match env_backup with
  | None => delete KEY env
  | Some v => <[KEY := v]> env
  end.

(** [run_analysis(payload, progress_cb)] on [os.environ]: the response,
    or [None] when an exception leaves the function, and the [os.environ]
    it leaves. *)
Definition run_analysis (payload : Payload) (progress_cb : bool) (env : gmap str str)
  : option Response * gmap str str :=
  if negb (input_has_entries (input_dir payload)) then
    (Some {| exit_code := 1;
             stdout := [];
             stderr := py "输入目录为空: " ++ path_str (input_dir payload);
             run_dir := None |},
     env)
  else
    let out := RUN_ROOT ++ [run_name] in
    let env_backup := env !! KEY in
    let env1 := match p_api_key payload with
                | Some k => if nonempty k then <[KEY := k]> env else env
                | None => env
                end in
    let argv := build_argv payload out in
    let chunks0 := if progress_cb then emit (py "[web] 开始执行分析任务..." ++ nl) [] else [] in
    let '(ending, env2, printed) := analyze_main argv env1 in
    let chunks1 := fold_left (fun acc chunk => emit chunk acc) printed chunks0 in
    let env3 := restore env_backup env2 in
    let finish (code : Z) (chunks : list str) :=
      let chunks' :=
        if progress_cb
        then emit (py "[web] 任务结束，退出码 " ++ str_of_Z code ++ nl) chunks
        else chunks in
      (Some {| exit_code := code;
               stdout := concat chunks';
               stderr := [];
               run_dir := Some out |},
       env3) in
    match ending with
    | Returned => finish 0%Z chunks1
    | RaisedSystemExit code =>
      let exit := match code with CodeInt z => z | _ => 1%Z end in
      let chunks2 := match code with
                     | CodeNone => chunks1
                     | CodeInt 0 => chunks1
                     | _ => emit (str_of_exit_arg code) chunks1
                     end in
      finish exit chunks2
    | RaisedException msg => finish 1%Z (emit msg chunks1)
    | OtherBaseException => (None, env3)
    end.

End RunAnalysis.

End WebApp.

Import WebApp.

(* ================================================================== *)
(** * Concrete runs *)
(* ================================================================== *)

Module Examples.

(** The examples contain no number with a fraction or an exponent and no
    character outside ASCII in a rendered value; the two hooks are never
    consulted on them. *)
Definition parse_float_text (token : str) : pyfloat :=
  {| float_repr := token; float_is_zero := false |}.


Definition json_loads_ref : str -> result str json := loads parse_float_text.

(** The response [{"name":"X"}] and the same inside a code fence. *)
Definition name_x_response : str :=
  py "{" ++ dq ++ py "name" ++ dq ++ py ":" ++ dq ++ py "X" ++ dq ++ py "}".


(** The response [{"role": []}]. *)
Definition role_list_response : str :=
  py "{" ++ dq ++ py "role" ++ dq ++ py ": []}".


Definition no_builders (module func : str) : loaded := Loaded None.

(** The directory of the run holds no [prompts] package. *)
Definition no_prompts_package (module func : str) : loaded :=
  ModuleNotFound (py "prompts").

(** A world around a tree of text files, with the API key in the [.env]
    file. *)
Definition world (files : list node) (builders : str -> str -> loaded)
    (reply : nat -> request -> completion) (disk : nat -> option str) : World :=
  {| read_text_file := fun _ => Ok (py "report text");
     read_docx_file := fun _ => Err BadZipFile;
     input_exists := true;
     tree := files;
     env_file := Ok [py "DEEPSEEK_API_KEY=sk-test"];
     load_prompt_builder := builders;
     json_loads := json_loads_ref;
     chat_completions_create := reply;
     write_error := disk;
     now := py "2025-01-01T00:00:00" |}.

(** The same world with another [.env] file. *)
Definition with_env_file (w : World) (file : result str (list str)) : World :=
  {| read_text_file := read_text_file w;
     read_docx_file := read_docx_file w;
     input_exists := input_exists w;
     tree := tree w;
     env_file := file;
     load_prompt_builder := load_prompt_builder w;
     json_loads := json_loads w;
     chat_completions_create := chat_completions_create w;
     write_error := write_error w;
     now := now w |}.

(** A [.env] file whose second line has a NUL character in its value. *)
Definition env_lines_with_nul : list str :=
  [ py "DEEPSEEK_BASE_URL = 'https://example.test'";
    py "DEEPSEEK_API_KEY=sk" ++ [0] ++ py "x";
    py "OTHER=1" ].

Definition args : Args :=
  {| input := [py "reports"];
     out_dir := [py "out"];
     model := py "deepseek-chat";
     aggregate_model := py "deepseek-reasoner";
     temperature := {| float_repr := py "1.3"; float_is_zero := false |};
     max_tokens_individual := 4000;
     max_tokens_aggregate := 32000;
     plan_prompt := Some (py "Q1 plan") |}.

Definition always (content : str) (n : nat) (req : request) : completion :=
  ApiContent (Some content).

Definition disk_fine (n : nat) : option str := None.

(** The first write fails, the later ones succeed. *)
Definition disk_fails_once (n : nat) : option str :=
  match n with
  | O => Some (py "[Errno 28] No space left on device")
  | S _ => None
  end.

(** [reports/RnD/alice.txt] alone. *)
Definition one_report_tree : list node := [Dir (py "RnD") [File (py "alice.txt")]].

Definition alice : Report :=
  {| path := [py "reports"; py "RnD"; py "alice.txt"];
     department := py "RnD";
     title := py "alice";
     role := py "employee";
     content := py "report text" |}.

(** [reports/RnD/alice.txt] and [reports/RnD/经理bob.md]. *)
Definition two_report_tree : list node :=
  [Dir (py "RnD") [File (py "经理bob.md"); File (py "alice.txt")]].

(** [reports/a/x.txt] and [reports/a-b/y.txt]. *)
Definition dash_tree : list node :=
  [Dir (py "a-b") [File (py "y.txt")]; Dir (py "a") [File (py "x.txt")]].

Definition environment : gmap str str := {[ py "DEEPSEEK_API_KEY" := py "sk-test" ]}.

(** The response [{"source_path": "elsewhere"}]. *)
Definition source_path_response : str :=
  py "{" ++ dq ++ py "source_path" ++ dq ++ py ": " ++ dq ++ py "elsewhere" ++ dq ++ py "}".

(** The service answers the requests of the individual phase and fails
    on the second request, the one of the aggregate phase of a run with
    one report. *)
Definition second_request_fails (n : nat) (req : request) : completion :=
  match n with
  | 1%nat => ApiError (py "Connection error.")
  | _ => ApiContent (Some name_x_response)
  end.

(** The summary of [alice] for the response [{"name":"X"}] and her
    placeholder after the failed write. *)
Definition alice_summary : json :=
  JObj [ (py "name", JStr (py "X"));
         (py "source_path", JStr (py "reports/RnD/alice.txt"));
         (py "department", JStr (py "RnD"));
         (py "role", JStr (py "employee"));
         (py "workload", JStr (py "未提及/估计")) ].

Definition alice_placeholder : json :=
  make_failure_record alice (py "[Errno 28] No space left on device").



Definition alice_json : Pathlib.path :=
  [py "out"; py "per_report"; py "RnD"; py "alice.json"].

(** One report, a model that answers [{"name":"X"}], and a disk whose
    first write fails. *)
Definition failed_write_world : World :=
  world one_report_tree no_builders (always name_x_response) disk_fails_once.

(** One report and a service that fails in the aggregate phase; the
    states of the run before and after the call of [aggregate_review]. *)
Definition failing_aggregate_world : World :=
  world one_report_tree no_builders second_request_fails disk_fine.

Definition after_summaries : state :=
  snd (collect_and_summarize failing_aggregate_world args (initial environment)).

Definition after_aggregate : state :=
  snd (aggregate_review failing_aggregate_world (aggregate_model args)
         (people after_summaries) (temperature args) (plan_prompt args)
         (max_tokens_aggregate args) after_summaries).

End Examples.

(* ================================================================== *)
(** * The words of the specification *)
(* ================================================================== *)

Module Spec.

(** Lexicographic order on sequences: a proper prefix comes first,
    otherwise the first difference decides. *)
Inductive lexicographic {A : Type} (lt : A -> A -> Prop) : list A -> list A -> Prop :=
  | lex_prefix : forall y b, lexicographic lt [] (y :: b)
  | lex_first : forall x y a b, lt x y -> lexicographic lt (x :: a) (y :: b)
  | lex_rest : forall x a b, lexicographic lt a b -> lexicographic lt (x :: a) (x :: b).

(** The order of strings, by code points. *)
Definition str_lt : str -> str -> Prop := lexicographic N.lt.

(** The order of paths as sequences of parts. *)
Definition parts_lt : Pathlib.path -> Pathlib.path -> Prop := lexicographic str_lt.

(** The order of paths as the strings of the full paths. *)
Definition full_path_lt (p q : Pathlib.path) : Prop :=
  str_lt (path_str p) (path_str q).

(** [key] occurs in [s]. *)
Definition substring (key s : str) : Prop :=
  exists before after, s = before ++ key ++ after.


(** A title that contains a manager keyword. *)
Definition has_manager_keyword (title : str) : Prop :=
  exists key, In key MANAGER_HINTS /\ substring key title.

(** A regular file below [root] whose suffix, in lower case, is allowed. *)
Definition allowed_regular_file (root : Pathlib.path) (tree : list node)
    (p : Pathlib.path) : Prop :=
  exists rel,
    p = root ++ rel /\ In (rel, KFile) (tree_entries tree) /\
    In (lower (Pathlib.suffix p)) ALLOWED_SUFFIXES.

(** The keys a summary is compacted to for the aggregate prompt. *)
Definition COMPACT_KEYS : list str :=
  [ py "name"; py "department"; py "role"; py "position"; py "title";
    py "entry_date"; py "key_results"; py "strengths"; py "improvements";
    py "self_review"; py "issues"; py "suggestions"; py "workload";
    py "support_to_departments"; py "risk_flags"; py "error" ].






(** A value that is present under [key] and is not falsy. *)
Definition present_nonempty (key : str) (d : dict) : Prop :=
  exists v, dict_get key d = Some v /\ truthy v = true.

(** The value the repair leaves under [key]: the one of the model when it
    is there and not falsy, the substitute otherwise. *)
Definition kept_or (substitute : json) (key : str) (d0 : dict) : json :=
  match dict_get key d0 with
  | Some v => if truthy v then v else substitute
  | None => substitute
  end.

Definition valid_role (v : json) : Prop :=
  v = JStr (py "cadre") \/ v = JStr (py "employee").

(** The four mandatory fields after the repair. *)
Definition repaired (data : json) : Prop :=
  exists d,
    data = JObj d /\
    present_nonempty (py "name") d /\
    present_nonempty (py "department") d /\
    present_nonempty (py "workload") d /\
    exists r, dict_get (py "role") d = Some r /\ valid_role r.

(** The role the repair leaves, from the dictionary of the model. *)
Definition role_after (report : Report) (d0 : dict) : json :=
  match dict_get (py "role") d0 with
  | Some (JStr s) =>
    if mem s [py "cadre"; py "employee"] then JStr s else JStr (role report)
  | _ => JStr (role report)
  end.

(** The fields of a dictionary [d] that went through the repair of the
    dictionary [d0] of the model. *)
Definition repaired_from (report : Report) (d0 d : dict) : Prop :=
  dict_get (py "source_path") d = Some (JStr (path_str (path report))) /\
  dict_get (py "name") d = Some (kept_or (JStr (title report)) (py "name") d0) /\
  dict_get (py "department") d
    = Some (kept_or (JStr (department report)) (py "department") d0) /\
  dict_get (py "role") d = Some (role_after report d0) /\
  dict_get (py "workload") d = Some (kept_or (JStr (py "未提及/估计")) (py "workload") d0).

(** A record of a report in the batch: a repaired summary or the
    placeholder of a failure. *)
Definition record_of (report : Report) (entry : json) : Prop :=
  (exists d0 d, entry = JObj d /\ repaired_from report d0 d) \/
  (exists error, entry = make_failure_record report error).

(** What [collect_reports] guarantees of a report it builds. *)
Definition collected (r : Report) : Prop :=
  title r <> [] /\ department r <> [] /\
  (role r = py "cadre" \/ role r = py "employee").

End Spec.

Import Spec.

(* ================================================================== *)
(** * Further properties, in the words of the code *)
(* ================================================================== *)

Module Properties.

(** How a report hangs together with the file it was built from. *)
Definition built_from_file (read_text : Pathlib.path -> result exn str)
    (read_docx : Pathlib.path -> result docx_error str)
    (root : Pathlib.path) (tree : list node) (r : Report) : Prop :=
  exists rel,
    path r = root ++ rel /\
    In (rel, KFile) (tree_entries tree) /\
    load_content read_text read_docx (path r) = Ok (content r) /\
    title r = stem (path r) /\
    role r = detect_role (title r) /\
    department r = match rel with
                   | first :: _ :: _ => first
                   | _ => py "未分类"
                   end.

(** A file name that ends, in any case of the letters, with one of the
    allowed suffixes and has something before it. *)
Definition has_allowed_extension (nm : str) : Prop :=
  exists base ext,
    nm = base ++ ext /\ base <> [] /\ In (lower ext) ALLOWED_SUFFIXES.

(** The first group of [hints] one of whose keywords, in lower case,
    occurs in [dept_lower] is the group of [hint]. *)
Definition first_matching_group (dept_lower : str)
    (hints : list (list str * str)) (hint : str) : Prop :=
  exists before keywords after,
    hints = before ++ (keywords, hint) :: after /\
    (exists k, In k keywords /\ substring (lower k) dept_lower) /\
    (forall kws h k, In (kws, h) before -> In k kws -> ~ substring (lower k) dept_lower).

(** No keyword of [hints] occurs in [dept_lower]. *)
Definition no_group_matches (dept_lower : str) (hints : list (list str * str)) : Prop :=
  forall kws h k, In (kws, h) hints -> In k kws -> ~ substring (lower k) dept_lower.

Definition GENERIC_FOCUS : str :=
  py "关注年度成果、工作量、优势、改进点、跨部门支撑与风险。".

(** The value that the first line of the environment file with the key
    [key] gives to it. *)
Fixpoint first_definition (key : str) (pairs : list (str * str)) : option str :=
  match pairs with
  | [] => None
  | (k, v) :: rest => if str_eqb k key then Some v else first_definition key rest
  end.

(** What a variable holds once the environment file is loaded: its value
    in the environment when it is set there, also to the empty string;
    otherwise the value of the first line of the file that defines it. *)
Definition configured (pairs : list (str * str)) (env : gmap str str) (key : str)
  : option str :=
  match env !! key with
  | Some v => Some v
  | None => if nonempty key then first_definition key pairs else None
  end.

(** The keys and values of the lines of an environment file that are not
    skipped, in the order of the lines. *)
Definition env_pairs (lines : list str) : list (str * str) :=
  flat_map (fun raw => match parse_env_line raw with
                       | Some kv => [kv]
                       | None => []
                       end) lines.

(** A pair the environment refuses: its key is not empty and is set
    neither in the environment nor by a pair before it, so that it is
    assigned, and the key or the value holds a NUL character. *)
Definition refused (before : list (str * str)) (env : gmap str str)
    (kv : str * str) : Prop :=
  nonempty (fst kv) = true /\
  configured before env (fst kv) = None /\
  (has_nul (fst kv) = true \/ has_nul (snd kv) = true).

(** No pair of [pairs] is refused. *)
Definition none_refused (pairs : list (str * str)) (env : gmap str str) : Prop :=
  forall before kv after, pairs = before ++ kv :: after -> ~ refused before env kv.

(** The loading of the function [func] of the module [module] raises
    nothing: it gives a builder or none. *)
Definition builder_loads (w : World) (module func : str) : Prop :=
  exists b, load_prompt_builder w module func = Loaded b.

(** The context [{"industry_context": INDUSTRY_CONTEXT}] that the builder
    of the aggregate system prompt receives. *)
Definition industry_ctx : ctx :=
  {| industry_context := INDUSTRY_CONTEXT;
     ctx_department_focus := None;
     ctx_report := None;
     ctx_raw_content := None;
     ctx_people := None |}.

(** The system prompt of the aggregate request when no builder gives
    one. *)
Definition AGGREGATE_SYSTEM_PROMPT : str :=
  py "You are an organizational strategy consultant focusing on steel-industry solutions. Respond in Chinese with concise, actionable analysis.".

(** A string whose first and whose last character, if any, are not [bad]. *)
Definition clean_ends (bad : N -> bool) (s : str) : Prop :=
  (forall c rest, s = c :: rest -> bad c = false) /\
  (forall front c, s = front ++ [c] -> bad c = false).

(** The two quotes that [load_env_from_file] takes off a value. *)
Definition is_quote (c : N) : bool := (c =? 34) || (c =? 39).

(** A string of white space only. *)
Definition blank (s : str) : Prop := List.Forall (fun c => isspace c = true) s.

(** The requests among the operations of a run, in their order. *)
Definition requests_of (l : list event) : list request :=
  flat_map (fun e => match e with EApi req => [req] | EWrite _ _ => [] end) l.

(** The files written among the operations of a run, in their order. *)
Definition writes_of (l : list event) : list (Pathlib.path * str) :=
  flat_map (fun e => match e with EWrite p text => [(p, text)] | EApi _ => [] end) l.

(** A JSON object, a [dict]. *)
Definition is_object (v : json) : Prop := exists d, v = JObj d.

(** [P] holds of every summary that [summarize_individual] returns for
    [report] and of every placeholder of [report]. *)
Definition entries_satisfy (w : World) (args : Args) (P : json -> Prop)
    (report : Report) : Prop :=
  (forall s data s1,
      summarize_individual w (model args) report (temperature args)
        (max_tokens_individual args) s = (Ok data, s1) -> P data) /\
  (forall msg, P (make_failure_record report msg)).

(** How [run_analysis] turns the end of [analyze_reports.main] into an
    exit code, and what it appends to the log for it. *)
Definition exit_code_of (ending : main_end) : Z :=
  match ending with
  | Returned => 0
  | RaisedSystemExit (CodeInt z) => z
  | _ => 1
  end%Z.

Definition message_of (ending : main_end) : str :=
  match ending with
  | RaisedSystemExit (CodeStr m) => m
  | RaisedSystemExit (CodeInt z) => if (z =? 0)%Z then [] else str_of_Z z
  | RaisedException m => m
  | _ => []
  end.

(** Two batches whose entries are dictionaries that agree, entry by
    entry, on the keys of the compaction. *)
Definition agree_on_compact_keys (people people' : list json) : Prop :=
  Forall2
    (fun p p' =>
       exists d d',
         p = JObj d /\ p' = JObj d' /\
         forall k, In k COMPACT_KEYS -> dict_get k d = dict_get k d')
    people people'.

End Properties.

Import Properties.

(* ================================================================== *)
(** * Strings *)
(* ================================================================== *)

Section StringFacts.

Lemma str_eqb_eq (a b : str) : str_eqb a b = true <-> a = b.
Proof.
  revert b. induction a as [|x a IH]; intros [|y b]; simpl; split; intros H;
    try reflexivity; try discriminate.
  - apply andb_true_iff in H as [Hx Hr]. apply N.eqb_eq in Hx.
    apply IH in Hr. congruence.
  - injection H as -> ->. rewrite N.eqb_refl. simpl. now apply IH.
Qed.

Lemma str_eqb_refl (a : str) : str_eqb a a = true.
Proof. now apply str_eqb_eq. Qed.

Lemma str_eqb_neq (a b : str) : str_eqb a b = false <-> a <> b.
Proof.
  split.
  - intros H E. apply str_eqb_eq in E. congruence.
  - intros H. destruct (str_eqb a b) eqn:E; [|reflexivity].
    apply str_eqb_eq in E. contradiction.
Qed.

Lemma str_eqb_sym (a b : str) : str_eqb a b = str_eqb b a.
Proof.
  destruct (str_eqb a b) eqn:E.
  - apply str_eqb_eq in E. subst. symmetry. apply str_eqb_refl.
  - symmetry. apply str_eqb_neq. apply str_eqb_neq in E. congruence.
Qed.

Lemma startswith_prefix (s p : str) :
  startswith s p = true <-> exists r, s = p ++ r.
Proof.
  revert s. induction p as [|c p IH]; intros s; simpl.
  - split; [intros _; now exists s | reflexivity].
  - destruct s as [|d s].
    + split; [discriminate | intros [r Hr]; discriminate].
    + rewrite andb_true_iff, N.eqb_eq, IH. split.
      * intros [-> [r ->]]. now exists r.
      * intros [r Hr]. injection Hr as -> ->. split; [reflexivity | now exists r].
Qed.

Lemma str_in_substring (key s : str) : str_in key s = true <-> substring key s.
Proof.
  unfold substring. induction s as [|c s IH]; simpl.
  - rewrite orb_false_r, startswith_prefix. split.
    + intros [r Hr]. exists [], r. exact Hr.
    + intros [l [r Hr]]. destruct l; [now exists r | discriminate].
  - rewrite orb_true_iff, startswith_prefix, IH. split.
    + intros [[r Hr] | [l [r Hr]]].
      * exists [], r. exact Hr.
      * exists (c :: l), r. simpl. now rewrite Hr.
    + intros [[|x l] [r Hr]].
      * left. now exists r.
      * right. simpl in Hr. injection Hr as -> ->. now exists l, r.
Qed.

Lemma mem_In (s : str) (names : list str) : mem s names = true <-> In s names.
Proof.
  unfold mem. rewrite existsb_exists. split.
  - intros [x [Hx E]]. apply str_eqb_eq in E. now subst.
  - intros H. exists s. split; [exact H | apply str_eqb_refl].
Qed.

Lemma nonempty_true (s : str) : nonempty s = true <-> s <> [].
Proof. destruct s; simpl; split; intros H; congruence. Qed.

End StringFacts.

(* ================================================================== *)
(** * Dictionaries and the repair of a summary *)
(* ================================================================== *)

Section DictFacts.

Lemma dict_get_set_eq (k : str) (v : json) (d : dict) :
  dict_get k (dict_set k v d) = Some v.
Proof.
  induction d as [|[k' v'] d IH]; simpl.
  - now rewrite str_eqb_refl.
  - destruct (str_eqb k k') eqn:E; simpl.
    + now rewrite str_eqb_refl.
    + now rewrite E.
Qed.

Lemma dict_get_set_ne (k k' : str) (v : json) (d : dict) :
  str_eqb k' k = false -> dict_get k' (dict_set k v d) = dict_get k' d.
Proof.
  intros Hne. induction d as [|[k0 v0] d IH]; simpl.
  - now rewrite Hne.
  - destruct (str_eqb k k0) eqn:E; simpl.
    + apply str_eqb_eq in E. subst k0. now rewrite Hne.
    + destruct (str_eqb k' k0); [reflexivity | exact IH].
Qed.

Lemma default_if_falsy_get (k : str) (v : json) (d : dict) :
  dict_get k (default_if_falsy k v d) = Some (kept_or v k d).
Proof.
  unfold default_if_falsy, kept_or.
  destruct (dict_get k d) as [x|] eqn:E.
  - destruct (truthy x); [exact E | apply dict_get_set_eq].
  - apply dict_get_set_eq.
Qed.

Lemma default_if_falsy_other (k k' : str) (v : json) (d : dict) :
  str_eqb k' k = false -> dict_get k' (default_if_falsy k v d) = dict_get k' d.
Proof.
  intros Hne. unfold default_if_falsy.
  destruct (dict_get k d) as [x|].
  - destruct (truthy x); [reflexivity | now apply dict_get_set_ne].
  - now apply dict_get_set_ne.
Qed.

Lemma kept_or_truthy (v : json) (k : str) (d : dict) :
  truthy v = true -> truthy (kept_or v k d) = true.
Proof.
  intros Hv. unfold kept_or. destruct (dict_get k d) as [x|]; [|exact Hv].
  destruct (truthy x) eqn:E; assumption.
Qed.

End DictFacts.

(** Rewriting of a lookup through the assignments of the repair; the side
    conditions compare two literal keys. *)
Ltac dict_lookup :=
  repeat first
    [ rewrite dict_get_set_eq
    | rewrite default_if_falsy_get
    | rewrite dict_get_set_ne by reflexivity
    | rewrite default_if_falsy_other by reflexivity ].

Section RepairFacts.

Variable report : Report.

Lemma kept_or_set_other (v x : json) (k k' : str) (d : dict) :
  str_eqb k k' = false -> kept_or v k (dict_set k' x d) = kept_or v k d.
Proof. intros H. unfold kept_or. now rewrite dict_get_set_ne. Qed.

Lemma kept_or_default_other (v x : json) (k k' : str) (d : dict) :
  str_eqb k k' = false -> kept_or v k (default_if_falsy k' x d) = kept_or v k d.
Proof. intros H. unfold kept_or. now rewrite default_if_falsy_other. Qed.

Lemma repair_object (d0 : dict) (data' : json) :
  repair report (JObj d0) = Ok data' ->
  exists d, data' = JObj d /\ repaired_from report d0 d.
Proof.
  unfold repair.
  set (d1 := dict_set (py "source_path") (JStr (path_str (path report))) d0).
  set (d2 := default_if_falsy (py "name") (JStr (title report)) d1).
  set (d3 := default_if_falsy (py "department") (JStr (department report)) d2).
  assert (Hrole : dict_get (py "role") d3 = dict_get (py "role") d0)
    by (unfold d3, d2, d1; now dict_lookup).
  assert (Hd3 :
    dict_get (py "source_path") d3 = Some (JStr (path_str (path report))) /\
    dict_get (py "name") d3 = Some (kept_or (JStr (title report)) (py "name") d0) /\
    dict_get (py "department") d3
      = Some (kept_or (JStr (department report)) (py "department") d0) /\
    dict_get (py "workload") d3 = dict_get (py "workload") d0).
  { unfold d3, d2, d1. repeat split; dict_lookup;
      rewrite ?kept_or_default_other, ?kept_or_set_other by reflexivity; reflexivity. }
  destruct Hd3 as (Hsp & Hname & Hdept & Hwork).
  assert (Hfinish : forall d4,
    dict_get (py "source_path") d4 = dict_get (py "source_path") d3 ->
    dict_get (py "name") d4 = dict_get (py "name") d3 ->
    dict_get (py "department") d4 = dict_get (py "department") d3 ->
    dict_get (py "workload") d4 = dict_get (py "workload") d3 ->
    dict_get (py "role") d4 = Some (role_after report d0) ->
    repaired_from report d0 (default_if_falsy (py "workload") (JStr (py "未提及/估计")) d4)).
  { intros d4 E1 E2 E3 E4 E5. unfold repaired_from. dict_lookup.
    rewrite E1, E2, E3, E5, Hsp, Hname, Hdept. repeat split.
    unfold kept_or. now rewrite E4, Hwork. }
  assert (Hsubst : role_after report d0 = JStr (role report) ->
    repaired_from report d0
      (default_if_falsy (py "workload") (JStr (py "未提及/估计"))
         (dict_set (py "role") (JStr (role report)) d3))).
  { intros E. apply Hfinish; dict_lookup; try reflexivity. now rewrite E. }
  destruct (dict_get (py "role") d3) as [v|] eqn:Ev.
  - assert (Ev0 : dict_get (py "role") d0 = Some v) by congruence.
    destruct (hashable v) eqn:Hh; cbn [negb]; [|discriminate].
    destruct v as [| b | z | f | s | l | d]; try discriminate Hh;
      try (intros H; injection H as <-; eexists; split; [reflexivity|];
           apply Hsubst; unfold role_after; now rewrite Ev0).
    destruct (mem s [py "cadre"; py "employee"]) eqn:Hm;
      intros H; injection H as <-; eexists; (split; [reflexivity|]).
    + apply Hfinish; try reflexivity.
      rewrite Ev. unfold role_after. now rewrite Ev0, Hm.
    + apply Hsubst. unfold role_after. now rewrite Ev0, Hm.
  - intros H. injection H as <-. eexists. split; [reflexivity|].
    apply Hsubst. unfold role_after. rewrite <- Hrole. reflexivity.
Qed.

Lemma repair_only_objects (data data' : json) :
  repair report data = Ok data' -> exists d0, data = JObj d0.
Proof. destruct data; simpl; try discriminate. intros _. now eexists. Qed.


Lemma role_after_valid (d0 : dict) :
  role report = py "cadre" \/ role report = py "employee" ->
  valid_role (role_after report d0).
Proof.
  intros Hr. unfold role_after, valid_role.
  assert (Hown : JStr (role report) = JStr (py "cadre")
                 \/ JStr (role report) = JStr (py "employee"))
    by (destruct Hr as [-> | ->]; [left | right]; reflexivity).
  destruct (dict_get (py "role") d0) as [[| b | z | f | s | l | d]|]; try exact Hown.
  destruct (mem s [py "cadre"; py "employee"]) eqn:Hm; [|exact Hown].
  apply mem_In in Hm. destruct Hm as [<- | [<- | []]]; [left | right]; reflexivity.
Qed.

Lemma repaired_from_repaired (d0 d : dict) :
  collected report -> repaired_from report d0 d -> repaired (JObj d).
Proof.
  intros (Ht & Hd & Hr) (_ & Hname & Hdept & Hrole & Hwork).
  exists d. split; [reflexivity|].
  repeat split.
  - eexists. split; [exact Hname|]. apply kept_or_truthy. simpl. now apply nonempty_true.
  - eexists. split; [exact Hdept|]. apply kept_or_truthy. simpl. now apply nonempty_true.
  - eexists. split; [exact Hwork|]. apply kept_or_truthy. reflexivity.
  - eexists. split; [exact Hrole|]. now apply role_after_valid.
Qed.


End RepairFacts.

(* ================================================================== *)
(** * The individual phase *)
(* ================================================================== *)

Section Individual.

Variable w : World.
Variable model : str.
Variable report : Report.
Variable temperature : pyfloat.
Variable max_tokens : Z.

Let req := individual_request w model report temperature max_tokens.

(** One run of [summarize_individual]: the loading of the builders,
    then one request, then the parsing and the repair of its content. *)
Lemma summarize_individual_run (s : state) :
  summarize_individual w model report temperature max_tokens s =
  match individual_prompts w with
  | Err e => (Err e, s)
  | Ok _ =>
    ( match chat_completions_create w (count_api (log s)) req with
      | ApiError msg => Err (Exception (py "调用模型失败: " ++ msg))
      | ApiContent None => Err (Exception (py "模型未返回内容"))
      | ApiContent (Some content) =>
        if nonempty content then
          match parse_content (json_loads w) content with
          | Ok data => repair report data
          | Err e => Err e
          end
        else Err (Exception (py "模型未返回内容"))
      end,
      add_event (EApi req) s )
  end.
Proof.
  unfold summarize_individual, bind, try_except, create_completion, raise, lift.
  fold req.
  destruct (individual_prompts w) as [[]|e0]; [|reflexivity].
  destruct (chat_completions_create w (count_api (log s)) req) as [msg | [content|]];
    try reflexivity.
  destruct (nonempty content); [|reflexivity].
  destruct (parse_content (json_loads w) content); reflexivity.
Qed.


(** The state after a run: one request more, unless the loading raised. *)
Lemma summarize_individual_state (s : state) :
  snd (summarize_individual w model report temperature max_tokens s)
  = match individual_prompts w with
    | Err _ => s
    | Ok _ => add_event (EApi req) s
    end.
Proof. rewrite summarize_individual_run. now destruct (individual_prompts w). Qed.

(** A run leaves the batch as it is. *)
Lemma summarize_individual_people (s : state) :
  people (snd (summarize_individual w model report temperature max_tokens s))
  = people s.
Proof. rewrite summarize_individual_state. now destruct (individual_prompts w). Qed.

(** The loading of the builders raises only for a module that is not
    found. *)
Lemma individual_prompts_error (e : exn) :
  individual_prompts w = Err e -> exists missing, e = module_not_found missing.
Proof.
  unfold individual_prompts.
  destruct (load_prompt_builder w _ (py "build_system_prompt")) as [b|missing];
    cbn [load].
  - destruct (load_prompt_builder w _ (py "build_prompt")) as [b'|missing];
      cbn [load]; [discriminate|].
    intros H. injection H as <-. now exists missing.
  - intros H. injection H as <-. now exists missing.
Qed.

Lemma summarize_individual_ok (s s' : state) (data : json) :
  summarize_individual w model report temperature max_tokens s = (Ok data, s') ->
  exists content d0 d,
    chat_completions_create w (count_api (log s)) req = ApiContent (Some content) /\
    parse_content (json_loads w) content = Ok (JObj d0) /\
    data = JObj d /\ repaired_from report d0 d.
Proof.
  rewrite summarize_individual_run.
  destruct (individual_prompts w) as [[]|e0]; [|discriminate].
  intros H. injection H as H _.
  destruct (chat_completions_create w (count_api (log s)) req)
    as [msg | [content|]] eqn:Hc; try discriminate.
  destruct (nonempty content); [|discriminate].
  destruct (parse_content (json_loads w) content) as [parsed|e] eqn:Hp; [|discriminate].
  destruct (repair_only_objects report _ _ H) as [d0 ->].
  destruct (repair_object report _ _ H) as [d [-> Hd]].
  exists content, d0, d. auto.
Qed.

Lemma summarize_individual_ok_loaded (s s' : state) (data : json) :
  summarize_individual w model report temperature max_tokens s = (Ok data, s') ->
  individual_prompts w = Ok tt /\ s' = add_event (EApi req) s.
Proof.
  rewrite summarize_individual_run.
  destruct (individual_prompts w) as [[]|e0]; [|discriminate].
  intros H. injection H as _ <-. auto.
Qed.

End Individual.

(* ================================================================== *)
(** * Role detection *)
(* ================================================================== *)

(** C5. For every title, [detect_role] answers [cadre] exactly when the
    title contains one of the manager keywords as a substring, and
    [employee] exactly when it contains none; the title of a collected
    report is the file name without its suffix and its role is the one
    detected on that title. *)
Theorem detect_role_cadre_iff_keyword :
  forall title : str,
    (detect_role title = py "cadre" <-> has_manager_keyword title) /\
    (detect_role title = py "employee" <-> ~ has_manager_keyword title) /\
    (forall file_path relative text,
        AnalyzeReports.title (make_report file_path relative text) = stem file_path /\
        role (make_report file_path relative text) = detect_role (stem file_path)).
Proof.
  intros title.
  assert (Hkey : existsb (fun key => str_in key title) MANAGER_HINTS = true
                 <-> has_manager_keyword title).
  { rewrite existsb_exists. unfold has_manager_keyword.
    split; intros [key [Hin Hsub]]; exists key; (split; [exact Hin|]);
      now apply str_in_substring. }
  unfold detect_role.
  destruct (existsb (fun key => str_in key title) MANAGER_HINTS) eqn:E.
  - repeat split; try reflexivity.
    + intros _. now apply Hkey.
    + intros H. vm_compute in H. discriminate.
    + intros H. exfalso. apply H. now apply Hkey.
  - repeat split; try reflexivity.
    + intros H. vm_compute in H. discriminate.
    + intros H. apply Hkey in H. discriminate.
    + intros _ H. apply Hkey in H. discriminate.
Qed.

(* ================================================================== *)
(** * The summary of one report *)
(* ================================================================== *)






(** C10. In both kinds of record of a report, the summary that
    [summarize_individual] returns and the placeholder of
    [make_failure_record], [source_path] is the string of the path of the
    report, whatever the model put under that key. *)
Theorem source_path_is_the_report_path :
  forall report : Report,
    (forall w model temperature max_tokens s data s',
        summarize_individual w model report temperature max_tokens s = (Ok data, s') ->
        exists d,
          data = JObj d /\
          dict_get (py "source_path") d = Some (JStr (path_str (path report)))) /\
    (forall error,
        exists d,
          make_failure_record report error = JObj d /\
          dict_get (py "source_path") d = Some (JStr (path_str (path report)))).
Proof.
  intros report. split.
  - intros w model temperature max_tokens s data s' H.
    destruct (summarize_individual_ok _ _ _ _ _ _ _ _ H)
      as (content & d0 & d & _ & _ & -> & Hsp & _).
    exists d. split; [reflexivity | exact Hsp].
  - intros error. eexists. split; [reflexivity|]. reflexivity.
Qed.

Lemma source_path_is_the_report_path_witness :
  exists d,
    JObj [ (py "source_path", JStr (py "reports/RnD/alice.txt"));
           (py "name", JStr (py "alice"));
           (py "department", JStr (py "RnD"));
           (py "role", JStr (py "employee"));
           (py "workload", JStr (py "未提及/估计")) ] = JObj d /\
    dict_get (py "source_path") d = Some (JStr (path_str (path Examples.alice))).
Proof.
  refine (proj1 (source_path_is_the_report_path Examples.alice)
            (Examples.world Examples.one_report_tree Examples.no_builders
               (Examples.always Examples.source_path_response) Examples.disk_fine)
            (model Examples.args) (temperature Examples.args) 4000%Z
            (initial Examples.environment) _
            (snd (summarize_individual
                    (Examples.world Examples.one_report_tree Examples.no_builders
                       (Examples.always Examples.source_path_response) Examples.disk_fine)
                    (model Examples.args) Examples.alice (temperature Examples.args) 4000%Z
                    (initial Examples.environment))) _).
  vm_compute. reflexivity.
Defined.

(* ================================================================== *)
(** * The run *)
(* ================================================================== *)

Section RunFacts.

Variable w : World.
Variable args : Args.

Lemma main_split (s : state) :
  main w args s = bind (collect_and_summarize w args) (fun _ => aggregate_phase w args) s.
Proof.
  unfold main, collect_and_summarize, bind, raise, lift.
  destruct (load_env_from_file w s) as [[[]|e] s0]; [|reflexivity].
  destruct (negb (input_exists w)); [reflexivity|].
  destruct (create_client _) as [[c|e] s1]; [|reflexivity].
  destruct (collect_reports _ _ _ _) as [[|r rs]|e]; reflexivity.
Qed.

(** The loading of the environment file touches neither the operations
    nor the batch. *)
Lemma load_env_line_frame (raw : str) (s : state) :
  log (snd (load_env_line raw s)) = log s /\
  people (snd (load_env_line raw s)) = people s.
Proof.
  unfold load_env_line, ret.
  destruct (parse_env_line raw) as [[key value]|]; [|split; reflexivity].
  destruct (environ s !! key); [split; reflexivity|].
  destruct (nonempty key); [|split; reflexivity].
  unfold setenv. destruct (has_nul key || has_nul value); split; reflexivity.
Qed.

Lemma load_env_lines_frame (lines : list str) (s : state) :
  log (snd (for_each lines load_env_line s)) = log s /\
  people (snd (for_each lines load_env_line s)) = people s.
Proof.
  revert s. induction lines as [|raw rest IH]; intros s; [split; reflexivity|].
  cbn [for_each]. unfold bind.
  destruct (load_env_line_frame raw s) as [Hl Hp].
  destruct (load_env_line raw s) as [[[]|e] s1]; cbn [snd] in Hl, Hp.
  - destruct (IH s1) as [Hl' Hp']. split; congruence.
  - cbn [snd]. split; assumption.
Qed.

Lemma load_env_from_file_frame (s : state) :
  log (snd (load_env_from_file w s)) = log s /\
  people (snd (load_env_from_file w s)) = people s.
Proof.
  unfold load_env_from_file, raise.
  destruct (env_file w) as [lines|msg]; [apply load_env_lines_frame|].
  split; reflexivity.
Qed.

(** Neither the reading of the environment nor the creation of the client
    performs an operation. *)
Lemma create_client_log (s : state) :
  log (snd (create_client s)) = log s.
Proof.
  unfold create_client, bind, getenv, raise, ret. cbv beta iota.
  destruct (environ s !! py "DEEPSEEK_API_KEY") as [k|]; [|reflexivity].
  destruct (nonempty k); reflexivity.
Qed.

(** The exception of a module that is not found has a message. *)
Lemma module_not_found_message (missing : str) :
  exists msg, module_not_found missing = Exception msg /\ msg <> [].
Proof.
  eexists. split; [reflexivity|].
  intros E. apply app_eq_nil in E as [E _]. vm_compute in E. discriminate.
Qed.

(** The messages of the exceptions of [aggregate_review] are not empty. *)
Lemma aggregate_review_error (model : str) (batch : list json) (temperature : pyfloat)
    (extra : option str) (max_tokens : Z) (s s' : state) (e : exn) :
  aggregate_review w model batch temperature extra max_tokens s = (Err e, s') ->
  exists msg, e = Exception msg /\ msg <> [].
Proof.
  unfold aggregate_review, bind, lift, try_except, create_completion, raise, ret.
  destruct (build_aggregate_prompt _ batch extra) as [prompt|e0] eqn:Hp.
  - destruct (load_prompt_builder w _ (py "build_system_prompt")) as [b|missing];
      cbn [load].
    2:{ intros H. injection H as <- _. apply module_not_found_message. }
    destruct (chat_completions_create w _ _) as [m | [c|]].
    + intros H. injection H as <- _. eexists. split; [reflexivity|].
      intros E. vm_compute in E. discriminate.
    + destruct (nonempty c); intros H; [discriminate|].
      injection H as <- _. eexists. split; [reflexivity|]. vm_compute. discriminate.
    + intros H. injection H as <- _. eexists. split; [reflexivity|].
      vm_compute. discriminate.
  - intros H. injection H as <- _.
    unfold build_aggregate_prompt in Hp.
    destruct (compact_people batch) as [c|e1] eqn:Hc.
    + destruct (load_prompt_builder w _ _) as [[b|]|missing]; try discriminate.
      * destruct (b _); discriminate.
      * injection Hp as <-. apply module_not_found_message.
    + injection Hp as <-. clear - Hc. revert e1 Hc.
      induction batch as [|v rest IH]; intros e1 Hc; [discriminate|].
      simpl in Hc.
      destruct v; try (injection Hc as <-; eexists; split; [reflexivity|];
                       vm_compute; discriminate).
      destruct (compact_people rest) as [r|e2]; [discriminate|].
      injection Hc as <-. now apply IH.
Qed.

End RunFacts.

(** C6. For every run in which the collection finds no report, [main]
    ends with an exit status that is not zero and has performed no
    operation at all: no request went to the model, neither of the
    individual nor of the aggregate phase. *)
Theorem main_without_reports_exits_before_any_request :
  forall (w : World) (args : Args) (env : gmap str str),
    collect_reports (read_text_file w) (read_docx_file w) (input args) (tree w) = Ok [] ->
    exit_status (fst (main w args (initial env))) <> 0%Z /\
    log (snd (main w args (initial env))) = [] /\
    (forall req, ~ In (EApi req) (log (snd (main w args (initial env))))).
Proof.
  intros w args env Hc.
  assert (H : exit_status (fst (main w args (initial env))) <> 0%Z /\
              log (snd (main w args (initial env))) = []).
  { unfold main, bind, raise, lift.
    destruct (load_env_from_file_frame w (initial env)) as [Henv _].
    change (log (initial env)) with (@nil event) in Henv.
    destruct (load_env_from_file w (initial env)) as [[[]|[m|m]] s0];
      cbn [snd] in Henv; cbn [fst snd];
      try (split; [discriminate | exact Henv]).
    destruct (negb (input_exists w)); [split; [discriminate | exact Henv]|].
    pose proof (create_client_log s0) as Hlog.
    destruct (create_client s0) as [[c|[m|m]] s1]; cbn [snd] in Hlog; cbn [fst snd].
    - rewrite Hc. cbn [exit_status fst snd]. split; [discriminate | congruence].
    - split; [discriminate | congruence].
    - split; [discriminate | congruence]. }
  destruct H as [H1 H2]. repeat split; try assumption.
  rewrite H2. intros req [].
Qed.

Lemma main_without_reports_exits_before_any_request_witness :
  exit_status
    (fst (main (Examples.world [] Examples.no_builders
                  (Examples.always Examples.name_x_response) Examples.disk_fine)
            Examples.args (initial Examples.environment))) <> 0%Z /\
  log (snd (main (Examples.world [] Examples.no_builders
                    (Examples.always Examples.name_x_response) Examples.disk_fine)
              Examples.args (initial Examples.environment))) = [].
Proof.
  pose proof (main_without_reports_exits_before_any_request
                (Examples.world [] Examples.no_builders
                   (Examples.always Examples.name_x_response) Examples.disk_fine)
                Examples.args Examples.environment eq_refl) as [H1 [H2 _]].
  split; assumption.
Defined.

Section AggregateFailure.

Variable w : World.
Variable args : Args.

Lemma aggregate_phase_failure (s s' : state) (msg : str) :
  aggregate_review w (aggregate_model args) (people s) (temperature args)
    (plan_prompt args) (max_tokens_aggregate args) s = (Err (Exception msg), s') ->
  exit_status (fst (aggregate_phase w args s)) <> 0%Z /\
  log (snd (aggregate_phase w args s))
  = log s' ++ [EWrite (report_path args) (header w args ++ (py "生成失败：" ++ msg) ++ nl)].
Proof.
  intros H.
  destruct (aggregate_review_error w _ _ _ _ _ _ _ _ H) as [m [Hm Hne]].
  injection Hm as <-. apply nonempty_true in Hne.
  unfold aggregate_phase, bind, get_people, try_except, ret.
  cbv beta iota. rewrite H. cbv beta iota.
  unfold write_text, add_event, raise.
  destruct (write_error w (count_writes (log s'))) as [oserror|]; cbv beta iota.
  - cbn [exit_status fst snd log]. split; [discriminate | reflexivity].
  - rewrite Hne. cbn [exit_status fst snd log]. split; [discriminate | reflexivity].
Qed.

End AggregateFailure.

(** C7. For every run of [main] that reaches the aggregate phase and in
    which [aggregate_review] fails: the exit status is not zero, and the
    last operation of the run is the writing of [organization_review.md]
    with the header (time of generation, the two model identifiers, the
    temperature) followed by the failure message, the text of the
    exception after ["生成失败："], in the place of the report. *)
Theorem main_writes_report_when_aggregate_fails :
  forall (w : World) (args : Args) (s0 s s' : state) (msg : str),
    collect_and_summarize w args s0 = (Ok tt, s) ->
    aggregate_review w (aggregate_model args) (people s) (temperature args)
      (plan_prompt args) (max_tokens_aggregate args) s = (Err (Exception msg), s') ->
    exit_status (fst (main w args s0)) <> 0%Z /\
    log (snd (main w args s0))
    = log s' ++
      [EWrite (out_dir args ++ [py "organization_review.md"])
         ((py "# 年终总结评审" ++ nl ++ nl
           ++ py "生成时间：" ++ now w ++ nl
           ++ py "使用模型：个人提炼=" ++ model args ++ py "；汇总=" ++ aggregate_model args ++ nl
           ++ py "采样温度：" ++ float_repr (temperature args) ++ nl ++ nl)
          ++ (py "生成失败：" ++ msg) ++ nl)].
Proof.
  intros w args s0 s s' msg Hpre Hagg.
  rewrite main_split. unfold bind. rewrite Hpre.
  exact (aggregate_phase_failure w args s s' msg Hagg).
Qed.

Lemma main_writes_report_when_aggregate_fails_witness :
  exit_status
    (fst (main Examples.failing_aggregate_world Examples.args
            (initial Examples.environment))) <> 0%Z /\
  log (snd (main Examples.failing_aggregate_world Examples.args
              (initial Examples.environment)))
  = log Examples.after_aggregate ++
    [EWrite (out_dir Examples.args ++ [py "organization_review.md"])
       ((py "# 年终总结评审" ++ nl ++ nl
         ++ py "生成时间：" ++ now Examples.failing_aggregate_world ++ nl
         ++ py "使用模型：个人提炼=" ++ model Examples.args
         ++ py "；汇总=" ++ aggregate_model Examples.args ++ nl
         ++ py "采样温度：" ++ float_repr (temperature Examples.args) ++ nl ++ nl)
        ++ (py "生成失败：" ++ py "调用模型失败: Connection error.") ++ nl)].
Proof.
  apply (main_writes_report_when_aggregate_fails
           Examples.failing_aggregate_world Examples.args
           (initial Examples.environment) Examples.after_summaries
           Examples.after_aggregate (py "调用模型失败: Connection error.")).
  - vm_compute. reflexivity.
  - vm_compute. reflexivity.
Defined.

(** C1, at the failing input: one report is collected, the model answers
    [{"name":"X"}], the first write of the per-report file fails and the
    later writes succeed.  The summary is appended before the write, the
    handler of the failed write appends the placeholder as well, and the
    run goes on: the batch written to [individual_summaries.json], and
    given to the aggregate prompt, has two entries for the one report. *)
Theorem main_appends_twice_after_failed_write :
  collect_reports (read_text_file Examples.failed_write_world)
    (read_docx_file Examples.failed_write_world) (input Examples.args)
    (tree Examples.failed_write_world) = Ok [Examples.alice] /\
  fst (main Examples.failed_write_world Examples.args (initial Examples.environment))
  = Ok tt /\
  people (snd (main Examples.failed_write_world Examples.args
                 (initial Examples.environment)))
  = [Examples.alice_summary; Examples.alice_placeholder] /\
  firstn 4 (log (snd (main Examples.failed_write_world Examples.args
                        (initial Examples.environment))))
  = [ EApi (individual_request Examples.failed_write_world (model Examples.args)
              Examples.alice (temperature Examples.args) 4000%Z);
      EWrite Examples.alice_json (dumps Examples.alice_summary);
      EWrite Examples.alice_json (dumps Examples.alice_placeholder);
      EWrite (people_path Examples.args)
        (dumps (JArr [Examples.alice_summary; Examples.alice_placeholder])) ] /\
  exists prompt,
    build_aggregate_prompt (Loaded None)
      [Examples.alice_summary; Examples.alice_placeholder]
      (plan_prompt Examples.args) = Ok prompt /\
    nth_error (log (snd (main Examples.failed_write_world Examples.args
                           (initial Examples.environment)))) 4
    = Some (EApi (aggregate_request Examples.failed_write_world
                    (aggregate_model Examples.args) prompt
                    (temperature Examples.args) 32000%Z)).
Proof.
  split; [vm_compute; reflexivity|].
  split; [vm_compute; reflexivity|].
  split; [vm_compute; reflexivity|].
  split; [vm_compute; reflexivity|].
  eexists. split; vm_compute; reflexivity.
Qed.

(* ================================================================== *)
(** * The web runner and the API key *)
(* ================================================================== *)

Section EnvironFacts.

Lemma restore_lookup (env env' : gmap str str) :
  restore (env !! KEY) env' !! KEY = env !! KEY.
Proof.
  unfold restore. destruct (env !! KEY) as [v|] eqn:E.
  - apply lookup_insert_eq.
  - apply lookup_delete_eq.
Qed.

End EnvironFacts.

(** C9. For every run of [run_analysis], whatever [analyze_reports.main]
    does to [os.environ] and however it ends (a return, a [SystemExit], an
    exception, also one that leaves [run_analysis]), with or without an
    [api_key] in the payload: [DEEPSEEK_API_KEY] has afterwards the value
    it had before the call, and is unset when it was unset before. *)
Theorem run_analysis_restores_api_key :
  forall (analyze_main : list str -> gmap str str -> main_end * gmap str str * list str)
         (input_has_entries : Pathlib.path -> bool) (run_name : str)
         (RUN_ROOT : Pathlib.path) (payload : Payload) (progress_cb : bool)
         (env : gmap str str),
    snd (run_analysis analyze_main input_has_entries run_name RUN_ROOT
           payload progress_cb env) !! py "DEEPSEEK_API_KEY"
    = env !! py "DEEPSEEK_API_KEY".
Proof.
  intros analyze_main input_has_entries run_name RUN_ROOT payload progress_cb env.
  change (py "DEEPSEEK_API_KEY") with KEY.
  unfold run_analysis.
  destruct (negb (input_has_entries (input_dir payload))); [reflexivity|].
  cbv zeta.
  destruct (analyze_main _ _) as [[ending env2] printed].
  destruct ending as [| code | msg |]; cbn [snd]; apply restore_lookup.
Qed.

(* ================================================================== *)
(** * The aggregate prompt *)
(* ================================================================== *)

Section AggregatePromptFacts.






End AggregatePromptFacts.




(* ================================================================== *)
(** * The order of paths and the sort *)
(* ================================================================== *)

Section Lexicographic.

Context {A : Type}.
Variables (ltb eqb : A -> A -> bool) (lt : A -> A -> Prop).
Hypothesis ltb_lt : forall x y, ltb x y = true <-> lt x y.
Hypothesis eqb_eq : forall x y, eqb x y = true <-> x = y.
Hypothesis lt_irrefl : forall x, ~ lt x x.
Hypothesis lt_trans : forall x y z, lt x y -> lt y z -> lt x z.
Hypothesis lt_total : forall x y, lt x y \/ x = y \/ lt y x.

Lemma seq_ltb_lexicographic (a b : list A) :
  seq_ltb ltb eqb a b = true <-> lexicographic lt a b.
Proof.
  revert b. induction a as [|x a IH]; intros [|y b]; cbn [seq_ltb].
  - split; [discriminate | intros H; inversion H].
  - split; [intros _; constructor | reflexivity].
  - split; [discriminate | intros H; inversion H].
  - rewrite orb_true_iff, andb_true_iff, ltb_lt, eqb_eq, IH. split.
    + intros [H | [-> H]]; [now apply lex_first | now apply lex_rest].
    + intros H. inversion H; subst; [left | right]; auto.
Qed.

Lemma lexicographic_irrefl (a : list A) : ~ lexicographic lt a a.
Proof.
  induction a as [|x a IH]; intros H; inversion H; subst.
  - now apply (lt_irrefl x).
  - now apply IH.
Qed.

Lemma lexicographic_trans (a b c : list A) :
  lexicographic lt a b -> lexicographic lt b c -> lexicographic lt a c.
Proof.
  intros Hab. revert c. induction Hab as [y b | x y a b Hxy | x a b Hab IH];
    intros c Hbc; inversion Hbc; subst.
  - constructor.
  - constructor.
  - apply lex_first. now apply (lt_trans x y).
  - now apply lex_first.
  - now apply lex_first.
  - apply lex_rest. now apply IH.
Qed.

Lemma lexicographic_total (a b : list A) :
  lexicographic lt a b \/ a = b \/ lexicographic lt b a.
Proof.
  revert b. induction a as [|x a IH]; intros [|y b].
  - right. now left.
  - left. constructor.
  - right. right. constructor.
  - destruct (lt_total x y) as [H | [-> | H]].
    + left. now apply lex_first.
    + destruct (IH b) as [H | [-> | H]].
      * left. now apply lex_rest.
      * right. now left.
      * right. right. now apply lex_rest.
    + right. right. now apply lex_first.
Qed.

End Lexicographic.

Section PathOrder.

Lemma str_ltb_lt (a b : str) : str_ltb a b = true <-> str_lt a b.
Proof. apply seq_ltb_lexicographic; [apply N.ltb_lt | apply N.eqb_eq]. Qed.

Lemma str_lt_irrefl (a : str) : ~ str_lt a a.
Proof. apply lexicographic_irrefl. apply N.lt_irrefl. Qed.

Lemma str_lt_trans (a b c : str) : str_lt a b -> str_lt b c -> str_lt a c.
Proof. apply lexicographic_trans. apply N.lt_trans. Qed.

Lemma str_lt_total (a b : str) : str_lt a b \/ a = b \/ str_lt b a.
Proof. apply lexicographic_total. apply N.lt_total. Qed.

Lemma path_ltb_lt (a b : Pathlib.path) : path_ltb a b = true <-> parts_lt a b.
Proof. apply seq_ltb_lexicographic; [apply str_ltb_lt | apply str_eqb_eq]. Qed.

Lemma parts_lt_irrefl (a : Pathlib.path) : ~ parts_lt a a.
Proof. apply lexicographic_irrefl. apply str_lt_irrefl. Qed.

Lemma parts_lt_trans (a b c : Pathlib.path) :
  parts_lt a b -> parts_lt b c -> parts_lt a c.
Proof. apply lexicographic_trans. apply str_lt_trans. Qed.

Lemma parts_lt_total (a b : Pathlib.path) : parts_lt a b \/ a = b \/ parts_lt b a.
Proof. apply lexicographic_total. apply str_lt_total. Qed.

(** The sort keeps the elements. *)
Lemma insert_sorted_In (p q : Pathlib.path) (l : list Pathlib.path) :
  In q (insert_sorted p l) <-> q = p \/ In q l.
Proof.
  induction l as [|x l IH]; cbn [insert_sorted].
  - cbn. intuition.
  - destruct (path_ltb x p); cbn [In]; [rewrite IH|]; intuition.
Qed.

Lemma sorted_In (q : Pathlib.path) (l : list Pathlib.path) :
  In q (sorted l) <-> In q l.
Proof.
  induction l as [|x l IH]; [reflexivity|].
  cbn [sorted fold_right]. fold (sorted l).
  rewrite insert_sorted_In, IH. cbn. intuition.
Qed.

Lemma insert_sorted_strongly (p : Pathlib.path) (l : list Pathlib.path) :
  StronglySorted parts_lt l -> ~ In p l ->
  StronglySorted parts_lt (insert_sorted p l).
Proof.
  induction l as [|x l IH]; intros Hs Hnot; cbn [insert_sorted].
  - constructor; constructor.
  - apply StronglySorted_inv in Hs as [Hs Hx].
    destruct (path_ltb x p) eqn:E.
    + apply path_ltb_lt in E. constructor.
      * apply IH; [exact Hs | intros H; apply Hnot; now right].
      * apply List.Forall_forall. intros q Hq.
        apply insert_sorted_In in Hq as [-> | Hq]; [exact E|].
        now apply (proj1 (List.Forall_forall _ _) Hx).
    + assert (Hpx : parts_lt p x).
      { destruct (parts_lt_total p x) as [H | [-> | H]]; [exact H | |].
        - exfalso. apply Hnot. now left.
        - apply path_ltb_lt in H. congruence. }
      constructor; [constructor; assumption|].
      constructor; [exact Hpx|].
      apply List.Forall_forall. intros q Hq.
      apply (parts_lt_trans p x q Hpx).
      now apply (proj1 (List.Forall_forall _ _) Hx).
Qed.

Lemma sorted_strongly (l : list Pathlib.path) :
  List.NoDup l -> StronglySorted parts_lt (sorted l).
Proof.
  induction l as [|x l IH]; intros Hnd.
  - constructor.
  - cbn [sorted fold_right]. fold (sorted l).
    apply List.NoDup_cons_iff in Hnd as [Hx Hnd].
    apply insert_sorted_strongly; [now apply IH|].
    intros H. apply Hx. now apply sorted_In.
Qed.

Lemma filter_strongly {X : Type} (R : X -> X -> Prop) (f : X -> bool) (l : list X) :
  StronglySorted R l -> StronglySorted R (List.filter f l).
Proof.
  induction l as [|x l IH]; intros Hs; [constructor|].
  apply StronglySorted_inv in Hs as [Hs Hx]. cbn [List.filter].
  destruct (f x); [|now apply IH].
  constructor; [now apply IH|].
  apply List.Forall_forall. intros y Hy. apply List.filter_In in Hy as [Hy _].
  now apply (proj1 (List.Forall_forall _ _) Hx).
Qed.

End PathOrder.

(* ================================================================== *)
(** * The directory tree *)
(* ================================================================== *)

Section TreeFacts.

Lemma node_forall_ind (P : node -> Prop) :
  (forall nm, P (File nm)) ->
  (forall nm, P (Special nm)) ->
  (forall nm ch, Forall P ch -> P (Dir nm ch)) ->
  forall n, P n.
Proof.
  intros HF HS HD. fix IH 1. intros [nm | nm ch | nm].
  - apply HF.
  - apply HD. induction ch as [|c ch IHch]; constructor; [apply IH | exact IHch].
  - apply HS.
Qed.

Lemma map_injective_NoDup {X Y : Type} (f : X -> Y) (l : list X) :
  (forall x y, f x = f y -> x = y) -> List.NoDup l -> List.NoDup (map f l).
Proof.
  intros Hinj Hnd. induction Hnd as [|x l Hx Hnd IH]; cbn [map]; constructor.
  - intros H. apply in_map_iff in H as [y [E Hy]]. apply Hinj in E. now subst.
  - exact IH.
Qed.

(** An entry below a node is the node itself or an entry below one of
    its children. *)
Lemma entries_inv (n : node) (p : Pathlib.path) (k : kind) :
  In (p, k) (entries n) ->
  exists rest,
    p = node_name n :: rest /\
    ((rest = [] /\ k = kind_of n) \/
     (rest <> [] /\ exists nm ch, n = Dir nm ch /\ In (rest, k) (tree_entries ch))).
Proof.
  destruct n as [nm | nm ch | nm]; cbn [entries node_name kind_of In].
  - intros [H | []]. injection H as <- <-. exists []. split; [reflexivity | now left].
  - intros [H | H].
    + injection H as <- <-. exists []. split; [reflexivity | now left].
    + apply in_map_iff in H as [[q k'] [E Hq]]. cbn [fst snd] in E.
      injection E as <- <-. exists q. split; [reflexivity|]. right. split.
      * unfold tree_entries in Hq. apply in_flat_map in Hq as [c [_ Hc]].
        destruct c; cbn [entries In] in Hc.
        -- destruct Hc as [Hc | []]. injection Hc as <- _. discriminate.
        -- destruct Hc as [Hc | Hc]; [injection Hc as <- _; discriminate|].
           apply in_map_iff in Hc as [e [E _]]. injection E as <- _. discriminate.
        -- destruct Hc as [Hc | []]. injection Hc as <- _. discriminate.
      * exists nm, ch. split; [reflexivity | exact Hq].
  - intros [H | []]. injection H as <- <-. exists []. split; [reflexivity | now left].
Qed.

Lemma tree_entries_inv (tree : list node) (p : Pathlib.path) (k : kind) :
  In (p, k) (tree_entries tree) ->
  exists c rest, In c tree /\ In (p, k) (entries c) /\ p = node_name c :: rest.
Proof.
  unfold tree_entries. intros H. apply in_flat_map in H as [c [Hc Hp]].
  destruct (entries_inv c p k Hp) as [rest [E _]]. now exists c, rest.
Qed.

Lemma find_by_name (tree : list node) (n : node) :
  List.NoDup (map node_name tree) -> In n tree ->
  List.find (fun m => str_eqb (node_name m) (node_name n)) tree = Some n.
Proof.
  induction tree as [|a tree IH]; intros Hnd Hin; [destruct Hin|].
  cbn [map] in Hnd. apply List.NoDup_cons_iff in Hnd as [Ha Hnd].
  cbn [List.find]. destruct (str_eqb (node_name a) (node_name n)) eqn:E.
  - destruct Hin as [-> | Hin]; [reflexivity|].
    exfalso. apply Ha. apply str_eqb_eq in E. rewrite E. now apply in_map.
  - destruct Hin as [-> | Hin]; [now rewrite str_eqb_refl in E|]. now apply IH.
Qed.

Lemma lookup_agrees_step (tree : list node) :
  Forall children_lookup_agree tree -> lookup_agrees tree.
Proof.
  intros HP Hnd Hwf rel k Hin.
  destruct (tree_entries_inv tree rel k Hin) as (c & rest0 & Hc & Hrel & _).
  destruct (entries_inv c rel k Hrel) as [rest [-> Hcases]].
  cbn [lookup_node]. rewrite (find_by_name tree c Hnd Hc).
  destruct Hcases as [[-> ->] | [Hne (nm & ch & -> & Hrest)]].
  - now exists c.
  - destruct rest as [|r rest]; [contradiction|].
    pose proof (proj1 (List.Forall_forall _ _) HP _ Hc) as Hch.
    pose proof (proj1 (List.Forall_forall _ _) Hwf _ Hc) as Hwfc.
    inversion Hwfc; subst. now apply Hch.
Qed.

Lemma children_lookup_agree_all (n : node) : children_lookup_agree n.
Proof.
  induction n as [nm | nm | nm ch IH] using node_forall_ind; cbn; try exact I.
  now apply lookup_agrees_step.
Qed.

Lemma lookup_entries (tree : list node) (rel : Pathlib.path) (k : kind) :
  wf_tree tree -> In (rel, k) (tree_entries tree) ->
  exists n, lookup_node tree rel = Some n /\ kind_of n = k.
Proof.
  intros [Hnd Hwf]. apply lookup_agrees_step; try assumption.
  apply List.Forall_forall. intros n _. apply children_lookup_agree_all.
Qed.

Lemma entries_paths_distinct (c : node) :
  children_paths_distinct c -> wf_node c -> List.NoDup (map fst (entries c)).
Proof.
  intros Hch Hwf. destruct c as [nm | nm ch | nm]; cbn [entries map fst].
  - constructor; [intros [] | constructor].
  - inversion Hwf; subst. rewrite map_map. cbn [fst].
    rewrite <- (map_map fst (cons nm)). constructor.
    + intros H. apply in_map_iff in H as [q [E Hq]].
      apply in_map_iff in Hq as [[q' k] [<- Hq]]. cbn [fst] in E.
      destruct (tree_entries_inv ch q' k Hq) as (c & rest & _ & _ & ->). discriminate.
    + apply map_injective_NoDup; [intros x y E; now injection E|].
      now apply Hch.
  - constructor; [intros [] | constructor].
Qed.

Lemma paths_distinct_step (tree : list node) :
  Forall children_paths_distinct tree -> paths_distinct tree.
Proof.
  intros HP Hnd Hwf. induction tree as [|c tree IH]; [constructor|].
  cbn [map] in Hnd. apply List.NoDup_cons_iff in Hnd as [Hc Hnd].
  apply List.Forall_cons_iff in Hwf as [Hwfc Hwf].
  apply List.Forall_cons_iff in HP as [HPc HP].
  unfold tree_entries. cbn [flat_map]. rewrite map_app.
  apply List.NoDup_app.
  - now apply entries_paths_distinct.
  - now apply IH.
  - intros p H1 H2.
    apply in_map_iff in H1 as [[p1 k1] [<- H1]].
    apply in_map_iff in H2 as [[p2 k2] [E H2]]. cbn [fst] in E. subst p2.
    destruct (entries_inv c p1 k1 H1) as [rest1 [-> _]].
    destruct (tree_entries_inv tree _ k2 H2) as (c' & rest2 & Hc' & _ & E).
    injection E as E _. apply Hc. rewrite E. now apply in_map.
Qed.

Lemma children_paths_distinct_all (n : node) : children_paths_distinct n.
Proof.
  induction n as [nm | nm | nm ch IH] using node_forall_ind; cbn; try exact I.
  now apply paths_distinct_step.
Qed.

Lemma tree_entries_NoDup (tree : list node) :
  wf_tree tree -> List.NoDup (map fst (tree_entries tree)).
Proof.
  intros [Hnd Hwf]. apply paths_distinct_step; try assumption.
  apply List.Forall_forall. intros n _. apply children_paths_distinct_all.
Qed.

Lemma relative_to_app (root rel : Pathlib.path) :
  relative_to (root ++ rel) root = Some rel.
Proof.
  induction root as [|a root IH]; cbn [app relative_to].
  - destruct rel; reflexivity.
  - now rewrite str_eqb_refl.
Qed.

Lemma rglob_NoDup (root : Pathlib.path) (tree : list node) :
  wf_tree tree -> List.NoDup (rglob root tree).
Proof.
  intros Hwf. unfold rglob.
  rewrite <- (map_map fst (fun rel => root ++ rel)).
  apply map_injective_NoDup; [intros x y E; now apply app_inv_head in E|].
  now apply tree_entries_NoDup.
Qed.

Lemma rglob_In (root : Pathlib.path) (tree : list node) (p : Pathlib.path) :
  In p (rglob root tree) <-> exists rel k, p = root ++ rel /\ In (rel, k) (tree_entries tree).
Proof.
  unfold rglob. rewrite in_map_iff. split.
  - intros [[rel k] [<- H]]. now exists rel, k.
  - intros (rel & k & -> & H). now exists (rel, k).
Qed.

Lemma is_file_entry (root : Pathlib.path) (tree : list node)
    (rel : Pathlib.path) (k : kind) :
  wf_tree tree -> In (rel, k) (tree_entries tree) ->
  (is_file root tree (root ++ rel) = true <-> k = KFile).
Proof.
  intros Hwf Hin. unfold is_file. rewrite relative_to_app.
  destruct (lookup_entries tree rel k Hwf Hin) as [n [-> <-]].
  destruct n; cbn [kind_of]; split; intros H; try reflexivity; discriminate.
Qed.

End TreeFacts.

(* ================================================================== *)
(** * The collection of the reports *)
(* ================================================================== *)

Section CollectFacts.

Variable read_text : Pathlib.path -> result exn str.
Variable read_docx : Pathlib.path -> result docx_error str.
Variable root : Pathlib.path.
Variable tree : list node.

Lemma collect_from_paths (files : list Pathlib.path) (reports : list Report) :
  collect_from read_text read_docx root tree files = Ok reports ->
  map path reports = List.filter (selected root tree) files.
Proof.
  revert reports. induction files as [|p files IH]; intros reports; cbn [collect_from].
  - intros H. injection H as <-. reflexivity.
  - cbn [List.filter]. unfold selected at 1.
    destruct (is_file root tree p); cbn [negb orb andb].
    + destruct (mem (lower (Pathlib.suffix p)) ALLOWED_SUFFIXES); cbn [negb].
      * destruct (relative_to p root) as [rel|]; [|discriminate].
        destruct (load_content read_text read_docx p) as [text|e]; [|discriminate].
        destruct (collect_from read_text read_docx root tree files) as [rs|e];
          [|discriminate].
        intros H. injection H as <-. cbn [map path]. f_equal. now apply IH.
      * apply IH.
    + apply IH.
Qed.

Lemma collect_from_returns (files : list Pathlib.path) :
  (forall p, In p files -> selected root tree p = true ->
             exists text, load_content read_text read_docx p = Ok text) ->
  exists reports, collect_from read_text read_docx root tree files = Ok reports.
Proof.
  induction files as [|p files IH]; intros Hload; cbn [collect_from].
  - now eexists.
  - destruct IH as [rs Hrs]; [intros q Hq; apply Hload; now right|].
    pose proof (Hload p (or_introl eq_refl)) as Hp. unfold selected in Hp.
    unfold is_file in *.
    destruct (relative_to p root) as [rel|]; cbn [negb orb andb] in *.
    + destruct (match lookup_node tree rel with Some (File _) => true | _ => false end);
        cbn [negb orb andb] in *; [|now exists rs].
      destruct (mem (lower (Pathlib.suffix p)) ALLOWED_SUFFIXES);
        cbn [negb] in *; [|now exists rs].
      destruct (Hp eq_refl) as [text ->]. rewrite Hrs. now eexists.
    + now exists rs.
Qed.

Lemma strongly_sorted_NoDup (l : list Pathlib.path) :
  StronglySorted parts_lt l -> List.NoDup l.
Proof.
  induction 1 as [|x l Hs IH Hx]; constructor; [|exact IH].
  intros Hin. apply (parts_lt_irrefl x).
  now apply (proj1 (List.Forall_forall _ _) Hx).
Qed.

Lemma selected_allowed (p : Pathlib.path) :
  wf_tree tree ->
  (In p (rglob root tree) /\ selected root tree p = true
   <-> allowed_regular_file root tree p).
Proof.
  intros Hwf. unfold allowed_regular_file, selected. split.
  - intros [Hin Hsel]. apply rglob_In in Hin as (rel & k & -> & Hin).
    apply andb_true_iff in Hsel as [Hfile Hsuf].
    apply (is_file_entry root tree rel k Hwf Hin) in Hfile. subst k.
    exists rel. repeat split; try assumption. now apply mem_In.
  - intros (rel & -> & Hin & Hsuf). split.
    + apply rglob_In. now exists rel, KFile.
    + apply andb_true_iff. split.
      * now apply (is_file_entry root tree rel KFile Hwf Hin).
      * now apply mem_In.
Qed.

End CollectFacts.

(** C2 (amended). For every root directory with a well-formed tree below
    it: the paths of the reports that [collect_reports] returns are
    exactly the regular files below the root whose suffix, in lower case,
    is [.txt], [.md] or [.docx], each of them once, in the order of
    [pathlib]: lexicographic on the sequence of the parts of the path,
    each part compared as a string (which is not the order of the full
    paths as strings).  It returns whenever each of these files can be
    loaded. *)
Theorem collect_reports_sorted_by_parts :
  forall (read_text : Pathlib.path -> result exn str)
         (read_docx : Pathlib.path -> result docx_error str)
         (root : Pathlib.path) (tree : list node),
    wf_tree tree ->
    (forall reports,
        collect_reports read_text read_docx root tree = Ok reports ->
        (forall p, In p (map path reports) <-> allowed_regular_file root tree p) /\
        List.NoDup (map path reports) /\
        StronglySorted parts_lt (map path reports)) /\
    ((forall p, allowed_regular_file root tree p ->
                exists text, load_content read_text read_docx p = Ok text) ->
     exists reports, collect_reports read_text read_docx root tree = Ok reports).
Proof.
  intros read_text read_docx root tree Hwf. split.
  - intros reports H. unfold collect_reports in H.
    apply collect_from_paths in H. rewrite H.
    assert (Hs : StronglySorted parts_lt
                   (List.filter (selected root tree) (sorted (rglob root tree)))).
    { apply filter_strongly. apply sorted_strongly. now apply rglob_NoDup. }
    split; [|split; [now apply strongly_sorted_NoDup | exact Hs]].
    intros p. rewrite List.filter_In, sorted_In. now apply selected_allowed.
  - intros Hload. apply collect_from_returns. intros p Hin Hsel.
    apply Hload. apply selected_allowed; [exact Hwf|].
    split; [now apply sorted_In | exact Hsel].
Qed.

(** The conditions of a concrete tree: names are compared by
    computation. *)
Ltac names_differ :=
  repeat match goal with
         | |- _ <> _ => let H := fresh in intros H; vm_compute in H; discriminate H
         | |- ~ In _ _ => let H := fresh in intros H; cbn [In map node_name] in H
         | H : _ \/ _ |- _ => destruct H as [H | H]
         | H : False |- _ => destruct H
         | H : _ = _ |- _ => vm_compute in H; discriminate H
         end.

Ltac concrete_tree :=
  repeat first
    [ apply List.NoDup_nil
    | apply List.NoDup_cons
    | apply List.Forall_nil
    | apply List.Forall_cons
    | apply wf_file
    | apply wf_special
    | apply wf_dir
    | progress names_differ ].

Lemma collect_reports_sorted_by_parts_witness :
  wf_tree Examples.two_report_tree /\
  StronglySorted parts_lt
    [ [py "reports"; py "RnD"; py "alice.txt"];
      [py "reports"; py "RnD"; py "经理bob.md"] ].
Proof.
  assert (Hwf : wf_tree Examples.two_report_tree).
  { split; cbn [Examples.two_report_tree map node_name]; concrete_tree. }
  split; [exact Hwf|].
  refine (proj2 (proj2 (proj1
            (collect_reports_sorted_by_parts
               (fun _ => Ok (py "report text")) (fun _ => Err BadZipFile)
               [py "reports"] Examples.two_report_tree Hwf)
            [ {| path := [py "reports"; py "RnD"; py "alice.txt"];
                 department := py "RnD"; title := py "alice";
                 role := py "employee"; content := py "report text" |};
              {| path := [py "reports"; py "RnD"; py "经理bob.md"];
                 department := py "RnD"; title := py "经理bob";
                 role := py "cadre"; content := py "report text" |} ] _))).
  vm_compute. reflexivity.
Defined.

(** C2, as stated, fails: below [reports], the files [a/x.txt] and
    [a-b/y.txt] are collected in this order, the order of their parts,
    while as a string the full path of the second is the smaller one. *)
Lemma collect_reports_not_in_full_path_order :
  exists reports,
    collect_reports (fun _ => Ok (py "report text")) (fun _ => Err BadZipFile)
      [py "reports"] Examples.dash_tree = Ok reports /\
    map path reports
    = [ [py "reports"; py "a"; py "x.txt"]; [py "reports"; py "a-b"; py "y.txt"] ] /\
    path_str [py "reports"; py "a"; py "x.txt"] = py "reports/a/x.txt" /\
    path_str [py "reports"; py "a-b"; py "y.txt"] = py "reports/a-b/y.txt" /\
    full_path_lt [py "reports"; py "a-b"; py "y.txt"] [py "reports"; py "a"; py "x.txt"] /\
    parts_lt [py "reports"; py "a"; py "x.txt"] [py "reports"; py "a-b"; py "y.txt"].
Proof.
  eexists. split; [vm_compute; reflexivity|].
  split; [vm_compute; reflexivity|].
  split; [vm_compute; reflexivity|].
  split; [vm_compute; reflexivity|].
  split.
  - apply str_ltb_lt. vm_compute. reflexivity.
  - apply path_ltb_lt. vm_compute. reflexivity.
Qed.

(* ================================================================== *)
(** * What the collector guarantees of a report *)
(* ================================================================== *)

Section CollectedFacts.

Lemma stem_nonempty (p : Pathlib.path) :
  mem (lower (Pathlib.suffix p)) ALLOWED_SUFFIXES = true -> stem p <> [].
Proof.
  unfold Pathlib.suffix, stem, suffix_index.
  destruct (rfind 46 (name p)) as [i|]; [|intros H; vm_compute in H; discriminate].
  destruct ((0 <? i)%nat && (i <? length (name p) - 1)%nat) eqn:E;
    [|intros H; vm_compute in H; discriminate].
  intros _. apply andb_true_iff in E as [Hi Hlen].
  apply Nat.ltb_lt in Hi. apply Nat.ltb_lt in Hlen.
  destruct i as [|i]; [lia|].
  destruct (name p) as [|c t]; [cbn in Hlen; lia | discriminate].
Qed.

Lemma detect_role_values (title : str) :
  detect_role title = py "cadre" \/ detect_role title = py "employee".
Proof.
  unfold detect_role.
  destruct (existsb (fun key => str_in key title) MANAGER_HINTS); [left | right]; reflexivity.
Qed.

Lemma wf_node_name (n : node) : wf_node n -> node_name n <> [].
Proof. intros H. inversion H; subst; assumption. Qed.

Variable read_text : Pathlib.path -> result exn str.
Variable read_docx : Pathlib.path -> result docx_error str.
Variable root : Pathlib.path.
Variable tree : list node.
Hypothesis tree_wf : wf_tree tree.

Lemma make_report_collected (p rel : Pathlib.path) (text : str) :
  In p (rglob root tree) ->
  relative_to p root = Some rel ->
  mem (lower (Pathlib.suffix p)) ALLOWED_SUFFIXES = true ->
  collected (make_report p rel text).
Proof.
  intros Hin Hrel Hsuf. unfold collected. cbn [make_report title department role].
  split; [now apply stem_nonempty|]. split; [|apply detect_role_values].
  apply rglob_In in Hin as (rel0 & k & -> & Hin).
  rewrite relative_to_app in Hrel. injection Hrel as <-.
  destruct (tree_entries_inv tree rel0 k Hin) as (c & rest & Hc & _ & ->).
  destruct rest as [|r rest]; [vm_compute; discriminate|].
  apply wf_node_name. destruct tree_wf as [_ Hwf].
  now apply (proj1 (List.Forall_forall _ _) Hwf).
Qed.

Lemma collect_from_collected (files : list Pathlib.path) (reports : list Report) :
  (forall p, In p files -> In p (rglob root tree)) ->
  collect_from read_text read_docx root tree files = Ok reports ->
  Forall collected reports.
Proof.
  revert reports. induction files as [|p files IH]; intros reports Hfiles;
    cbn [collect_from].
  - intros H. injection H as <-. constructor.
  - assert (Hrest : forall q, In q files -> In q (rglob root tree))
      by (intros q Hq; apply Hfiles; now right).
    destruct (is_file root tree p); cbn [negb orb]; [|now apply IH].
    destruct (mem (lower (Pathlib.suffix p)) ALLOWED_SUFFIXES) eqn:Hsuf;
      cbn [negb]; [|now apply IH].
    destruct (relative_to p root) as [rel|] eqn:Hrel; [|discriminate].
    destruct (load_content read_text read_docx p) as [text|e]; [|discriminate].
    destruct (collect_from read_text read_docx root tree files) as [rs|e] eqn:Hrs;
      [|discriminate].
    intros H. injection H as <-. constructor.
    + apply make_report_collected; try assumption. apply Hfiles. now left.
    + now apply IH.
Qed.

(** Every report of [collect_reports] has a title and a department that
    are not empty, and the role [cadre] or [employee]. *)
Lemma collect_reports_collected (reports : list Report) :
  collect_reports read_text read_docx root tree = Ok reports ->
  Forall collected reports.
Proof.
  apply collect_from_collected. intros p Hp. now apply sorted_In.
Qed.

End CollectedFacts.

(* ================================================================== *)
(** * The batch when every write succeeds *)
(* ================================================================== *)

Section BatchFacts.

Variable w : World.
Variable args : Args.
Hypothesis writes_succeed : forall n, write_error w n = None.

Lemma summarize_individual_raises_exception (model : str) (report : Report)
    (temperature : pyfloat) (max_tokens : Z) (s s' : state) (e : exn) :
  summarize_individual w model report temperature max_tokens s = (Err e, s') ->
  exists msg, e = Exception msg.
Proof.
  rewrite summarize_individual_run.
  destruct (individual_prompts w) as [[]|e0] eqn:Hload.
  2:{ intros H. injection H as <- _.
      destruct (individual_prompts_error _ _ Hload) as [missing ->]. now eexists. }
  intros H. injection H as H _.
  destruct (chat_completions_create w _ _) as [m | [c|]].
  - injection H as <-. now eexists.
  - destruct (nonempty c); [|injection H as <-; now eexists].
    unfold parse_content in H.
    destruct (json_loads w c) as [data|e1].
    + destruct data as [| b | z | f | x | l | d]; cbn [repair] in H;
        try (injection H as <-; now eexists).
      revert H.
      destruct (dict_get (py "role") _) as [v|]; [|discriminate].
      destruct (negb (hashable v)); [|discriminate].
      intros H. injection H as <-. now eexists.
    + destruct (json_loads w (strip_fences c)) as [data|e2].
      * destruct data as [| b | z | f | x | l | d]; cbn [repair] in H;
          try (injection H as <-; now eexists).
        revert H.
        destruct (dict_get (py "role") _) as [v|]; [|discriminate].
        destruct (negb (hashable v)); [|discriminate].
        intros H. injection H as <-. now eexists.
      * injection H as <-. now eexists.
  - injection H as <-. now eexists.
Qed.

Lemma process_report_appends_one (report : Report) (rel : Pathlib.path) (s : state) :
  relative_to (path report) (input args) = Some rel ->
  exists entry,
    fst (process_report w args report s) = Ok tt /\
    people (snd (process_report w args report s)) = people s ++ [entry] /\
    record_of report entry.
Proof.
  intros Hrel. unfold process_report, try_except, bind.
  destruct (summarize_individual w (model args) report (temperature args)
              (max_tokens_individual args) s) as [[summary | e] s1] eqn:Hs.
  - assert (Hpeople : people s1 = people s).
    { rewrite <- (summarize_individual_people w (model args) report (temperature args)
                    (max_tokens_individual args) s), Hs. reflexivity. }
    destruct (summarize_individual_ok _ _ _ _ _ _ _ _ Hs)
      as (content & d0 & d & _ & _ & -> & Hd).
    exists (JObj d).
    unfold append_people, lift, per_report_dest, write_text. rewrite Hrel.
    cbv beta iota. cbn [log add_event people environ]. rewrite writes_succeed.
    cbn [fst snd people add_event]. rewrite Hpeople.
    repeat split. left. now exists d0, d.
  - assert (Hpeople : people s1 = people s).
    { rewrite <- (summarize_individual_people w (model args) report (temperature args)
                    (max_tokens_individual args) s), Hs. reflexivity. }
    destruct (summarize_individual_raises_exception _ _ _ _ _ _ _ Hs) as [msg ->].
    exists (make_failure_record report msg).
    unfold append_people, lift, per_report_dest, write_text, bind. rewrite Hrel.
    cbv beta iota. cbn [log add_event people environ]. rewrite writes_succeed.
    cbn [fst snd people add_event]. rewrite Hpeople.
    repeat split. right. now exists msg.
Qed.

Lemma for_each_appends_one_each (reports : list Report) (s : state) :
  (forall r, In r reports -> exists rel, relative_to (path r) (input args) = Some rel) ->
  exists entries,
    fst (for_each reports (process_report w args) s) = Ok tt /\
    people (snd (for_each reports (process_report w args) s)) = people s ++ entries /\
    Forall2 record_of reports entries.
Proof.
  revert s. induction reports as [|r reports IH]; intros s Hrel.
  - exists []. cbn [for_each]. unfold ret. cbn [fst snd].
    rewrite app_nil_r. repeat split. constructor.
  - destruct (Hrel r (or_introl eq_refl)) as [rel Hr].
    destruct (process_report_appends_one r rel s Hr) as (entry & Hok & Hp & Hrec).
    cbn [for_each]. unfold bind.
    destruct (process_report w args r s) as [[[]|e] s1]; cbn [fst snd] in Hok, Hp;
      [|discriminate].
    destruct (IH s1) as (entries & Hok' & Hp' & Hall);
      [intros q Hq; apply Hrel; now right|].
    exists (entry :: entries). rewrite Hok', Hp', Hp, <- app_assoc.
    repeat split. now constructor.
Qed.

End BatchFacts.

(** When no write fails: for every sequence of reports below the input
    directory, the loop of [main] appends exactly one record for each
    report, in the order of the reports, a repaired summary or the
    placeholder of its failure, and the batch written to
    [individual_summaries.json] is the sequence of these records. *)
Theorem batch_has_one_record_per_report_when_writes_succeed :
  forall (w : World) (args : Args) (reports : list Report) (s : state),
    (forall n, write_error w n = None) ->
    (forall r, In r reports -> exists rel, relative_to (path r) (input args) = Some rel) ->
    exists entries,
      Forall2 record_of reports entries /\
      length entries = length reports /\
      fst (summarize_phase w args reports s) = Ok tt /\
      people (snd (summarize_phase w args reports s)) = people s ++ entries /\
      exists before,
        log (snd (summarize_phase w args reports s))
        = before ++ [EWrite (people_path args) (dumps (JArr (people s ++ entries)))].
Proof.
  intros w args reports s Hw Hrel.
  destruct (for_each_appends_one_each w args Hw reports s Hrel)
    as (entries & Hok & Hp & Hall).
  exists entries. split; [exact Hall|].
  split; [symmetry; eapply Forall2_length; exact Hall|].
  unfold summarize_phase, bind, get_people, write_text.
  destruct (for_each reports (process_report w args) s) as [[[]|e] s1];
    cbn [fst snd] in Hok, Hp; [|discriminate].
  rewrite Hw. cbn [fst snd people add_event log]. rewrite Hp.
  repeat split. now exists (log s1).
Qed.

Lemma batch_has_one_record_per_report_when_writes_succeed_witness :
  exists entries,
    Forall2 record_of [Examples.alice] entries /\
    length entries = 1%nat /\
    people (snd (summarize_phase
                   (Examples.world Examples.one_report_tree Examples.no_builders
                      (Examples.always Examples.name_x_response) Examples.disk_fine)
                   Examples.args [Examples.alice] (initial Examples.environment)))
    = entries.
Proof.
  destruct (batch_has_one_record_per_report_when_writes_succeed
              (Examples.world Examples.one_report_tree Examples.no_builders
                 (Examples.always Examples.name_x_response) Examples.disk_fine)
              Examples.args [Examples.alice] (initial Examples.environment)
              (fun n => eq_refl))
    as (entries & Hall & Hlen & _ & Hp & _).
  - intros r [<- | []]. exists [py "RnD"; py "alice.txt"]. vm_compute. reflexivity.
  - exists entries. repeat split; assumption.
Defined.

(* ================================================================== *)
(** * More on the collection *)
(* ================================================================== *)

Section CollectMore.

Variable read_text : Pathlib.path -> result exn str.
Variable read_docx : Pathlib.path -> result docx_error str.
Variable root : Pathlib.path.
Variable tree : list node.

Lemma collect_from_built (files : list Pathlib.path) (reports : list Report) :
  wf_tree tree ->
  (forall p, In p files -> In p (rglob root tree)) ->
  collect_from read_text read_docx root tree files = Ok reports ->
  Forall (built_from_file read_text read_docx root tree) reports.
Proof.
  intros Hwf. revert reports. induction files as [|p files IH]; intros reports Hfiles;
    cbn [collect_from].
  - intros H. injection H as <-. constructor.
  - assert (Hrest : forall q, In q files -> In q (rglob root tree))
      by (intros q Hq; apply Hfiles; now right).
    destruct (is_file root tree p) eqn:Hfile; cbn [negb orb]; [|now apply IH].
    destruct (mem (lower (Pathlib.suffix p)) ALLOWED_SUFFIXES) eqn:Hsuf;
      cbn [negb]; [|now apply IH].
    destruct (relative_to p root) as [rel|] eqn:Hrel; [|discriminate].
    destruct (load_content read_text read_docx p) as [text|e] eqn:Hload; [|discriminate].
    destruct (collect_from read_text read_docx root tree files) as [rs|e] eqn:Hrs;
      [|discriminate].
    intros H. injection H as <-. constructor; [|now apply IH].
    pose proof (Hfiles p (or_introl eq_refl)) as Hin.
    apply rglob_In in Hin as (rel0 & k & -> & Hin).
    rewrite relative_to_app in Hrel. injection Hrel as <-.
    apply (is_file_entry root tree rel0 k Hwf Hin) in Hfile. subst k.
    exists rel0. cbn [make_report path content title role department].
    repeat split; assumption.
Qed.

Lemma collect_from_fails (files : list Pathlib.path) (p : Pathlib.path) (e : exn) :
  In p files -> selected root tree p = true ->
  load_content read_text read_docx p = Err e ->
  exists q e',
    collect_from read_text read_docx root tree files = Err e' /\
    In q files /\ selected root tree q = true /\
    (load_content read_text read_docx q = Err e' \/ relative_to q root = None).
Proof.
  intros Hin Hsel Hload. induction files as [|x files IH]; [destruct Hin|].
  cbn [collect_from]. destruct (selected root tree x) eqn:Hx.
  - unfold selected in Hx. apply andb_true_iff in Hx as [Hf Hs].
    rewrite Hf, Hs. cbn [negb orb].
    destruct (relative_to x root) as [rel|] eqn:Hrel.
    + destruct (load_content read_text read_docx x) as [text|e0] eqn:Hlx.
      * destruct Hin as [-> | Hin]; [congruence|].
        destruct (IH Hin) as (q & e' & -> & Hq & Hqs & Hqe).
        exists q, e'. split; [reflexivity|]. split; [now right|]. now split.
      * exists x, e0. split; [reflexivity|]. split; [now left|].
        split; [unfold selected; now rewrite Hf, Hs | now left].
    + eexists x, _. split; [reflexivity|]. split; [now left|].
      split; [unfold selected; now rewrite Hf, Hs | now right].
  - assert (Hskip : negb (is_file root tree x)
                    || negb (mem (lower (Pathlib.suffix x)) ALLOWED_SUFFIXES) = true).
    { unfold selected in Hx. destruct (is_file root tree x); [|reflexivity].
      cbn [andb] in Hx. rewrite Hx. reflexivity. }
    rewrite Hskip. destruct Hin as [-> | Hin]; [congruence|].
    destruct (IH Hin) as (q & e' & -> & Hq & Hqs & Hqe).
    exists q, e'. split; [reflexivity|]. split; [now right|]. now split.
Qed.

End CollectMore.

(** For every well-formed tree, each report that [collect_reports]
    returns is built from one regular file below the root: its path is
    that file, its content is what [load_content] gives for the file, its
    title is the name without the suffix, its role is the one detected on
    the title, and its department is the first directory below the root
    on the way to the file, or ["未分类"] for a file directly in the
    root; title and department are not empty. *)
Theorem collect_reports_builds_each_report_from_its_file :
  forall (read_text : Pathlib.path -> result exn str)
         (read_docx : Pathlib.path -> result docx_error str)
         (root : Pathlib.path) (tree : list node) (reports : list Report),
    wf_tree tree ->
    collect_reports read_text read_docx root tree = Ok reports ->
    Forall (built_from_file read_text read_docx root tree) reports /\
    Forall collected reports.
Proof.
  intros read_text read_docx root tree reports Hwf H. split.
  - apply (collect_from_built read_text read_docx root tree
             (sorted (rglob root tree)) reports Hwf); [|exact H].
    intros p Hp. now apply sorted_In.
  - now apply (collect_reports_collected read_text read_docx root tree Hwf).
Qed.

(** For every well-formed tree: when one of the regular files with an
    allowed suffix cannot be loaded, [collect_reports] returns no list of
    reports at all; it fails with the exception of such a file. *)
Theorem collect_reports_fails_when_a_file_cannot_be_loaded :
  forall (read_text : Pathlib.path -> result exn str)
         (read_docx : Pathlib.path -> result docx_error str)
         (root : Pathlib.path) (tree : list node) (p : Pathlib.path) (e : exn),
    wf_tree tree ->
    allowed_regular_file root tree p ->
    load_content read_text read_docx p = Err e ->
    exists q e',
      collect_reports read_text read_docx root tree = Err e' /\
      allowed_regular_file root tree q /\
      load_content read_text read_docx q = Err e'.
Proof.
  intros read_text read_docx root tree p e Hwf Hp Hload.
  apply (selected_allowed root tree p Hwf) in Hp as [Hin Hsel].
  destruct (collect_from_fails read_text read_docx root tree
              (sorted (rglob root tree)) p e) as (q & e' & Hc & Hq & Hqs & Hqe);
    try assumption; [now apply sorted_In|].
  apply (proj1 (sorted_In _ _)) in Hq.
  exists q, e'. split; [exact Hc|]. split.
  - apply (proj1 (selected_allowed root tree q Hwf)). now split.
  - destruct Hqe as [Hqe | Hnone]; [exact Hqe|].
    apply rglob_In in Hq as (rel & k & -> & _).
    rewrite relative_to_app in Hnone. discriminate.
Qed.

(* ================================================================== *)
(** * The suffix of a file name *)
(* ================================================================== *)

Section SuffixFacts.

Lemma rfind_absent (c : N) (s : str) : ~ In c s -> rfind c s = None.
Proof.
  induction s as [|d s IH]; intros H; [reflexivity|].
  cbn [rfind]. rewrite IH by (intros Hs; apply H; now right).
  destruct (d =? c) eqn:E; [|reflexivity].
  apply N.eqb_eq in E. exfalso. apply H. now left.
Qed.

Lemma rfind_last (c : N) (a b : str) :
  ~ In c b -> rfind c (a ++ c :: b) = Some (length a).
Proof.
  intros Hb. induction a as [|x a IH]; cbn [app rfind length].
  - now rewrite (rfind_absent c b Hb), N.eqb_refl.
  - now rewrite IH.
Qed.

Lemma skipn_length_app {X : Type} (a b : list X) : skipn (length a) (a ++ b) = b.
Proof. induction a as [|x a IH]; [reflexivity | exact IH]. Qed.

Lemma lower_cp_dot (c : N) : lower_cp c = 46 <-> c = 46.
Proof.
  unfold lower_cp. destruct ((65 <=? c) && (c <=? 90)) eqn:E; [|reflexivity].
  apply andb_true_iff in E as [H1 H2].
  apply N.leb_le in H1. apply N.leb_le in H2. lia.
Qed.

(** An extension that lowers to an allowed suffix starts with its only
    dot and is longer than the dot. *)
Lemma allowed_extension_shape (ext : str) :
  In (lower ext) ALLOWED_SUFFIXES ->
  exists rest, ext = 46 :: rest /\ ~ In 46 rest /\ rest <> [].
Proof.
  intros H.
  assert (Hshape : exists t, lower ext = 46 :: t /\ ~ In 46 t /\ t <> []).
  { destruct H as [<- | [<- | [<- | []]]]; eexists; (split; [vm_compute; reflexivity|]);
      (split; [|discriminate]); intros Hin; vm_compute in Hin;
      repeat (destruct Hin as [Hin | Hin]; [discriminate|]); exact Hin. }
  destruct Hshape as (t & Ht & Hdot & Hne).
  destruct ext as [|c rest]; [discriminate|].
  cbn [lower map] in Ht. injection Ht as Hc Hrest.
  apply (proj1 (lower_cp_dot c)) in Hc. subst c. exists rest. split; [reflexivity|]. split.
  - intros Hin. apply Hdot. rewrite <- Hrest.
    change 46 with (lower_cp 46). now apply in_map.
  - intros ->. apply Hne. now rewrite <- Hrest.
Qed.

End SuffixFacts.

(** For every path: the suffix of [pathlib], in lower case, is one of
    [.txt], [.md], [.docx] exactly when the name of the file ends, in any
    case of the letters, with one of them and has at least one character
    before it.  A file named [.txt] or [.md] alone has no suffix and is
    not collected. *)
Theorem allowed_suffix_iff_name_ends_with_extension :
  forall p : Pathlib.path,
    In (lower (Pathlib.suffix p)) ALLOWED_SUFFIXES <-> has_allowed_extension (name p).
Proof.
  intros p. unfold has_allowed_extension, Pathlib.suffix, suffix_index. split.
  - destruct (rfind 46 (name p)) as [i|];
      [|intros H; vm_compute in H; repeat (destruct H as [H | H]; [discriminate|]);
        destruct H].
    destruct ((0 <? i)%nat && (i <? length (name p) - 1)%nat) eqn:E;
      [|intros H; vm_compute in H; repeat (destruct H as [H | H]; [discriminate|]);
        destruct H].
    intros H. exists (firstn i (name p)), (skipn i (name p)).
    split; [symmetry; apply firstn_skipn|]. split; [|exact H].
    apply andb_true_iff in E as [Hi Hlen].
    apply Nat.ltb_lt in Hi. apply Nat.ltb_lt in Hlen.
    destruct i as [|i]; [lia|].
    destruct (name p) as [|c t]; [cbn in Hlen; lia | discriminate].
  - intros (base & ext & -> & Hbase & Hext).
    destruct (allowed_extension_shape ext Hext) as (rest & -> & Hdot & Hrest).
    rewrite (rfind_last 46 base rest Hdot).
    assert (Hcond : (0 <? length base)%nat
                    && (length base <? length (base ++ 46%N :: rest) - 1)%nat = true).
    { apply andb_true_iff. split; apply Nat.ltb_lt.
      - destruct base; [contradiction | cbn; lia].
      - rewrite length_app. cbn [length]. destruct rest; [contradiction | cbn; lia]. }
    rewrite Hcond, skipn_length_app. exact Hext.
Qed.

(* ================================================================== *)
(** * Where the collection can fail *)
(* ================================================================== *)

Section LoadFacts.

Variable read_text : Pathlib.path -> result exn str.
Variable read_docx : Pathlib.path -> result docx_error str.

Lemma load_content_allowed (p : Pathlib.path) :
  mem (lower (Pathlib.suffix p)) ALLOWED_SUFFIXES = true ->
  load_content read_text read_docx p
  = if mem (lower (Pathlib.suffix p)) [py ".txt"; py ".md"] then read_text p
    else match read_docx p with
         | Ok text => Ok text
         | Err BadZipFile => read_text p
         | Err (DocxError e) => Err e
         end.
Proof.
  unfold load_content, ALLOWED_SUFFIXES, mem. cbn [existsb].
  destruct (str_eqb (lower (Pathlib.suffix p)) (py ".txt")); [reflexivity|].
  destruct (str_eqb (lower (Pathlib.suffix p)) (py ".md")); [reflexivity|].
  cbn [orb]. rewrite orb_false_r. intros ->. reflexivity.
Qed.

Variable root : Pathlib.path.
Variable tree : list node.

Lemma collect_from_error (files : list Pathlib.path) (e : exn) :
  collect_from read_text read_docx root tree files = Err e ->
  exists q,
    In q files /\ selected root tree q = true /\
    (load_content read_text read_docx q = Err e \/ relative_to q root = None).
Proof.
  induction files as [|x files IH]; cbn [collect_from]; [discriminate|].
  destruct (is_file root tree x) eqn:Hf; cbn [negb orb].
  - destruct (mem (lower (Pathlib.suffix x)) ALLOWED_SUFFIXES) eqn:Hs; cbn [negb].
    + assert (Hx : selected root tree x = true) by (unfold selected; now rewrite Hf, Hs).
      destruct (relative_to x root) as [rel|] eqn:Hrel.
      * destruct (load_content read_text read_docx x) as [text|e0] eqn:Hl.
        -- destruct (collect_from read_text read_docx root tree files) as [rs|e1];
             [discriminate|].
           intros H. injection H as ->. destruct (IH eq_refl) as (q & Hq & Hqs & Hqe).
           exists q. split; [now right|]. now split.
        -- intros H. injection H as ->. exists x. split; [now left|].
           split; [exact Hx | now left].
      * intros _. exists x. split; [now left|]. split; [exact Hx | now right].
    + intros H. destruct (IH H) as (q & Hq & Hqs & Hqe).
      exists q. split; [now right|]. now split.
  - intros H. destruct (IH H) as (q & Hq & Hqs & Hqe).
    exists q. split; [now right|]. now split.
Qed.

End LoadFacts.

(** For every well-formed tree: when [collect_reports] fails, the
    exception is the one that [read_text_file] or [read_docx_file] raised
    on a regular file with an allowed suffix.  It does not fail with the
    error for an unsupported type of file, and an archive that is no zip
    file does not make it fail when the file can be read as text. *)
Theorem collect_reports_fails_only_with_a_reader :
  forall (read_text : Pathlib.path -> result exn str)
         (read_docx : Pathlib.path -> result docx_error str)
         (root : Pathlib.path) (tree : list node) (e : exn),
    wf_tree tree ->
    collect_reports read_text read_docx root tree = Err e ->
    exists q,
      allowed_regular_file root tree q /\
      (read_text q = Err e \/ read_docx q = Err (DocxError e)).
Proof.
  intros read_text read_docx root tree e Hwf H.
  destruct (collect_from_error read_text read_docx root tree _ e H)
    as (q & Hq & Hqs & Hqe).
  apply (proj1 (sorted_In _ _)) in Hq.
  exists q. split; [apply (proj1 (selected_allowed root tree q Hwf)); now split|].
  destruct Hqe as [Hl | Hnone].
  - unfold selected in Hqs. apply andb_true_iff in Hqs as [_ Hs].
    rewrite (load_content_allowed read_text read_docx q Hs) in Hl.
    destruct (mem (lower (Pathlib.suffix q)) [py ".txt"; py ".md"]); [now left|].
    destruct (read_docx q) as [text | [|e0]]; [discriminate | now left |].
    injection Hl as ->. now right.
  - apply rglob_In in Hq as (rel & k & -> & _).
    rewrite relative_to_app in Hnone. discriminate.
Qed.

(* ================================================================== *)
(** * The focus of a department *)
(* ================================================================== *)

Section FocusFacts.

Lemma lower_app (a b : str) : lower (a ++ b) = lower a ++ lower b.
Proof. apply map_app. Qed.

Lemma lower_cp_idempotent (c : N) : lower_cp (lower_cp c) = lower_cp c.
Proof.
  unfold lower_cp. destruct ((65 <=? c) && (c <=? 90)) eqn:E; [|now rewrite E].
  apply andb_true_iff in E as [H1 H2].
  apply N.leb_le in H1. apply N.leb_le in H2.
  destruct ((65 <=? c + 32) && (c + 32 <=? 90)) eqn:E2; [|reflexivity].
  apply andb_true_iff in E2 as [_ H3]. apply N.leb_le in H3. lia.
Qed.

Lemma lower_idempotent (s : str) : lower (lower s) = lower s.
Proof.
  unfold lower. rewrite map_map. apply map_ext. apply lower_cp_idempotent.
Qed.

Lemma substring_lower (k s : str) : substring k s -> substring (lower k) (lower s).
Proof.
  intros (a & b & ->). exists (lower a), (lower b). now rewrite !lower_app.
Qed.

Lemma substring_prefix (k rest s : str) : substring (k ++ rest) s -> substring k s.
Proof.
  intros (a & b & ->). exists a, (rest ++ b). now rewrite <- app_assoc.
Qed.

Lemma keyword_matches (dl : str) (kws : list str) :
  existsb (fun k => str_in (lower k) dl) kws = true
  <-> exists k, In k kws /\ substring (lower k) dl.
Proof.
  rewrite existsb_exists. split; intros [k [Hk H]]; exists k; (split; [exact Hk|]);
    now apply str_in_substring.
Qed.

Lemma first_hint_some (dl : str) (hints : list (list str * str)) (h : str) :
  first_hint dl hints = Some h <-> first_matching_group dl hints h.
Proof.
  unfold first_matching_group. induction hints as [|[kws h0] hints IH]; cbn [first_hint].
  - split; [discriminate|]. intros (before & k & after & E & _). now destruct before.
  - destruct (existsb (fun k => str_in (lower k) dl) kws) eqn:E.
    + apply keyword_matches in E. split.
      * intros H. injection H as ->. exists [], kws, hints.
        split; [reflexivity|]. split; [exact E|]. intros kw h' k [].
      * intros (before & kws' & after & Heq & Hm & Hnone).
        destruct before as [|[kw1 h1] before]; cbn [app] in Heq.
        -- now injection Heq as _ ->.
        -- injection Heq as <- <- _. destruct E as [k [Hk Hsub]].
           exfalso. apply (Hnone kws h0 k); [now left | exact Hk | exact Hsub].
    + assert (Hno : forall k, In k kws -> ~ substring (lower k) dl).
      { intros k Hk Hsub.
        assert (Ht : existsb (fun k => str_in (lower k) dl) kws = true)
          by (apply keyword_matches; now exists k).
        congruence. }
      rewrite IH. split.
      * intros (before & kws' & after & -> & Hm & Hnone).
        exists ((kws, h0) :: before), kws', after.
        split; [reflexivity|]. split; [exact Hm|].
        intros kw h' k [Heq | Hin] Hk.
        -- injection Heq as <- <-. now apply Hno.
        -- now apply (Hnone kw h').
      * intros (before & kws' & after & Heq & Hm & Hnone).
        destruct before as [|[kw1 h1] before]; cbn [app] in Heq.
        -- injection Heq as <- <- _. destruct Hm as [k [Hk Hsub]].
           exfalso. now apply (Hno k).
        -- injection Heq as _ _ ->. exists before, kws', after.
           split; [reflexivity|]. split; [exact Hm|].
           intros kw h' k Hin. apply (Hnone kw h'). now right.
Qed.

Lemma first_hint_none (dl : str) (hints : list (list str * str)) :
  first_hint dl hints = None <-> no_group_matches dl hints.
Proof.
  unfold no_group_matches. induction hints as [|[kws h0] hints IH]; cbn [first_hint].
  - split; [intros _ kws h k [] | reflexivity].
  - destruct (existsb (fun k => str_in (lower k) dl) kws) eqn:E.
    + split; [discriminate|]. intros H. apply keyword_matches in E as [k [Hk Hsub]].
      exfalso. apply (H kws h0 k); [now left | exact Hk | exact Hsub].
    + rewrite IH. split.
      * intros H kw h k [Heq | Hin] Hk.
        -- injection Heq as <- <-. intros Hsub.
           assert (Ht : existsb (fun k => str_in (lower k) dl) kws = true)
             by (apply keyword_matches; now exists k).
           congruence.
        -- now apply (H kw h).
      * intros H kw h k Hin. apply (H kw h). now right.
Qed.

Lemma first_hint_in (dl : str) (hints : list (list str * str)) (h : str) :
  first_hint dl hints = Some h -> In h (map snd hints).
Proof.
  induction hints as [|[kws h0] hints IH]; cbn [first_hint]; [discriminate|].
  destruct (existsb _ kws).
  - intros H. injection H as ->. now left.
  - intros H. right. now apply IH.
Qed.

Lemma hints_not_generic (h : str) :
  In h (map snd DEPARTMENT_PROMPT_HINTS) -> h <> GENERIC_FOCUS.
Proof.
  intros H E. subst h. vm_compute in H.
  repeat (destruct H as [H | H]; [discriminate H|]). exact H.
Qed.

Lemma department_focus_unfold (department : str) :
  department_focus department
  = match first_hint (lower department) DEPARTMENT_PROMPT_HINTS with
    | Some hint => hint
    | None => GENERIC_FOCUS
    end.
Proof. unfold department_focus, GENERIC_FOCUS. reflexivity. Qed.

End FocusFacts.

(** For every department: [department_focus] gives the generic focus
    exactly when no keyword of the table occurs, in lower case, in the
    department in lower case; otherwise it gives the focus of the first
    group of the table with such a keyword, whatever later groups match
    too.  Upper and lower case of the ASCII letters of the department make
    no difference. *)
Theorem department_focus_is_the_first_matching_group :
  forall department : str,
    (department_focus department = GENERIC_FOCUS
     <-> no_group_matches (lower department) DEPARTMENT_PROMPT_HINTS) /\
    (forall hint,
        first_matching_group (lower department) DEPARTMENT_PROMPT_HINTS hint
        <-> department_focus department = hint /\ hint <> GENERIC_FOCUS) /\
    department_focus (lower department) = department_focus department.
Proof.
  intros department.
  pose proof (first_hint_none (lower department) DEPARTMENT_PROMPT_HINTS) as Hnone.
  pose proof (first_hint_some (lower department) DEPARTMENT_PROMPT_HINTS) as Hsome.
  assert (Hlow : department_focus (lower department) = department_focus department).
  { rewrite (department_focus_unfold (lower department)).
    rewrite (department_focus_unfold department).
    now rewrite lower_idempotent. }
  rewrite (department_focus_unfold department) in *.
  destruct (first_hint (lower department) DEPARTMENT_PROMPT_HINTS) as [h|] eqn:E.
  - assert (Hh : h <> GENERIC_FOCUS).
    { apply hints_not_generic. exact (first_hint_in _ _ _ E). }
    split; [|split; [|exact Hlow]].
    + split.
      * intros Heq. exfalso. exact (Hh Heq).
      * intros Hn. apply (proj2 Hnone) in Hn. discriminate Hn.
    + intros hint. split.
      * intros Hm. apply (proj2 (Hsome hint)) in Hm. injection Hm as <-.
        split; [reflexivity | exact Hh].
      * intros [Heq _]. apply (proj1 (Hsome hint)). now f_equal.
  - split; [|split; [|exact Hlow]].
    + split.
      * intros _. apply (proj1 Hnone). reflexivity.
      * intros _. reflexivity.
    + intros hint. split.
      * intros Hm. apply (proj2 (Hsome hint)) in Hm. discriminate Hm.
      * intros [Heq Hne]. exfalso. apply Hne. symmetry. exact Heq.
Qed.

(** For every department whose name contains ["产品运营"]: the focus is
    the one of the first group (["研发"], ...) or of the second
    (["产品"], ...), never the focus of the group that lists
    ["产品运营"]: the keyword ["产品"] of an earlier group occurs in it. *)
Theorem department_focus_never_reaches_product_operations_keyword :
  forall department : str,
    substring (py "产品运营") department ->
    In (department_focus department)
       (map snd (firstn 2 DEPARTMENT_PROMPT_HINTS)) /\
    Some (department_focus department)
    <> option_map snd (nth_error DEPARTMENT_PROMPT_HINTS 5).
Proof.
  intros department Hsub.
  assert (Hprod : str_in (lower (py "产品")) (lower department) = true).
  { apply str_in_substring. apply substring_lower.
    apply (substring_prefix (py "产品") (py "运营")).
    replace (py "产品" ++ py "运营") with (py "产品运营") by (vm_compute; reflexivity).
    exact Hsub. }
  assert (Hin : In (department_focus department)
                   (map snd (firstn 2 DEPARTMENT_PROMPT_HINTS))).
  { rewrite department_focus_unfold. unfold DEPARTMENT_PROMPT_HINTS.
    cbn [first_hint firstn map snd].
    destruct (existsb _ [py "研发"; py "技术"; py "工程"; py "开发"]); [now left|].
    cbn [existsb]. rewrite Hprod. cbn [orb]. right. now left. }
  split; [exact Hin|].
  revert Hin. generalize (department_focus department). intros h Hin E.
  vm_compute in Hin. vm_compute in E.
  destruct Hin as [<- | [<- | []]]; discriminate E.
Qed.

(* ================================================================== *)
(** * The collection and focus properties on concrete inputs *)
(* ================================================================== *)

Lemma two_report_tree_wf : wf_tree Examples.two_report_tree.
Proof. split; cbn [Examples.two_report_tree map node_name]; concrete_tree. Qed.

Lemma alice_file_allowed :
  allowed_regular_file [py "reports"] Examples.two_report_tree
    [py "reports"; py "RnD"; py "alice.txt"].
Proof.
  exists [py "RnD"; py "alice.txt"]. split; [reflexivity|]. split.
  - vm_compute. right. right. left. reflexivity.
  - vm_compute. left. reflexivity.
Qed.

Lemma collect_reports_builds_each_report_from_its_file_witness :
  exists reports,
    collect_reports (fun _ => Ok (py "report text")) (fun _ => Err BadZipFile)
      [py "reports"] Examples.two_report_tree = Ok reports /\
    Forall collected reports.
Proof.
  eexists. split; [vm_compute; reflexivity|].
  refine (proj2 (collect_reports_builds_each_report_from_its_file
                   (fun _ => Ok (py "report text")) (fun _ => Err BadZipFile)
                   [py "reports"] Examples.two_report_tree _
                   two_report_tree_wf _)).
  vm_compute. reflexivity.
Defined.

Lemma collect_reports_fails_when_a_file_cannot_be_loaded_witness :
  exists q e',
    collect_reports (fun _ => Err (Exception (py "Permission denied")))
      (fun _ => Err BadZipFile) [py "reports"] Examples.two_report_tree = Err e' /\
    allowed_regular_file [py "reports"] Examples.two_report_tree q /\
    load_content (fun _ => Err (Exception (py "Permission denied")))
      (fun _ => Err BadZipFile) q = Err e'.
Proof.
  refine (collect_reports_fails_when_a_file_cannot_be_loaded
            (fun _ => Err (Exception (py "Permission denied")))
            (fun _ => Err BadZipFile) [py "reports"] Examples.two_report_tree
            [py "reports"; py "RnD"; py "alice.txt"]
            (Exception (py "Permission denied"))
            two_report_tree_wf alice_file_allowed _).
  vm_compute. reflexivity.
Defined.

Lemma collect_reports_fails_only_with_a_reader_witness :
  exists q,
    allowed_regular_file [py "reports"] Examples.two_report_tree q /\
    ((fun _ : Pathlib.path => @Err exn str (Exception (py "Permission denied"))) q
     = Err (Exception (py "Permission denied")) \/
     (fun _ : Pathlib.path => @Err docx_error str BadZipFile) q
     = Err (DocxError (Exception (py "Permission denied")))).
Proof.
  refine (collect_reports_fails_only_with_a_reader
            (fun _ => Err (Exception (py "Permission denied")))
            (fun _ => Err BadZipFile) [py "reports"] Examples.two_report_tree
            (Exception (py "Permission denied")) two_report_tree_wf _).
  vm_compute. reflexivity.
Defined.

Lemma department_focus_never_reaches_product_operations_keyword_witness :
  In (department_focus (py "产品运营室"))
     (map snd (firstn 2 DEPARTMENT_PROMPT_HINTS)).
Proof.
  refine (proj1 (department_focus_never_reaches_product_operations_keyword
                   (py "产品运营室") _)).
  exists [], (py "室"). vm_compute. reflexivity.
Defined.

(* ================================================================== *)
(** * The environment file and the client *)
(* ================================================================== *)

Section EnvFileFacts.

(** One pair more in front: the pairs after it are loaded into the
    environment that the pair has left. *)
Lemma configured_cons (k v : str) (pairs : list (str * str)) (env : gmap str str)
    (key : str) :
  configured ((k, v) :: pairs) env key
  = configured pairs
      (if nonempty k
       then match env !! k with
            | None => <[k := v]> env
            | Some _ => env
            end
       else env) key.
Proof.
  unfold configured. cbn [first_definition].
  destruct (nonempty k) eqn:Hk.
  - destruct (env !! k) as [x|] eqn:Ek.
    + destruct (env !! key) as [y|] eqn:Ekey; [reflexivity|].
      destruct (nonempty key); [|reflexivity].
      destruct (str_eqb k key) eqn:E; [|reflexivity].
      apply (proj1 (str_eqb_eq k key)) in E. subst key. congruence.
    + destruct (str_eqb k key) eqn:E.
      * apply (proj1 (str_eqb_eq k key)) in E. subst key.
        rewrite lookup_insert_eq, Ek, Hk. reflexivity.
      * apply (proj1 (str_eqb_neq k key)) in E.
        rewrite lookup_insert_ne by exact E. reflexivity.
  - destruct (env !! key); [reflexivity|].
    destruct (nonempty key) eqn:Hkey; [|reflexivity].
    destruct (str_eqb k key) eqn:E; [|reflexivity].
    apply (proj1 (str_eqb_eq k key)) in E. subst key. congruence.
Qed.

Lemma configured_nil (env : gmap str str) (key : str) :
  configured [] env key = env !! key.
Proof.
  unfold configured. destruct (env !! key); [reflexivity|].
  cbn [first_definition]. now destruct (nonempty key).
Qed.

Lemma refused_cons (k v : str) (before : list (str * str)) (env : gmap str str)
    (kv : str * str) :
  refused ((k, v) :: before) env kv
  <-> refused before
        (if nonempty k
         then match env !! k with
              | None => <[k := v]> env
              | Some _ => env
              end
         else env) kv.
Proof. unfold refused. now rewrite configured_cons. Qed.

Lemma none_refused_cons (k v : str) (pairs : list (str * str)) (env : gmap str str) :
  none_refused ((k, v) :: pairs) env ->
  ~ refused [] env (k, v) /\
  none_refused pairs
    (if nonempty k
     then match env !! k with
          | None => <[k := v]> env
          | Some _ => env
          end
     else env).
Proof.
  intros H. split.
  - exact (H [] (k, v) pairs eq_refl).
  - intros before kv after -> Hr.
    apply (H ((k, v) :: before) kv after eq_refl).
    now apply refused_cons.
Qed.

(** Pairs without a NUL character are never refused. *)
Lemma none_refused_without_nul (pairs : list (str * str)) (env : gmap str str) :
  Forall (fun kv => has_nul (fst kv) = false /\ has_nul (snd kv) = false) pairs ->
  none_refused pairs env.
Proof.
  intros Hall before kv after -> (_ & _ & Hnul).
  apply List.Forall_app in Hall as [_ Hall].
  apply List.Forall_cons_iff in Hall as [[Hk Hv] _].
  destruct Hnul; congruence.
Qed.

(** One turn of the loop on a line that is not skipped and not refused. *)
Lemma load_env_line_accepted (raw k v : str) (s : state) :
  parse_env_line raw = Some (k, v) ->
  ~ refused [] (environ s) (k, v) ->
  exists s1,
    load_env_line raw s = (Ok tt, s1) /\
    environ s1 = (if nonempty k
                  then match environ s !! k with
                       | None => <[k := v]> (environ s)
                       | Some _ => environ s
                       end
                  else environ s).
Proof.
  intros Hparse Hnot. unfold load_env_line. rewrite Hparse.
  destruct (environ s !! k) as [x|] eqn:Ek.
  - exists s. split; [reflexivity|]. now destruct (nonempty k).
  - destruct (nonempty k) eqn:Hk; [|now exists s].
    unfold setenv.
    destruct (has_nul k) eqn:Hnk.
    { exfalso. apply Hnot. unfold refused. cbn [fst snd].
      rewrite configured_nil. auto. }
    destruct (has_nul v) eqn:Hnv.
    { exfalso. apply Hnot. unfold refused. cbn [fst snd].
      rewrite configured_nil. auto. }
    cbn [orb]. eexists. split; reflexivity.
Qed.

(** One turn of the loop on a line that is refused. *)
Lemma load_env_line_refused (raw k v : str) (s : state) :
  parse_env_line raw = Some (k, v) ->
  refused [] (environ s) (k, v) ->
  load_env_line raw s = (Err (Exception (py "embedded null byte")), s).
Proof.
  intros Hparse (Hk & Hc & Hnul). cbn [fst snd] in Hk, Hc, Hnul.
  rewrite configured_nil in Hc.
  unfold load_env_line. rewrite Hparse, Hc, Hk. unfold setenv.
  destruct Hnul as [-> | ->]; [reflexivity|].
  now rewrite orb_true_r.
Qed.

(** The loop over lines none of which is refused. *)
Lemma load_env_lines_accepted (lines : list str) (s : state) :
  none_refused (env_pairs lines) (environ s) ->
  fst (for_each lines load_env_line s) = Ok tt /\
  forall key,
    environ (snd (for_each lines load_env_line s)) !! key
    = configured (env_pairs lines) (environ s) key.
Proof.
  revert s. induction lines as [|raw rest IH]; intros s Hnone.
  - split; [reflexivity|]. intros key. symmetry. apply configured_nil.
  - cbn [for_each]. unfold bind. unfold env_pairs in *. cbn [flat_map] in *.
    destruct (parse_env_line raw) as [[k v]|] eqn:Hparse.
    + cbn [app] in *.
      destruct (none_refused_cons _ _ _ _ Hnone) as [Hhead Hrest].
      destruct (load_env_line_accepted raw k v s Hparse Hhead) as (s1 & -> & Henv).
      rewrite <- Henv in Hrest.
      destruct (IH s1 Hrest) as [Hok Hlook]. split; [exact Hok|].
      intros key. rewrite Hlook, configured_cons, Henv. reflexivity.
    + cbn [app] in *. unfold load_env_line. rewrite Hparse. unfold ret.
      now apply IH.
Qed.

(** The loop over lines the first refused of which comes after [before]. *)
Lemma load_env_lines_refused (lines : list str) (s : state)
    (before after : list (str * str)) (kv : str * str) :
  env_pairs lines = before ++ kv :: after ->
  none_refused before (environ s) ->
  refused before (environ s) kv ->
  fst (for_each lines load_env_line s) = Err (Exception (py "embedded null byte")) /\
  forall key,
    environ (snd (for_each lines load_env_line s)) !! key
    = configured before (environ s) key.
Proof.
  revert s before. induction lines as [|raw rest IH]; intros s before Hpairs Hnone Href.
  - destruct before; discriminate Hpairs.
  - cbn [for_each]. unfold bind. unfold env_pairs in Hpairs. cbn [flat_map] in Hpairs.
    fold (env_pairs rest) in Hpairs.
    destruct (parse_env_line raw) as [[k v]|] eqn:Hparse.
    + cbn [app] in Hpairs. destruct before as [|[k0 v0] before].
      * cbn [app] in Hpairs. injection Hpairs as <- _.
        rewrite (load_env_line_refused raw k v s Hparse Href). cbn [fst snd].
        split; [reflexivity|]. intros key. symmetry. apply configured_nil.
      * cbn [app] in Hpairs. injection Hpairs as -> -> Hrest.
        destruct (none_refused_cons _ _ _ _ Hnone) as [Hhead Hbefore].
        destruct (load_env_line_accepted raw k0 v0 s Hparse Hhead) as (s1 & -> & Henv).
        apply (proj1 (refused_cons _ _ _ _ _)) in Href.
        rewrite <- Henv in Hbefore, Href.
        destruct (IH s1 before Hrest Hbefore Href) as [Herr Hlook].
        split; [exact Herr|].
        intros key. rewrite Hlook, configured_cons, Henv. reflexivity.
    + cbn [app] in Hpairs. unfold load_env_line. rewrite Hparse. unfold ret.
      now apply IH.
Qed.

Lemma create_client_result (s : state) :
  create_client s
  = ( match environ s !! py "DEEPSEEK_API_KEY" with
      | Some (c :: k) =>
        Ok {| api_key := c :: k;
              base_url := match environ s !! py "DEEPSEEK_BASE_URL" with
                          | Some u => u
                          | None => py "https://api.deepseek.com"
                          end |}
      | _ => Err (SystemExit (py "请先在环境变量中设置 DEEPSEEK_API_KEY"))
      end, s ).
Proof.
  unfold create_client, bind, getenv, raise, ret. cbv beta iota.
  destruct (environ s !! py "DEEPSEEK_API_KEY") as [[|c k]|]; reflexivity.
Qed.

Lemma create_client_with (s : state) (key url : option str) :
  environ s !! py "DEEPSEEK_API_KEY" = key ->
  environ s !! py "DEEPSEEK_BASE_URL" = url ->
  create_client s
  = ( match key with
      | Some (c :: k) =>
        Ok {| api_key := c :: k;
              base_url := match url with
                          | Some u => u
                          | None => py "https://api.deepseek.com"
                          end |}
      | _ => Err (SystemExit (py "请先在环境变量中设置 DEEPSEEK_API_KEY"))
      end, s ).
Proof. intros <- <-. apply create_client_result. Qed.

(** A run whose loading of the environment file raises ends there. *)
Lemma main_stops_when_loading_raises (w : World) (args : Args) (s : state) (e : exn) :
  fst (load_env_from_file w s) = Err e ->
  fst (main w args s) = Err e /\
  log (snd (main w args s)) = log s /\
  people (snd (main w args s)) = people s.
Proof.
  intros H. destruct (load_env_from_file_frame w s) as [Hlog Hpeople].
  unfold main, bind.
  destruct (load_env_from_file w s) as [[[]|e0] s1]; cbn [fst snd] in *;
    [discriminate|].
  injection H as ->. auto.
Qed.

End EnvFileFacts.

(** For every environment file and every environment, with the pairs of
    key and value of the lines that are not skipped.  When no assignment
    is refused, [load_env_from_file] returns, a variable that was set
    keeps its value, the empty string too, and a variable that was not
    set has the value of the first line of the file that defines it, or
    stays unset when no line does; a later line with the same key changes
    nothing.  When an assignment is refused for a NUL character in its key
    or its value, [load_env_from_file] raises [ValueError] there: the
    lines before it are loaded in the same way and the lines after it are
    not.  When the file cannot be read, the exception of the reading
    leaves [load_env_from_file] and the environment is as before. *)
Theorem load_env_file_never_overrides_the_environment :
  forall (w : World) (s : state),
    (forall lines,
        env_file w = Ok lines ->
        none_refused (env_pairs lines) (environ s) ->
        fst (load_env_from_file w s) = Ok tt /\
        forall key,
          environ (snd (load_env_from_file w s)) !! key
          = configured (env_pairs lines) (environ s) key) /\
    (forall lines before kv after,
        env_file w = Ok lines ->
        env_pairs lines = before ++ kv :: after ->
        none_refused before (environ s) ->
        refused before (environ s) kv ->
        fst (load_env_from_file w s) = Err (Exception (py "embedded null byte")) /\
        forall key,
          environ (snd (load_env_from_file w s)) !! key
          = configured before (environ s) key) /\
    (forall msg,
        env_file w = Err msg ->
        load_env_from_file w s = (Err (Exception msg), s)).
Proof.
  intros w s. unfold load_env_from_file. split; [|split].
  - intros lines -> Hnone. now apply load_env_lines_accepted.
  - intros lines before kv after -> Hpairs Hnone Href.
    now apply (load_env_lines_refused lines s before after kv).
  - intros msg ->. reflexivity.
Qed.

Lemma load_env_file_never_overrides_the_environment_witness :
  fst (load_env_from_file
         (Examples.with_env_file
            (Examples.world Examples.one_report_tree Examples.no_builders
               (Examples.always Examples.name_x_response) Examples.disk_fine)
            (Ok Examples.env_lines_with_nul))
         (initial ∅))
  = Err (Exception (py "embedded null byte")) /\
  environ (snd (load_env_from_file
                  (Examples.with_env_file
                     (Examples.world Examples.one_report_tree Examples.no_builders
                        (Examples.always Examples.name_x_response) Examples.disk_fine)
                     (Ok Examples.env_lines_with_nul))
                  (initial ∅))) !! py "DEEPSEEK_BASE_URL"
  = Some (py "https://example.test") /\
  environ (snd (load_env_from_file
                  (Examples.with_env_file
                     (Examples.world Examples.one_report_tree Examples.no_builders
                        (Examples.always Examples.name_x_response) Examples.disk_fine)
                     (Ok Examples.env_lines_with_nul))
                  (initial ∅))) !! py "OTHER"
  = None.
Proof.
  destruct (proj1 (proj2 (load_env_file_never_overrides_the_environment
              (Examples.with_env_file
                 (Examples.world Examples.one_report_tree Examples.no_builders
                    (Examples.always Examples.name_x_response) Examples.disk_fine)
                 (Ok Examples.env_lines_with_nul))
              (initial ∅)))
              Examples.env_lines_with_nul
              [(py "DEEPSEEK_BASE_URL", py "https://example.test")]
              (py "DEEPSEEK_API_KEY", py "sk" ++ [0] ++ py "x")
              [(py "OTHER", py "1")]
              eq_refl)
    as [Herr Hlook].
  - vm_compute. reflexivity.
  - apply none_refused_without_nul. constructor; [|constructor].
    split; vm_compute; reflexivity.
  - split; [vm_compute; reflexivity|]. split; [vm_compute; reflexivity|].
    right. vm_compute. reflexivity.
  - split; [exact Herr|]. split.
    + etransitivity; [apply Hlook|]. vm_compute. reflexivity.
    + etransitivity; [apply Hlook|]. vm_compute. reflexivity.
Defined.

(** For every environment file and every environment: when the file is
    loaded without a refused assignment, the client that [main] creates
    after it has the API key of the environment when [DEEPSEEK_API_KEY]
    is set there, and the one of the file otherwise; with an empty key,
    from either place, or no key at all, [create_client] raises
    [SystemExit].  The base URL comes from [DEEPSEEK_BASE_URL] in the same
    way, also when it is empty, and is the address of DeepSeek when it is
    set nowhere.  When the loading of the file raises, no client is
    created and the exception of the loading is the one raised. *)
Theorem create_client_takes_the_key_of_the_environment_first :
  forall (w : World) (s : state),
    (forall lines,
        env_file w = Ok lines ->
        none_refused (env_pairs lines) (environ s) ->
        fst (bind (load_env_from_file w) (fun _ => create_client) s)
        = match configured (env_pairs lines) (environ s) (py "DEEPSEEK_API_KEY") with
          | Some (c :: k) =>
            Ok {| api_key := c :: k;
                  base_url :=
                    match configured (env_pairs lines) (environ s)
                            (py "DEEPSEEK_BASE_URL") with
                    | Some u => u
                    | None => py "https://api.deepseek.com"
                    end |}
          | _ => Err (SystemExit (py "请先在环境变量中设置 DEEPSEEK_API_KEY"))
          end) /\
    (forall e,
        fst (load_env_from_file w s) = Err e ->
        fst (bind (load_env_from_file w) (fun _ => create_client) s) = Err e).
Proof.
  intros w s. split.
  - intros lines Hfile Hnone.
    assert (Hload : fst (load_env_from_file w s) = Ok tt /\
                    forall key,
                      environ (snd (load_env_from_file w s)) !! key
                      = configured (env_pairs lines) (environ s) key).
    { unfold load_env_from_file. rewrite Hfile. now apply load_env_lines_accepted. }
    destruct Hload as [Hok Hlook].
    pose proof (Hlook (py "DEEPSEEK_API_KEY")) as Hkey.
    pose proof (Hlook (py "DEEPSEEK_BASE_URL")) as Hurl.
    unfold bind.
    destruct (load_env_from_file w s) as [[[]|e] s1]; cbn [fst snd] in Hok, Hkey, Hurl;
      [|discriminate].
    rewrite (create_client_with s1 _ _ Hkey Hurl). reflexivity.
  - intros e H. unfold bind.
    destruct (load_env_from_file w s) as [[[]|e0] s1]; cbn [fst] in H |- *;
      [discriminate | injection H as ->; reflexivity].
Qed.

Lemma create_client_takes_the_key_of_the_environment_first_witness :
  fst (bind (load_env_from_file
               (Examples.world Examples.one_report_tree Examples.no_builders
                  (Examples.always Examples.name_x_response) Examples.disk_fine))
         (fun _ => create_client) (initial ∅))
  = Ok {| api_key := py "sk-test"; base_url := py "https://api.deepseek.com" |}.
Proof.
  etransitivity.
  - apply (proj1 (create_client_takes_the_key_of_the_environment_first
                    (Examples.world Examples.one_report_tree Examples.no_builders
                       (Examples.always Examples.name_x_response) Examples.disk_fine)
                    (initial ∅))
             [py "DEEPSEEK_API_KEY=sk-test"] eq_refl).
    apply none_refused_without_nul. constructor; [|constructor].
    split; vm_compute; reflexivity.
  - vm_compute. reflexivity.
Defined.

(** For every run whose environment file is loaded without a refused
    assignment and whose input directory exists: when, after the loading,
    [DEEPSEEK_API_KEY] is unset or empty, [main] ends with the
    [SystemExit] of [create_client] and has performed no operation: no
    file was read into a report, no request was sent, nothing was
    written.  An empty key in the environment hides the key of the file.
    When the loading of the environment file raises, [main] ends with
    that exception instead, before the client, and has performed no
    operation either. *)
Theorem main_stops_without_a_key_before_any_operation :
  forall (w : World) (args : Args) (env : gmap str str),
    (forall lines,
        env_file w = Ok lines ->
        none_refused (env_pairs lines) env ->
        input_exists w = true ->
        configured (env_pairs lines) env (py "DEEPSEEK_API_KEY") = None \/
        configured (env_pairs lines) env (py "DEEPSEEK_API_KEY") = Some [] ->
        fst (main w args (initial env))
        = Err (SystemExit (py "请先在环境变量中设置 DEEPSEEK_API_KEY")) /\
        log (snd (main w args (initial env))) = [] /\
        people (snd (main w args (initial env))) = []) /\
    (forall e,
        fst (load_env_from_file w (initial env)) = Err e ->
        fst (main w args (initial env)) = Err e /\
        log (snd (main w args (initial env))) = [] /\
        people (snd (main w args (initial env))) = []).
Proof.
  intros w args env. split.
  - intros lines Hfile Hnone Hin Hkey.
    assert (Hload : fst (load_env_from_file w (initial env)) = Ok tt /\
                    forall key,
                      environ (snd (load_env_from_file w (initial env))) !! key
                      = configured (env_pairs lines) env key).
    { unfold load_env_from_file. rewrite Hfile.
      now apply (load_env_lines_accepted lines (initial env)). }
    destruct Hload as [Hok Hlook].
    pose proof (Hlook (py "DEEPSEEK_API_KEY")) as Hl.
    destruct (load_env_from_file_frame w (initial env)) as [Hlog Hp].
    unfold main, bind. rewrite Hin. cbn [negb].
    destruct (load_env_from_file w (initial env)) as [[[]|e] s1];
      cbn [fst snd] in Hok, Hl, Hp, Hlog; [|discriminate].
    rewrite (create_client_with s1 _ _ Hl eq_refl).
    destruct Hkey as [-> | ->]; cbn [fst snd]; auto.
  - intros e H. exact (main_stops_when_loading_raises w args (initial env) e H).
Qed.

Lemma main_stops_without_a_key_before_any_operation_witness :
  fst (main (Examples.world Examples.one_report_tree Examples.no_builders
               (Examples.always Examples.name_x_response) Examples.disk_fine)
         Examples.args (initial {[ py "DEEPSEEK_API_KEY" := [] ]}))
  = Err (SystemExit (py "请先在环境变量中设置 DEEPSEEK_API_KEY")).
Proof.
  refine (proj1 (proj1 (main_stops_without_a_key_before_any_operation
                   (Examples.world Examples.one_report_tree Examples.no_builders
                      (Examples.always Examples.name_x_response) Examples.disk_fine)
                   Examples.args {[ py "DEEPSEEK_API_KEY" := [] ]})
                   [py "DEEPSEEK_API_KEY=sk-test"] eq_refl _ eq_refl _)).
  - apply none_refused_without_nul. constructor; [|constructor].
    split; vm_compute; reflexivity.
  - right. vm_compute. reflexivity.
Defined.

(* ================================================================== *)
(** * The requests of a run *)
(* ================================================================== *)

Section RequestFacts.

Variable w : World.
Variable args : Args.

Let individual (r : Report) : request :=
  individual_request w (model args) r (temperature args) (max_tokens_individual args).

Let aggregate (prompt : str) : request :=
  aggregate_request w (aggregate_model args) prompt (temperature args)
    (max_tokens_aggregate args).

(** What [summarize_individual] sends for a report: its request, and
    nothing when the loading of the builders raises. *)
Let sent_for (r : Report) : list request :=
  match individual_prompts w with
  | Ok _ => [individual r]
  | Err _ => []
  end.

Lemma requests_of_app (a b : list event) :
  requests_of (a ++ b) = requests_of a ++ requests_of b.
Proof. unfold requests_of. apply flat_map_app. Qed.

Lemma requests_of_request (s : state) (req : request) :
  requests_of (log (add_event (EApi req) s)) = requests_of (log s) ++ [req].
Proof. unfold add_event. cbn [log]. apply requests_of_app. Qed.

Lemma requests_of_write (s : state) (p : Pathlib.path) (text : str) :
  requests_of (log (add_event (EWrite p text) s)) = requests_of (log s).
Proof.
  unfold add_event. cbn [log]. rewrite requests_of_app.
  unfold requests_of at 2. cbn [flat_map app]. apply app_nil_r.
Qed.

Lemma write_text_requests (dest : Pathlib.path) (text : str) (s : state) :
  requests_of (log (snd (write_text w dest text s))) = requests_of (log s) /\
  people (snd (write_text w dest text s)) = people s.
Proof.
  unfold write_text.
  destruct (write_error w (count_writes (log s))); cbn [snd];
    split; try apply requests_of_write; reflexivity.
Qed.

Ltac step_write Hr Hp :=
  match goal with
  | |- context [write_text ?w ?d ?t ?s0] =>
    destruct (write_text_requests d t s0) as [Hr Hp];
    cbn [log people environ] in Hr, Hp
  end.

Lemma summarize_individual_sent (report : Report) (s s1 : state)
    (r : result exn json) :
  summarize_individual w (model args) report (temperature args)
    (max_tokens_individual args) s = (r, s1) ->
  requests_of (log s1) = requests_of (log s) ++ sent_for report /\
  people s1 = people s.
Proof.
  intros Hs.
  pose proof (summarize_individual_state w (model args) report (temperature args)
                (max_tokens_individual args) s) as Hst.
  rewrite Hs in Hst. cbn [snd] in Hst. subst s1. unfold sent_for.
  destruct (individual_prompts w) as [[]|e0].
  - split; [apply requests_of_request | reflexivity].
  - split; [symmetry; apply app_nil_r | reflexivity].
Qed.

(** Whether the summary is written or the placeholder, and whether the
    writes fail or not: one report, one request unless the loading of
    the builders raises, one or two entries appended. *)
Lemma process_report_request (P : json -> Prop) (report : Report) (s : state) :
  requests_of (log (snd (process_report w args report s)))
  = requests_of (log s) ++ sent_for report /\
  (entries_satisfy w args P report -> Forall P (people s) ->
   Forall P (people (snd (process_report w args report s)))).
Proof.
  unfold process_report, try_except, bind.
  destruct (summarize_individual w (model args) report (temperature args)
              (max_tokens_individual args) s) as [[summary|e] s1] eqn:Hs.
  - assert (Hobj : entries_satisfy w args P report -> P summary).
    { intros [Hsum _]. exact (Hsum _ _ _ Hs). }
    destruct (summarize_individual_sent report s s1 _ Hs) as [Hreq Hpeople].
    clear Hs.
    unfold append_people, lift, per_report_dest.
    destruct (relative_to (path report) (input args)) as [rel|]; cbv beta iota.
    + step_write Hr Hp.
      match goal with |- context [write_text w ?d ?t ?s0] =>
        destruct (write_text w d t s0) as [[[]|[m|m]] s2]
      end; cbn [snd] in Hr, Hp |- *.
      * rewrite Hr, Hp, Hreq, Hpeople. split; [reflexivity|].
        intros HP Hall. apply Forall_app. split; [exact Hall|].
        constructor; [now apply Hobj | constructor].
      * rewrite Hr, Hp, Hreq, Hpeople. split; [reflexivity|].
        intros HP Hall. apply Forall_app. split; [exact Hall|].
        constructor; [now apply Hobj | constructor].
      * step_write Hr' Hp'.
        rewrite Hr', Hp', Hr, Hp, Hreq, Hpeople. split; [reflexivity|].
        intros HP Hall. apply Forall_app. split.
        -- apply Forall_app. split; [exact Hall|].
           constructor; [now apply Hobj | constructor].
        -- constructor; [apply HP | constructor].
    + cbn [snd people log environ]. rewrite Hreq, Hpeople.
      split; [reflexivity|].
      intros HP Hall. apply Forall_app. split.
      * apply Forall_app. split; [exact Hall|].
        constructor; [now apply Hobj | constructor].
      * constructor; [apply HP | constructor].
  - destruct (summarize_individual_sent report s s1 _ Hs) as [Hreq Hpeople].
    clear Hs.
    destruct e as [m|m]; cbv beta iota.
    + cbn [snd]. rewrite Hreq, Hpeople. split; [reflexivity|]. intros _ Hall. exact Hall.
    + unfold append_people, lift, per_report_dest.
      destruct (relative_to (path report) (input args)) as [rel|]; cbv beta iota.
      * step_write Hr Hp.
        rewrite Hr, Hp, Hreq, Hpeople. split; [reflexivity|].
        intros HP Hall. apply Forall_app. split; [exact Hall|].
        constructor; [apply HP | constructor].
      * cbn [snd people log environ]. rewrite Hreq, Hpeople.
        split; [reflexivity|].
        intros HP Hall. apply Forall_app. split; [exact Hall|].
        constructor; [apply HP | constructor].
Qed.

Lemma for_each_requests (P : json -> Prop) (reports : list Report) (s : state) :
  exists sent rest,
    reports = sent ++ rest /\
    requests_of (log (snd (for_each reports (process_report w args) s)))
    = requests_of (log s) ++ flat_map sent_for sent /\
    (fst (for_each reports (process_report w args) s) = Ok tt -> rest = []) /\
    (Forall (entries_satisfy w args P) reports -> Forall P (people s) ->
     Forall P (people (snd (for_each reports (process_report w args) s)))).
Proof.
  revert s. induction reports as [|r reports IH]; intros s.
  - exists [], []. cbn [for_each]. unfold ret. cbn [fst snd flat_map].
    split; [reflexivity|]. split; [symmetry; apply app_nil_r|]. split; auto.
  - cbn [for_each]. unfold bind.
    destruct (process_report_request P r s) as [Hr Hp].
    destruct (process_report w args r s) as [[[]|e] s1]; cbn [snd] in Hr, Hp.
    + destruct (IH s1) as (sent & rest & -> & Hreq & Hok & Hobj).
      exists (r :: sent), rest. split; [reflexivity|].
      rewrite Hreq, Hr. cbn [flat_map]. rewrite <- app_assoc.
      split; [reflexivity|]. split; [exact Hok|].
      intros HP Hall.
      apply (proj1 (List.Forall_cons_iff _ _ _)) in HP as [HPr HPs].
      apply Hobj; [exact HPs|]. now apply Hp.
    + exists [r], reports. cbn [fst snd flat_map]. split; [reflexivity|].
      rewrite app_nil_r. split; [exact Hr|]. split; [discriminate|].
      intros HP Hall.
      apply (proj1 (List.Forall_cons_iff _ _ _)) in HP as [HPr HPs].
      now apply Hp.
Qed.

Lemma summarize_phase_requests (P : json -> Prop) (reports : list Report) (s : state) :
  exists sent rest,
    reports = sent ++ rest /\
    requests_of (log (snd (summarize_phase w args reports s)))
    = requests_of (log s) ++ flat_map sent_for sent /\
    (fst (summarize_phase w args reports s) = Ok tt -> rest = []) /\
    (Forall (entries_satisfy w args P) reports -> Forall P (people s) ->
     Forall P (people (snd (summarize_phase w args reports s)))).
Proof.
  destruct (for_each_requests P reports s) as (sent & rest & Hsplit & Hreq & Hok & Hobj).
  exists sent, rest. split; [exact Hsplit|].
  unfold summarize_phase, bind, get_people.
  destruct (for_each reports (process_report w args) s) as [[[]|e] s1];
    cbn [fst snd] in Hreq, Hok, Hobj.
  - match goal with |- context [write_text w ?d ?t ?s0] =>
      destruct (write_text_requests d t s0) as [Hr Hp];
      destruct (write_text w d t s0) as [[[]|e] s2]
    end; cbn [fst snd] in Hr, Hp |- *; rewrite Hr, Hp;
      (split; [exact Hreq|]); (split; [|exact Hobj]).
    + intros _. now apply Hok.
    + discriminate.
  - cbn [fst snd]. split; [exact Hreq|]. split; [discriminate | exact Hobj].
Qed.

Lemma summaries_are_objects (report : Report) : entries_satisfy w args is_object report.
Proof.
  split.
  - intros s data s1 Hs.
    destruct (summarize_individual_ok _ _ _ _ _ _ _ _ Hs)
      as (content & d0 & d & _ & _ & -> & _). now exists d.
  - intros msg. eexists. reflexivity.
Qed.

Lemma objects_compact (batch : list json) :
  Forall is_object batch -> exists compact, compact_people batch = Ok compact.
Proof.
  induction 1 as [|v rest [d ->] _ [compact IH]].
  - now exists [].
  - exists (compact_person d :: compact). cbn [compact_people]. now rewrite IH.
Qed.

Lemma flat_map_sent_for (sent : list Report) :
  flat_map sent_for sent
  = match individual_prompts w with
    | Ok _ => map individual sent
    | Err _ => []
    end.
Proof.
  unfold sent_for. destruct (individual_prompts w) as [[]|e].
  - induction sent as [|r sent IH]; [reflexivity|]. cbn [flat_map map app].
    now rewrite IH.
  - induction sent as [|r sent IH]; [reflexivity|]. exact IH.
Qed.

Lemma objects_prompt (b : option builder) (batch : list json) (extra : option str) :
  Forall is_object batch ->
  exists prompt, build_aggregate_prompt (Loaded b) batch extra = Ok prompt.
Proof.
  intros Hall. destruct (objects_compact batch Hall) as [compact Hc].
  unfold build_aggregate_prompt. rewrite Hc.
  destruct b as [build|]; [|now eexists].
  destruct (build (aggregate_ctx compact)); now eexists.
Qed.

Lemma not_found_prompt (missing : str) (batch : list json) (extra : option str) :
  exists e, build_aggregate_prompt (ModuleNotFound missing) batch extra = Err e.
Proof.
  unfold build_aggregate_prompt.
  destruct (compact_people batch); now eexists.
Qed.

(** One run of [aggregate_review]: the prompt, the loading of the builder
    of the system prompt, then one request. *)
Lemma aggregate_review_run (batch : list json) (s : state) :
  aggregate_review w (aggregate_model args) batch (temperature args) (plan_prompt args)
    (max_tokens_aggregate args) s
  = match build_aggregate_prompt
            (load_prompt_builder w (py "prompts.aggregate.prompt") (py "build_prompt"))
            batch (plan_prompt args) with
    | Err e => (Err e, s)
    | Ok prompt =>
      match load (load_prompt_builder w (py "prompts.aggregate.prompt")
                    (py "build_system_prompt")) with
      | Err e => (Err e, s)
      | Ok _ =>
        ( match chat_completions_create w (count_api (log s)) (aggregate prompt) with
          | ApiError msg => Err (Exception (py "调用模型失败: " ++ msg))
          | ApiContent None => Err (Exception (py "模型未返回内容"))
          | ApiContent (Some content) =>
            if nonempty content then Ok (strip content)
            else Err (Exception (py "模型未返回内容"))
          end,
          add_event (EApi (aggregate prompt)) s )
      end
    end.
Proof.
  unfold aggregate_review, bind, lift, try_except, create_completion, raise, ret.
  destruct (build_aggregate_prompt _ batch (plan_prompt args)) as [prompt|e];
    [|reflexivity].
  destruct (load _) as [b|e]; [|reflexivity].
  fold (aggregate prompt).
  destruct (chat_completions_create w (count_api (log s)) (aggregate prompt))
    as [msg | [content|]]; try reflexivity.
  destruct (nonempty content); reflexivity.
Qed.

(** The two ways of [aggregate_review]: it raises before the request,
    for the compaction or for the loading of a builder, or it sends the
    request with the prompt it has built. *)
Lemma aggregate_review_cases (batch : list json) (s : state) :
  (exists msg,
      msg <> [] /\
      aggregate_review w (aggregate_model args) batch (temperature args)
        (plan_prompt args) (max_tokens_aggregate args) s = (Err (Exception msg), s) /\
      (Forall is_object batch ->
       builder_loads w (py "prompts.aggregate.prompt") (py "build_prompt") ->
       builder_loads w (py "prompts.aggregate.prompt") (py "build_system_prompt") ->
       False)) \/
  (exists prompt r,
      aggregate_review w (aggregate_model args) batch (temperature args)
        (plan_prompt args) (max_tokens_aggregate args) s
      = (r, add_event (EApi (aggregate prompt)) s) /\
      build_aggregate_prompt
        (load_prompt_builder w (py "prompts.aggregate.prompt") (py "build_prompt"))
        batch (plan_prompt args) = Ok prompt /\
      builder_loads w (py "prompts.aggregate.prompt") (py "build_prompt") /\
      builder_loads w (py "prompts.aggregate.prompt") (py "build_system_prompt") /\
      r = match chat_completions_create w (count_api (log s)) (aggregate prompt) with
          | ApiError msg => Err (Exception (py "调用模型失败: " ++ msg))
          | ApiContent None => Err (Exception (py "模型未返回内容"))
          | ApiContent (Some content) =>
            if nonempty content then Ok (strip content)
            else Err (Exception (py "模型未返回内容"))
          end).
Proof.
  pose proof (aggregate_review_error w (aggregate_model args) batch (temperature args)
                (plan_prompt args) (max_tokens_aggregate args) s) as Herr.
  rewrite aggregate_review_run in Herr |- *.
  destruct (build_aggregate_prompt _ batch (plan_prompt args)) as [prompt|e] eqn:Hb.
  - destruct (load_prompt_builder w _ (py "build_system_prompt")) as [b|missing] eqn:Hsys;
      cbn [load] in Herr |- *.
    + right. exists prompt. eexists. split; [reflexivity|]. split; [reflexivity|].
      split; [|split; [now exists b | reflexivity]].
      destruct (load_prompt_builder w _ (py "build_prompt")) as [b'|missing] eqn:Hl.
      * unfold builder_loads. rewrite Hl. now exists b'.
      * destruct (not_found_prompt missing batch (plan_prompt args)) as [e He].
        rewrite He in Hb. discriminate Hb.
    + left. destruct (Herr s _ eq_refl) as (msg & -> & Hne).
      exists msg. split; [exact Hne|]. split; [reflexivity|].
      intros _ _ [b Hb']. unfold builder_loads in Hb'. congruence.
  - left. destruct (Herr s _ eq_refl) as (msg & -> & Hne).
    exists msg. split; [exact Hne|]. split; [reflexivity|].
    intros Hall [b Hl] _. rewrite Hl in Hb.
    destruct (objects_prompt b batch (plan_prompt args) Hall) as [prompt Hp].
    rewrite Hp in Hb. discriminate Hb.
Qed.

(** The aggregate phase after [aggregate_review]: the review or the
    failure message is written, and the run ends normally only after a
    review. *)
Lemma aggregate_phase_after (s s1 : state) (r : result exn str) :
  aggregate_review w (aggregate_model args) (people s) (temperature args)
    (plan_prompt args) (max_tokens_aggregate args) s = (r, s1) ->
  (forall m, r <> Err (SystemExit m)) ->
  (forall m, r = Err (Exception m) -> m <> []) ->
  requests_of (log (snd (aggregate_phase w args s))) = requests_of (log s1) /\
  people (snd (aggregate_phase w args s)) = people s1 /\
  (fst (aggregate_phase w args s) = Ok tt ->
   exists markdown,
     r = Ok markdown /\
     snd (aggregate_phase w args s)
     = add_event (EWrite (report_path args) (header w args ++ markdown ++ nl)) s1).
Proof.
  intros Hrun Hexit Hmsg.
  unfold aggregate_phase, bind, get_people, try_except, ret. cbv beta iota.
  rewrite Hrun.
  destruct r as [markdown | [m|m]]; cbv beta iota.
  - match goal with |- context [write_text w ?d ?t ?s0] =>
      destruct (write_text_requests d t s0) as [Hr Hp]
    end.
    unfold write_text in *.
    destruct (write_error w (count_writes (log s1))); cbn [fst snd] in *.
    + split; [exact Hr|]. split; [exact Hp | discriminate].
    + split; [exact Hr|]. split; [exact Hp|]. intros _. now exists markdown.
  - now elim (Hexit m).
  - match goal with |- context [write_text w ?d ?t ?s0] =>
      destruct (write_text_requests d t s0) as [Hr Hp]
    end.
    specialize (Hmsg m eq_refl). apply nonempty_true in Hmsg.
    unfold write_text, raise in *.
    destruct (write_error w (count_writes (log s1))); cbn [fst snd] in *.
    + split; [exact Hr|]. split; [exact Hp | discriminate].
    + rewrite Hmsg. cbn [fst snd]. split; [exact Hr|]. split; [exact Hp | discriminate].
Qed.

(** The aggregate phase sends a request unless the prompt cannot be
    built or a builder cannot be loaded, and ends normally only after an
    answer with content. *)
Lemma aggregate_phase_requests (s : state) :
  exists agg,
    requests_of (log (snd (aggregate_phase w args s))) = requests_of (log s) ++ agg /\
    (agg = [] \/ exists prompt, agg = [aggregate prompt]) /\
    (fst (aggregate_phase w args s) = Ok tt -> agg <> []) /\
    (Forall is_object (people s) ->
     builder_loads w (py "prompts.aggregate.prompt") (py "build_prompt") ->
     builder_loads w (py "prompts.aggregate.prompt") (py "build_system_prompt") ->
     agg <> []) /\
    (~ builder_loads w (py "prompts.aggregate.prompt") (py "build_prompt") \/
     ~ builder_loads w (py "prompts.aggregate.prompt") (py "build_system_prompt") ->
     agg = []).
Proof.
  destruct (aggregate_review_cases (people s) s)
    as [(msg & Hne & Hrun & Hno) | (prompt & r & Hrun & Hb & Hl1 & Hl2 & Hr)].
  - destruct (aggregate_phase_after s s _ Hrun) as (Hreq & _ & Hok).
    { discriminate. }
    { intros m E. injection E as <-. exact Hne. }
    exists []. rewrite Hreq, app_nil_r. split; [reflexivity|]. split; [now left|].
    split; [|split].
    + intros E. destruct (Hok E) as (markdown & Hm & _). discriminate Hm.
    + intros H1 H2 H3. now elim (Hno H1 H2 H3).
    + reflexivity.
  - destruct (aggregate_phase_after s _ _ Hrun) as (Hreq & _ & _).
    { intros m E. rewrite E in Hr.
      destruct (chat_completions_create w _ _) as [x|[c|]];
        [| destruct (nonempty c) |]; discriminate Hr. }
    { intros m E. rewrite E in Hr.
      destruct (chat_completions_create w _ _) as [x|[c|]];
        [| destruct (nonempty c) |];
        first [discriminate Hr | injection Hr as ->; vm_compute; discriminate]. }
    exists [aggregate prompt]. rewrite Hreq, requests_of_request.
    split; [reflexivity|]. split; [right; now exists prompt|].
    split; [discriminate|]. split; [discriminate|].
    intros [H | H]; [now elim H | now elim H].
Qed.

Lemma aggregate_phase_people (s : state) :
  people (snd (aggregate_phase w args s)) = people s.
Proof.
  destruct (aggregate_review_cases (people s) s)
    as [(msg & Hne & Hrun & Hno) | (prompt & r & Hrun & Hb & Hl1 & Hl2 & Hr)].
  - destruct (aggregate_phase_after s s _ Hrun) as (_ & Hp & _).
    { discriminate. }
    { intros m E. injection E as <-. exact Hne. }
    exact Hp.
  - destruct (aggregate_phase_after s _ _ Hrun) as (_ & Hp & _).
    { intros m E. rewrite E in Hr.
      destruct (chat_completions_create w _ _) as [x|[c|]];
        [| destruct (nonempty c) |]; discriminate Hr. }
    { intros m E. rewrite E in Hr.
      destruct (chat_completions_create w _ _) as [x|[c|]];
        [| destruct (nonempty c) |];
        first [discriminate Hr | injection Hr as ->; vm_compute; discriminate]. }
    exact Hp.
Qed.

End RequestFacts.

(** For every run of [main] that collects the sequence [reports]: the
    requests of the run are the individual requests of a prefix [sent] of
    the reports, one for each report and in the order of the reports, or
    none of them when the loading of the builders of the individual
    prompts raises, followed by at most one request of the aggregate
    phase, which is only sent when every report had its turn.  No request
    is sent twice.  When the summaries and the batch file are written,
    the aggregate request is sent if the two builders of the aggregate
    prompts are loaded without exception, and no request is sent when
    the loading of one of them raises; and a run that ends normally has
    gone through every report and sent the aggregate request. *)
Theorem main_sends_one_request_per_report_then_one_for_the_review :
  forall (w : World) (args : Args) (env : gmap str str) (reports : list Report),
    collect_reports (read_text_file w) (read_docx_file w) (input args) (tree w)
    = Ok reports ->
    exists sent rest agg,
      reports = sent ++ rest /\
      requests_of (log (snd (main w args (initial env))))
      = match individual_prompts w with
        | Ok _ => map (fun r => individual_request w (model args) r (temperature args)
                                  (max_tokens_individual args)) sent
        | Err _ => []
        end ++ agg /\
      (agg = [] \/
       rest = [] /\
       exists prompt,
         agg = [aggregate_request w (aggregate_model args) prompt (temperature args)
                  (max_tokens_aggregate args)]) /\
      (fst (collect_and_summarize w args (initial env)) = Ok tt ->
       rest = [] /\
       (builder_loads w (py "prompts.aggregate.prompt") (py "build_prompt") ->
        builder_loads w (py "prompts.aggregate.prompt") (py "build_system_prompt") ->
        agg <> []) /\
       (~ builder_loads w (py "prompts.aggregate.prompt") (py "build_prompt") \/
        ~ builder_loads w (py "prompts.aggregate.prompt") (py "build_system_prompt") ->
        agg = [])) /\
      (fst (main w args (initial env)) = Ok tt -> rest = [] /\ agg <> []).
Proof.
  intros w args env reports Hc.
  assert (Hstop : forall (r : result exn unit) (s : state),
             r <> Ok tt -> log s = [] ->
             exists sent rest agg,
               reports = sent ++ rest /\
               requests_of (log s)
               = match individual_prompts w with
                 | Ok _ => map (fun r => individual_request w (model args) r
                                           (temperature args)
                                           (max_tokens_individual args)) sent
                 | Err _ => []
                 end ++ agg /\
               (agg = [] \/
                rest = [] /\
                exists prompt,
                  agg = [aggregate_request w (aggregate_model args) prompt
                           (temperature args) (max_tokens_aggregate args)]) /\
               (r = Ok tt ->
                rest = [] /\
                (builder_loads w (py "prompts.aggregate.prompt") (py "build_prompt") ->
                 builder_loads w (py "prompts.aggregate.prompt")
                   (py "build_system_prompt") ->
                 agg <> []) /\
                (~ builder_loads w (py "prompts.aggregate.prompt") (py "build_prompt") \/
                 ~ builder_loads w (py "prompts.aggregate.prompt")
                     (py "build_system_prompt") ->
                 agg = [])) /\
               (r = Ok tt -> rest = [] /\ agg <> [])).
  { intros r s Hr Hlog. exists [], reports, []. rewrite Hlog.
    split; [reflexivity|]. split; [now destruct (individual_prompts w)|].
    split; [now left|].
    split; intros E; now elim Hr. }
  rewrite main_split. unfold bind at 1 2.
  unfold collect_and_summarize, bind, raise, lift.
  destruct (load_env_from_file_frame w (initial env)) as [Hl0 Hp0].
  destruct (load_env_from_file w (initial env)) as [[[]|e0] s0];
    cbn [snd] in Hp0, Hl0; cbn [initial people log] in Hp0, Hl0.
  2:{ cbn [fst snd]. apply Hstop; [discriminate | exact Hl0]. }
  destruct (negb (input_exists w)).
  { cbn [fst snd]. apply Hstop; [discriminate | exact Hl0]. }
  pose proof (create_client_log s0) as Hl1.
  pose proof (create_client_with s0 _ _ eq_refl eq_refl) as Hcl.
  destruct (create_client s0) as [[c|e1] s1]; cbn [snd] in Hl1.
  2:{ cbn [fst snd]. apply Hstop; [discriminate | now rewrite Hl1]. }
  assert (Hs1 : s1 = s0) by (injection Hcl as _ ->; reflexivity).
  subst s1. rewrite Hc.
  destruct reports as [|r0 reports'].
  { cbn [fst snd]. apply Hstop; [discriminate | exact Hl0]. }
  destruct (summarize_phase_requests w args is_object (r0 :: reports') s0)
    as (sent & rest & Hsplit & Hreq & Hok & Hobj).
  rewrite Hl0, flat_map_sent_for in Hreq. cbn [requests_of flat_map app] in Hreq.
  rewrite Hp0 in Hobj.
  assert (Hsum : Forall (entries_satisfy w args is_object) (r0 :: reports')).
  { apply List.Forall_forall. intros r _. apply summaries_are_objects. }
  specialize (Hobj Hsum (List.Forall_nil _)).
  destruct (summarize_phase w args (r0 :: reports') s0) as [[[]|e2] s2];
    cbn [fst snd] in Hreq, Hok, Hobj |- *.
  - destruct (aggregate_phase_requests w args s2)
      as (agg & Hagg & Hshape & Hend & Hsent & Hnot).
    specialize (Hok eq_refl). specialize (Hsent Hobj).
    exists sent, rest, agg. split; [exact Hsplit|].
    rewrite Hagg, Hreq. split; [reflexivity|]. split.
    + destruct Hshape as [-> | Hshape]; [now left | right; split; assumption].
    + split.
      * intros _. split; [exact Hok|]. split; [exact Hsent | exact Hnot].
      * intros E. split; [exact Hok | exact (Hend E)].
  - exists sent, rest, []. split; [exact Hsplit|].
    rewrite Hreq, app_nil_r. split; [reflexivity|]. split; [now left|].
    split; discriminate.
Qed.

(* ================================================================== *)
(** * The run that ends normally *)
(* ================================================================== *)

Section NormalEnd.

Variable w : World.
Variable args : Args.

Lemma summarize_phase_ok (reports : list Report) (s0 s : state) :
  summarize_phase w args reports s0 = (Ok tt, s) ->
  exists mid,
    s = add_event (EWrite (people_path args) (dumps (JArr (people mid)))) mid.
Proof.
  unfold summarize_phase, bind, get_people, write_text.
  destruct (for_each reports (process_report w args) s0) as [[[]|e] s1];
    [|discriminate].
  destruct (write_error w (count_writes (log s1))); [discriminate|].
  intros H. injection H as <-. now exists s1.
Qed.

Lemma collect_and_summarize_ok (s0 s : state) :
  collect_and_summarize w args s0 = (Ok tt, s) ->
  exists mid,
    s = add_event (EWrite (people_path args) (dumps (JArr (people mid)))) mid.
Proof.
  unfold collect_and_summarize, bind, raise, lift.
  destruct (load_env_from_file w s0) as [[[]|e0] s1]; [|discriminate].
  destruct (negb (input_exists w)); [discriminate|].
  destruct (create_client s1) as [[c|e1] s2]; [|discriminate].
  destruct (collect_reports _ _ _ _) as [[|r reports]|e2]; try discriminate.
  apply summarize_phase_ok.
Qed.

Lemma aggregate_phase_ok (s s' : state) :
  aggregate_phase w args s = (Ok tt, s') ->
  exists prompt content,
    build_aggregate_prompt
      (load_prompt_builder w (py "prompts.aggregate.prompt") (py "build_prompt"))
      (people s) (plan_prompt args) = Ok prompt /\
    builder_loads w (py "prompts.aggregate.prompt") (py "build_system_prompt") /\
    chat_completions_create w (count_api (log s))
      (aggregate_request w (aggregate_model args) prompt (temperature args)
         (max_tokens_aggregate args)) = ApiContent (Some content) /\
    content <> [] /\
    s' = add_event (EWrite (report_path args) (header w args ++ strip content ++ nl))
           (add_event
              (EApi (aggregate_request w (aggregate_model args) prompt (temperature args)
                       (max_tokens_aggregate args))) s).
Proof.
  intros H.
  destruct (aggregate_review_cases w args (people s) s)
    as [(msg & Hne & Hrun & Hno) | (prompt & r & Hrun & Hb & Hl1 & Hl2 & Hr)].
  - destruct (aggregate_phase_after w args s s _ Hrun) as (_ & _ & Hok).
    { discriminate. }
    { intros m E. injection E as <-. exact Hne. }
    rewrite H in Hok. destruct (Hok eq_refl) as (markdown & Hm & _). discriminate Hm.
  - destruct (aggregate_phase_after w args s _ _ Hrun) as (_ & _ & Hok).
    { intros m E. rewrite E in Hr.
      destruct (chat_completions_create w _ _) as [x|[c|]];
        [| destruct (nonempty c) |]; discriminate Hr. }
    { intros m E. rewrite E in Hr.
      destruct (chat_completions_create w _ _) as [x|[c|]];
        [| destruct (nonempty c) |];
        first [discriminate Hr | injection Hr as ->; vm_compute; discriminate]. }
    rewrite H in Hok. destruct (Hok eq_refl) as (markdown & Hm & Hs').
    cbn [snd] in Hs'. rewrite Hm in Hr. clear Hok Hm Hrun.
    destruct (chat_completions_create w _ _) as [x|[content|]] eqn:Hc;
      try discriminate Hr.
    destruct (nonempty content) eqn:Hn; [|discriminate Hr].
    injection Hr as ->.
    exists prompt, content. split; [exact Hb|]. split; [exact Hl2|].
    split; [exact Hc|]. split; [now apply nonempty_true | exact Hs'].
Qed.

(** The fields of the request of the aggregate phase. *)
Lemma aggregate_request_fields (prompt : str) :
  req_model (aggregate_request w (aggregate_model args) prompt (temperature args)
               (max_tokens_aggregate args)) = aggregate_model args /\
  req_user (aggregate_request w (aggregate_model args) prompt (temperature args)
              (max_tokens_aggregate args)) = prompt /\
  req_temperature (aggregate_request w (aggregate_model args) prompt (temperature args)
                     (max_tokens_aggregate args)) = temperature args /\
  req_max_tokens (aggregate_request w (aggregate_model args) prompt (temperature args)
                    (max_tokens_aggregate args)) = max_tokens_aggregate args /\
  (builder_loads w (py "prompts.aggregate.prompt") (py "build_system_prompt") ->
   match load_prompt_builder w (py "prompts.aggregate.prompt")
           (py "build_system_prompt") with
   | Loaded (Some build) =>
     match build industry_ctx with
     | Ok text =>
       req_system (aggregate_request w (aggregate_model args) prompt (temperature args)
                     (max_tokens_aggregate args)) = text
     | Err _ =>
       req_system (aggregate_request w (aggregate_model args) prompt (temperature args)
                     (max_tokens_aggregate args)) = AGGREGATE_SYSTEM_PROMPT
     end
   | Loaded None =>
     req_system (aggregate_request w (aggregate_model args) prompt (temperature args)
                   (max_tokens_aggregate args)) = AGGREGATE_SYSTEM_PROMPT
   | ModuleNotFound _ => False
   end).
Proof.
  unfold aggregate_request.
  cbn [req_model req_user req_temperature req_max_tokens req_system].
  split; [reflexivity|]. split; [reflexivity|]. split; [reflexivity|].
  split; [reflexivity|].
  intros [b Hb]. unfold AGGREGATE_SYSTEM_PROMPT, industry_ctx.
  rewrite Hb. cbn [found]. unfold built_prompt.
  destruct b as [build|]; [|reflexivity].
  destruct (build _); reflexivity.
Qed.

End NormalEnd.

(** For every run of [main] that ends normally, with exit status 0: its
    last three operations are the writing of [individual_summaries.json]
    with the batch, the request of the aggregate phase, and the writing
    of [organization_review.md] with the header followed by the answer of
    the model to that request, without the white space around it, and a
    line end.  The request names the aggregate model, the temperature
    and the aggregate token limit of the arguments; its user prompt is
    the prompt that [build_aggregate_prompt] gives for that same batch
    and the plan addendum; its system prompt is the text of the builder
    [build_system_prompt] of [prompts/aggregate/prompt.py] for the
    industry context and, when no such builder is found or it raises, the
    prompt of the consultant.  The answer had content; nothing is written
    after the review. *)
Theorem main_ends_normally_with_batch_request_and_review :
  forall (w : World) (args : Args) (env : gmap str str),
    fst (main w args (initial env)) = Ok tt ->
    exists before req content,
      log (snd (main w args (initial env)))
      = before ++
        [ EWrite (out_dir args ++ [py "individual_summaries.json"])
            (dumps (JArr (people (snd (main w args (initial env))))));
          EApi req;
          EWrite (out_dir args ++ [py "organization_review.md"])
            (header w args ++ strip content ++ nl) ] /\
      req_model req = aggregate_model args /\
      build_aggregate_prompt
        (load_prompt_builder w (py "prompts.aggregate.prompt") (py "build_prompt"))
        (people (snd (main w args (initial env)))) (plan_prompt args)
      = Ok (req_user req) /\
      match load_prompt_builder w (py "prompts.aggregate.prompt")
              (py "build_system_prompt") with
      | Loaded (Some build) =>
        match build industry_ctx with
        | Ok text => req_system req = text
        | Err _ => req_system req = AGGREGATE_SYSTEM_PROMPT
        end
      | Loaded None => req_system req = AGGREGATE_SYSTEM_PROMPT
      | ModuleNotFound _ => False
      end /\
      req_temperature req = temperature args /\
      req_max_tokens req = max_tokens_aggregate args /\
      chat_completions_create w (count_api before) req = ApiContent (Some content) /\
      content <> [].
Proof.
  intros w args env. rewrite main_split. unfold bind.
  destruct (collect_and_summarize w args (initial env)) as [[[]|e] s] eqn:Hcs;
    [|discriminate].
  destruct (aggregate_phase w args s) as [[[]|e] s'] eqn:Hagg; [|discriminate].
  intros _. cbn [snd].
  destruct (collect_and_summarize_ok w args _ _ Hcs) as [mid ->].
  destruct (aggregate_phase_ok w args _ _ Hagg)
    as (prompt & content & Hb & Hsys & Hc & Hne & ->).
  destruct (aggregate_request_fields w args prompt) as (Hm & Hu & Ht & Hmax & Hs).
  specialize (Hs Hsys).
  revert Hc Hm Hu Ht Hmax Hs.
  generalize (aggregate_request w (aggregate_model args) prompt (temperature args)
                (max_tokens_aggregate args)).
  intros req Hc Hm Hu Ht Hmax Hs.
  exists (log mid), req, content.
  unfold add_event in *. cbn [log people environ] in *.
  split; [now rewrite <- !app_assoc|].
  split; [exact Hm|]. split; [now rewrite Hu|]. split; [exact Hs|].
  split; [exact Ht|]. split; [exact Hmax|]. split; [|exact Hne].
  rewrite <- Hc. f_equal.
  unfold count_api. rewrite List.filter_app, length_app. cbn [List.filter is_api length].
  now rewrite Nat.add_0_r.
Qed.

(* ================================================================== *)
(** * The records of the batch *)
(* ================================================================== *)

Section BatchRecords.

Variable w : World.
Variable args : Args.

Lemma failure_record_repaired (report : Report) (msg : str) :
  collected report -> repaired (make_failure_record report msg).
Proof.
  intros (Ht & Hd & Hr). eexists. split; [reflexivity|].
  split; [|split; [|split]].
  - eexists. split; [reflexivity|]. cbn [truthy]. now apply nonempty_true.
  - eexists. split; [reflexivity|]. cbn [truthy]. now apply nonempty_true.
  - eexists. split; [reflexivity|]. reflexivity.
  - eexists. split; [reflexivity|].
    destruct Hr as [-> | ->]; [left | right]; reflexivity.
Qed.

Lemma collected_entries_repaired (report : Report) :
  collected report -> entries_satisfy w args repaired report.
Proof.
  intros Hc. split.
  - intros s data s1 Hs.
    destruct (summarize_individual_ok _ _ _ _ _ _ _ _ Hs)
      as (content & d0 & d & _ & _ & -> & Hd).
    now apply (repaired_from_repaired report d0).
  - intros msg. now apply failure_record_repaired.
Qed.

Lemma collect_and_summarize_entries (env : gmap str str) :
  wf_tree (tree w) ->
  Forall repaired (people (snd (collect_and_summarize w args (initial env)))).
Proof.
  intros Hwf.
  unfold collect_and_summarize, bind, raise, lift.
  destruct (load_env_from_file_frame w (initial env)) as [_ Hp0].
  destruct (load_env_from_file w (initial env)) as [[[]|e0] s0];
    cbn [snd] in Hp0; cbn [initial people] in Hp0;
    assert (Hnil : Forall repaired (people s0)) by (rewrite Hp0; constructor);
    [|exact Hnil].
  destruct (negb (input_exists w)); [exact Hnil|].
  pose proof (create_client_with s0 _ _ eq_refl eq_refl) as Hcl.
  destruct (create_client s0) as [[c|e1] s1];
    assert (Hs1 : s1 = s0) by (injection Hcl as _ ->; reflexivity); subst s1;
    [|exact Hnil].
  destruct (collect_reports (read_text_file w) (read_docx_file w) (input args) (tree w))
    as [reports|e2] eqn:Hc; [|exact Hnil].
  pose proof (collect_reports_collected _ _ _ _ Hwf reports Hc) as Hall.
  destruct reports as [|r0 reports']; [exact Hnil|].
  destruct (summarize_phase_requests w args repaired (r0 :: reports') s0)
    as (_ & _ & _ & _ & _ & Hobj).
  apply Hobj; [|exact Hnil].
  apply List.Forall_forall. intros r Hr. apply collected_entries_repaired.
  exact (proj1 (List.Forall_forall _ _) Hall r Hr).
Qed.

End BatchRecords.

(** For every run of [main] over a well-formed tree, however it ends and
    whichever requests and writes fail on the way: every record of the
    batch, the summaries of the model and the placeholders alike, is an
    object in which [name], [department] and [workload] are present and
    not falsy and [role] is [cadre] or [employee]. *)
Theorem main_batch_records_have_the_mandatory_fields :
  forall (w : World) (args : Args) (env : gmap str str),
    wf_tree (tree w) ->
    Forall repaired (people (snd (main w args (initial env)))).
Proof.
  intros w args env Hwf. rewrite main_split. unfold bind.
  pose proof (collect_and_summarize_entries w args env Hwf) as H.
  destruct (collect_and_summarize w args (initial env)) as [[[]|e] s];
    cbn [snd] in H; [|exact H].
  now rewrite aggregate_phase_people.
Qed.

(* ================================================================== *)
(** * What the aggregate prompt depends on *)
(* ================================================================== *)

Section CompactFrame.

Ltac same_value H k :=
  rewrite (H k) by (apply (proj1 (mem_In k COMPACT_KEYS)); vm_compute; reflexivity).

Lemma compact_person_agree (d d' : dict) :
  (forall k, In k COMPACT_KEYS -> dict_get k d = dict_get k d') ->
  compact_person d = compact_person d'.
Proof.
  intros H. unfold compact_person. cbv beta zeta. unfold dict_get_default.
  same_value H (py "name"). same_value H (py "department").
  same_value H (py "role"). same_value H (py "position").
  same_value H (py "title"). same_value H (py "entry_date").
  same_value H (py "key_results"). same_value H (py "strengths").
  same_value H (py "improvements"). same_value H (py "self_review").
  same_value H (py "issues"). same_value H (py "suggestions").
  same_value H (py "workload"). same_value H (py "support_to_departments").
  same_value H (py "risk_flags"). same_value H (py "error").
  reflexivity.
Qed.

Lemma compact_people_agree (batch batch' : list json) :
  agree_on_compact_keys batch batch' -> compact_people batch = compact_people batch'.
Proof.
  induction 1 as [|p p' rest rest' (d & d' & -> & -> & Hd) _ IH]; [reflexivity|].
  cbn [compact_people]. now rewrite IH, (compact_person_agree d d' Hd).
Qed.

End CompactFrame.

(** For every two batches of dictionaries that agree, entry by entry, on
    the sixteen keys of the compaction: the aggregate prompt is the same,
    with or without a prompt builder, and so is the exception when the
    loading of the builder raises.  What a summary holds under any
    other key, [source_path] among them, does not reach the prompt. *)
Theorem aggregate_prompt_depends_on_the_compact_keys_only :
  forall (prompt_builder : loaded) (batch batch' : list json)
         (extra_prompt : option str),
    agree_on_compact_keys batch batch' ->
    build_aggregate_prompt prompt_builder batch extra_prompt
    = build_aggregate_prompt prompt_builder batch' extra_prompt.
Proof.
  intros prompt_builder batch batch' extra_prompt H.
  unfold build_aggregate_prompt. now rewrite (compact_people_agree batch batch' H).
Qed.

(* ================================================================== *)
(** * The log of the web runner *)
(* ================================================================== *)

Section StdoutFacts.

Lemma emit_concat (text : str) (chunks : list str) :
  concat (emit text chunks) = concat chunks ++ text.
Proof.
  unfold emit. destruct text as [|c text]; cbn [nonempty].
  - now rewrite app_nil_r.
  - rewrite concat_app. cbn [concat]. now rewrite app_nil_r.
Qed.

Lemma emit_fold (printed chunks : list str) :
  concat (fold_left (fun acc chunk => emit chunk acc) printed chunks)
  = concat chunks ++ concat printed.
Proof.
  revert chunks. induction printed as [|chunk printed IH]; intros chunks.
  - cbn [fold_left concat]. now rewrite app_nil_r.
  - cbn [fold_left concat]. rewrite IH, emit_concat. now rewrite <- app_assoc.
Qed.

Lemma response_eq (code : Z) (out out' : str) (dir : option Pathlib.path) :
  out = out' ->
  Some {| exit_code := code; stdout := out; stderr := []; run_dir := dir |}
  = Some {| exit_code := code; stdout := out'; stderr := []; run_dir := dir |}.
Proof. now intros ->. Qed.

End StdoutFacts.

(** For every run of [run_analysis] on an input directory with entries:
    when [analyze_reports.main] ends with an exception that is neither a
    [SystemExit] nor an [Exception], no response is returned.  Otherwise
    the exit code is 0 after a return, the code of a [SystemExit] with an
    integer code, and 1 in every other case, a [SystemExit] without code
    among them; and [stdout] is, in this order, the opening line when
    there is a progress callback, all that [main] printed, the message of
    the [SystemExit] or exception (for an integer code other than 0 its
    digits), and the closing line with the exit code when there is a
    callback.  Empty chunks leave no trace; [stderr] is empty. *)
Theorem run_analysis_log_is_what_main_printed :
  forall (analyze_main : list str -> gmap str str -> main_end * gmap str str * list str)
         (input_has_entries : Pathlib.path -> bool) (run_name : str)
         (RUN_ROOT : Pathlib.path) (payload : Payload) (progress_cb : bool)
         (env : gmap str str) (ending : main_end) (env2 : gmap str str)
         (printed : list str),
    input_has_entries (input_dir payload) = true ->
    analyze_main (build_argv payload (RUN_ROOT ++ [run_name]))
      (match p_api_key payload with
       | Some k => if nonempty k then <[py "DEEPSEEK_API_KEY" := k]> env else env
       | None => env
       end)
    = (ending, env2, printed) ->
    fst (run_analysis analyze_main input_has_entries run_name RUN_ROOT
           payload progress_cb env)
    = match ending with
      | OtherBaseException => None
      | _ =>
        Some {| exit_code := exit_code_of ending;
                stdout :=
                  (if progress_cb then py "[web] 开始执行分析任务..." ++ nl else [])
                  ++ concat printed ++ message_of ending
                  ++ (if progress_cb
                      then py "[web] 任务结束，退出码 " ++ str_of_Z (exit_code_of ending) ++ nl
                      else []);
                stderr := [];
                run_dir := Some (RUN_ROOT ++ [run_name]) |}
      end.
Proof.
  intros analyze_main input_has_entries run_name RUN_ROOT payload progress_cb env
         ending env2 printed Hin Hmain.
  unfold run_analysis. rewrite Hin. cbn [negb]. cbv zeta.
  change KEY with (py "DEEPSEEK_API_KEY"). rewrite Hmain.
  generalize (py "[web] 开始执行分析任务..." ++ nl).
  generalize (py "[web] 任务结束，退出码 ").
  intros closing opening.
  destruct ending as [| [| z | m] | m |]; [| | destruct z as [|p|p] | | |];
    destruct progress_cb; cbv beta iota; cbn [fst exit_code_of message_of Z.eqb];
    try (apply response_eq);
    rewrite ?emit_concat, ?emit_fold, ?emit_concat;
    cbn [concat app str_of_exit_arg]; rewrite ?app_nil_r, <- ?app_assoc;
    reflexivity.
Qed.

(* ================================================================== *)
(** * The properties of the run on concrete inputs *)
(* ================================================================== *)

Lemma main_sends_one_request_per_report_then_one_for_the_review_witness :
  (exists sent agg,
      requests_of
        (log (snd (main (Examples.world Examples.two_report_tree Examples.no_builders
                           (Examples.always Examples.name_x_response) Examples.disk_fine)
                     Examples.args (initial Examples.environment))))
      = map (fun r =>
               individual_request
                 (Examples.world Examples.two_report_tree Examples.no_builders
                    (Examples.always Examples.name_x_response) Examples.disk_fine)
                 (model Examples.args) r (temperature Examples.args)
                 (max_tokens_individual Examples.args)) sent ++ agg /\
      length sent = 2%nat /\ agg <> []) /\
  fst (collect_and_summarize
         (Examples.world Examples.two_report_tree Examples.no_prompts_package
            (Examples.always Examples.name_x_response) Examples.disk_fine)
         Examples.args (initial Examples.environment)) = Ok tt /\
  requests_of
    (log (snd (main (Examples.world Examples.two_report_tree Examples.no_prompts_package
                       (Examples.always Examples.name_x_response) Examples.disk_fine)
                 Examples.args (initial Examples.environment))))
  = [].
Proof.
  split; [|split].
  - destruct (main_sends_one_request_per_report_then_one_for_the_review
                (Examples.world Examples.two_report_tree Examples.no_builders
                   (Examples.always Examples.name_x_response) Examples.disk_fine)
                Examples.args Examples.environment
                [ {| path := [py "reports"; py "RnD"; py "alice.txt"];
                     department := py "RnD"; title := py "alice";
                     role := py "employee"; content := py "report text" |};
                  {| path := [py "reports"; py "RnD"; py "经理bob.md"];
                     department := py "RnD"; title := py "经理bob";
                     role := py "cadre"; content := py "report text" |} ])
      as (sent & rest & agg & Hsplit & Hreq & _ & _ & Hend).
    + vm_compute. reflexivity.
    + destruct Hend as [-> Hagg]; [vm_compute; reflexivity|].
      exists sent, agg. split; [exact Hreq|]. split; [|exact Hagg].
      rewrite app_nil_r in Hsplit. now rewrite <- Hsplit.
  - vm_compute. reflexivity.
  - destruct (main_sends_one_request_per_report_then_one_for_the_review
                (Examples.world Examples.two_report_tree Examples.no_prompts_package
                   (Examples.always Examples.name_x_response) Examples.disk_fine)
                Examples.args Examples.environment
                [ {| path := [py "reports"; py "RnD"; py "alice.txt"];
                     department := py "RnD"; title := py "alice";
                     role := py "employee"; content := py "report text" |};
                  {| path := [py "reports"; py "RnD"; py "经理bob.md"];
                     department := py "RnD"; title := py "经理bob";
                     role := py "cadre"; content := py "report text" |} ])
      as (sent & rest & agg & Hsplit & Hreq & _ & Hbatch & _).
    + vm_compute. reflexivity.
    + destruct Hbatch as (_ & _ & Hnone); [vm_compute; reflexivity|].
      rewrite Hreq, Hnone; [reflexivity|].
      left. intros [b Hb]. discriminate Hb.
Defined.

Lemma main_ends_normally_with_batch_request_and_review_witness :
  exists before req content,
    log (snd (main (Examples.world Examples.one_report_tree Examples.no_builders
                      (Examples.always Examples.name_x_response) Examples.disk_fine)
                Examples.args (initial Examples.environment)))
    = before ++
      [ EWrite [py "out"; py "individual_summaries.json"]
          (dumps (JArr [Examples.alice_summary]));
        EApi req;
        EWrite [py "out"; py "organization_review.md"]
          (header (Examples.world Examples.one_report_tree Examples.no_builders
                     (Examples.always Examples.name_x_response) Examples.disk_fine)
             Examples.args ++ strip content ++ nl) ] /\
    req_model req = py "deepseek-reasoner" /\
    req_system req = AGGREGATE_SYSTEM_PROMPT /\
    build_aggregate_prompt (Loaded None) [Examples.alice_summary] (Some (py "Q1 plan"))
    = Ok (req_user req) /\
    content = Examples.name_x_response.
Proof.
  destruct (main_ends_normally_with_batch_request_and_review
              (Examples.world Examples.one_report_tree Examples.no_builders
                 (Examples.always Examples.name_x_response) Examples.disk_fine)
              Examples.args Examples.environment)
    as (before & req & content & Hlog & Hmodel & Hprompt & Hsys & _ & _ & Hc & _).
  - vm_compute. reflexivity.
  - exists before, req, content. split; [|split; [|split; [|split]]].
    + rewrite Hlog. f_equal.
    + exact Hmodel.
    + exact Hsys.
    + rewrite <- Hprompt. f_equal.
    + cbn [chat_completions_create Examples.world Examples.always] in Hc.
      now injection Hc as <-.
Defined.

Lemma main_batch_records_have_the_mandatory_fields_witness :
  Forall repaired
    (people (snd (main (Examples.world Examples.two_report_tree Examples.no_builders
                          (Examples.always Examples.role_list_response)
                          Examples.disk_fails_once)
                    Examples.args (initial Examples.environment)))).
Proof.
  exact (main_batch_records_have_the_mandatory_fields
           (Examples.world Examples.two_report_tree Examples.no_builders
              (Examples.always Examples.role_list_response) Examples.disk_fails_once)
           Examples.args Examples.environment two_report_tree_wf).
Defined.

Lemma aggregate_prompt_depends_on_the_compact_keys_only_witness :
  build_aggregate_prompt (Loaded None) [Examples.alice_summary] (Some (py "Q1 plan"))
  = build_aggregate_prompt (Loaded None)
      [ JObj [ (py "workload", JStr (py "未提及/估计"));
               (py "name", JStr (py "X"));
               (py "department", JStr (py "RnD"));
               (py "role", JStr (py "employee"));
               (py "source_path", JStr (py "elsewhere"));
               (py "note", JBool true) ] ]
      (Some (py "Q1 plan")).
Proof.
  apply aggregate_prompt_depends_on_the_compact_keys_only.
  constructor; [|constructor].
  eexists _, _. split; [reflexivity|]. split; [reflexivity|].
  intros k Hk. unfold COMPACT_KEYS in Hk. cbn [In] in Hk.
  repeat (destruct Hk as [<- | Hk]; [vm_compute; reflexivity|]).
  destruct Hk.
Defined.

Lemma run_analysis_log_is_what_main_printed_witness :
  fst (run_analysis
         (fun _ env => (RaisedSystemExit (CodeInt 2), env, [py "a"; []; py "b"]))
         (fun _ => true) (py "run-20250101-000000") [py "web_runs"]
         {| input_dir := [py "up_load"];
            p_temperature := {| float_repr := py "1.3"; float_is_zero := false |};
            p_model := py "deepseek-chat";
            p_aggregate_model := py "deepseek-reasoner";
            p_api_key := None;
            p_plan_prompt := None;
            p_max_tokens_individual := 1100;
            p_max_tokens_aggregate := 5000 |}
         false ∅)
  = Some {| exit_code := 2;
            stdout := py "ab2";
            stderr := [];
            run_dir := Some [py "web_runs"; py "run-20250101-000000"] |}.
Proof.
  rewrite (run_analysis_log_is_what_main_printed
             (fun _ env => (RaisedSystemExit (CodeInt 2), env, [py "a"; []; py "b"]))
             (fun _ => true) (py "run-20250101-000000") [py "web_runs"]
             _ false ∅ (RaisedSystemExit (CodeInt 2)) ∅ [py "a"; []; py "b"]
             eq_refl eq_refl).
  vm_compute. reflexivity.
Defined.

(* ================================================================== *)
(** * The lines of the environment file *)
(* ================================================================== *)

Section EnvLineFacts.

Lemma last_of_snoc {X : Type} (front front' : list X) (c d : X) :
  front ++ [c] = front' ++ [d] -> c = d.
Proof. intros H. now apply app_inj_tail in H as [_ ->]. Qed.

Lemma clean_ends_app (bad : N -> bool) (a b : str) :
  a <> [] -> b <> [] ->
  (forall c rest, a = c :: rest -> bad c = false) ->
  (forall front c, b = front ++ [c] -> bad c = false) ->
  clean_ends bad (a ++ b).
Proof.
  intros Ha Hb Hfirst Hlast. split.
  - destruct a as [|c0 a']; [now elim Ha|]. cbn [app].
    intros c rest H. injection H as <- _. now apply (Hfirst c0 a').
  - destruct (exists_last Hb) as (b' & d & ->).
    intros front c H. rewrite app_assoc in H.
    apply last_of_snoc in H. subst c. now apply (Hlast b' d).
Qed.

Lemma clean_ends_check (bad : N -> bool) (s : str) :
  match s with
  | [] => True
  | c :: rest => bad c = false /\ bad (List.last s c) = false
  end ->
  clean_ends bad s.
Proof.
  destruct s as [|c0 rest]; intros H.
  - split; [discriminate|]. intros front c E. now destruct front.
  - destruct H as [Hfirst Hlast]. split.
    + intros c r E. now injection E as <- _.
    + intros front c E. rewrite E, last_last in Hlast. exact Hlast.
Qed.

Lemma clean_ends_weaken (bad bad' : N -> bool) (s : str) :
  (forall c, bad c = false -> bad' c = false) -> clean_ends bad s -> clean_ends bad' s.
Proof.
  intros Hw [Hfirst Hlast]. split.
  - intros c rest E. exact (Hw c (Hfirst c rest E)).
  - intros front c E. exact (Hw c (Hlast front c E)).
Qed.

Lemma lstrip_clean (s : str) :
  (forall c rest, s = c :: rest -> isspace c = false) -> lstrip s = s.
Proof.
  destruct s as [|c t]; [reflexivity|]. intros H. cbn [lstrip].
  now rewrite (H c t eq_refl).
Qed.

Lemma lstrip_blank (ws s : str) : blank ws -> lstrip (ws ++ s) = lstrip s.
Proof.
  induction 1 as [|c ws Hc _ IH]; [reflexivity|].
  cbn [app lstrip]. now rewrite Hc.
Qed.

Lemma lstrip_all_blank (ws : str) : blank ws -> lstrip ws = [].
Proof.
  intros H. rewrite <- (app_nil_r ws). now rewrite lstrip_blank.
Qed.

Lemma blank_rev (ws : str) : blank ws -> blank (rev ws).
Proof. apply List.Forall_rev. Qed.

(** White space around a string that neither starts nor ends with white
    space is what [strip] takes off. *)
Lemma strip_padded (ws s ws' : str) :
  blank ws -> blank ws' -> clean_ends isspace s -> strip (ws ++ s ++ ws') = s.
Proof.
  intros Hws Hws' [Hfirst Hlast]. unfold strip, rstrip.
  rewrite (lstrip_blank ws _ Hws).
  destruct s as [|c t].
  - cbn [app]. now rewrite (lstrip_all_blank ws' Hws').
  - rewrite (lstrip_clean ((c :: t) ++ ws')).
    + rewrite rev_app_distr, (lstrip_blank _ _ (blank_rev ws' Hws')).
      rewrite (lstrip_clean (rev (c :: t))); [apply rev_involutive|].
      intros d rest Hrev. apply (Hlast (rev rest) d).
      rewrite <- (rev_involutive (c :: t)), Hrev. reflexivity.
    + intros d rest E. cbn [app] in E. injection E as <- _.
      now apply (Hfirst c t).
Qed.

Lemma strip_clean (s : str) : clean_ends isspace s -> strip s = s.
Proof.
  intros H.
  pose proof (strip_padded [] s [] (List.Forall_nil _) (List.Forall_nil _) H) as E.
  cbn [app] in E. now rewrite app_nil_r in E.
Qed.

Lemma lstrip_chars_clean (chars s : str) :
  (forall c rest, s = c :: rest -> existsb (N.eqb c) chars = false) ->
  lstrip_chars chars s = s.
Proof.
  destruct s as [|c t]; [reflexivity|]. intros H. cbn [lstrip_chars].
  now rewrite (H c t eq_refl).
Qed.

Lemma strip_chars_clean (chars s : str) :
  clean_ends (fun c => existsb (N.eqb c) chars) s -> strip_chars chars s = s.
Proof.
  intros [Hfirst Hlast]. unfold strip_chars. rewrite (lstrip_chars_clean chars s Hfirst).
  rewrite lstrip_chars_clean; [apply rev_involutive|].
  intros c rest Hrev. apply (Hlast (rev rest) c).
  rewrite <- (rev_involutive s), Hrev. reflexivity.
Qed.

(** One kind of quote around a string that neither starts nor ends with
    this quote is taken off by [strip]. *)
Lemma strip_chars_quoted (q : N) (s : str) :
  clean_ends (fun c => c =? q) s -> strip_chars [q] (q :: s ++ [q]) = s.
Proof.
  intros [Hfirst Hlast]. unfold strip_chars.
  assert (Hin : lstrip_chars [q] (q :: s ++ [q]) = lstrip_chars [q] (s ++ [q])).
  { cbn [lstrip_chars existsb]. now rewrite N.eqb_refl. }
  rewrite Hin. clear Hin.
  destruct s as [|c t].
  - cbn [app lstrip_chars existsb]. rewrite N.eqb_refl. reflexivity.
  - assert (Hkeep : lstrip_chars [q] ((c :: t) ++ [q]) = (c :: t) ++ [q]).
    { cbn [app lstrip_chars existsb]. now rewrite (Hfirst c t eq_refl). }
    rewrite Hkeep, rev_app_distr. cbn [rev app].
    assert (Hdrop : lstrip_chars [q] (q :: rev t ++ [c]) = lstrip_chars [q] (rev t ++ [c])).
    { cbn [lstrip_chars existsb]. now rewrite N.eqb_refl. }
    rewrite Hdrop.
    rewrite lstrip_chars_clean.
    + rewrite rev_app_distr, rev_involutive. reflexivity.
    + intros d rest Hrev. cbn [existsb]. rewrite orb_false_r.
      apply (Hlast (rev rest) d).
      change (c :: t) with ([c] ++ t).
      rewrite <- (rev_involutive ([c] ++ t)), rev_app_distr. cbn [rev app].
      rewrite Hrev. reflexivity.
Qed.

Lemma split_once_first (sep : N) (before after : str) :
  ~ In sep before -> split_once sep (before ++ sep :: after) = Some (before, after).
Proof.
  induction before as [|c before IH]; intros Hnot; cbn [app split_once].
  - now rewrite N.eqb_refl.
  - destruct (N.eqb_spec c sep) as [->|Hne]; [elim Hnot; now left|].
    rewrite IH; [reflexivity|]. intros Hin. apply Hnot. now right.
Qed.

Lemma is_quote_false (c : N) :
  is_quote c = false -> (c =? 34) = false /\ (c =? 39) = false.
Proof. unfold is_quote. apply orb_false_elim. Qed.

(** The value between quotes, or bare, comes out of the two [strip]s of
    the quotes. *)
Lemma value_unquoted (value quote : str) :
  clean_ends is_quote value ->
  In quote [[]; dq; py "'"] ->
  strip_chars (py "'") (strip_chars dq (quote ++ value ++ quote)) = value.
Proof.
  intros Hquote Hin.
  assert (Hdq : clean_ends (fun c => c =? 34) value).
  { apply (clean_ends_weaken is_quote); [|exact Hquote].
    intros c H. exact (proj1 (is_quote_false c H)). }
  assert (Hsq : clean_ends (fun c => c =? 39) value).
  { apply (clean_ends_weaken is_quote); [|exact Hquote].
    intros c H. exact (proj2 (is_quote_false c H)). }
  assert (Hdq' : clean_ends (fun c => existsb (N.eqb c) dq) value).
  { apply (clean_ends_weaken (fun c => c =? 34)); [|exact Hdq].
    intros c H. unfold dq. cbn [existsb]. now rewrite H. }
  assert (Hsq' : clean_ends (fun c => existsb (N.eqb c) [39]) value).
  { apply (clean_ends_weaken (fun c => c =? 39)); [|exact Hsq].
    intros c H. cbn [existsb]. now rewrite H. }
  change (py "'") with [39] in *. unfold dq in *.
  destruct Hin as [<- | [<- | [<- | []]]].
  - cbn [app]. rewrite app_nil_r.
    rewrite (strip_chars_clean [34] value Hdq'). exact (strip_chars_clean [39] value Hsq').
  - cbn [app]. rewrite (strip_chars_quoted 34 value Hdq).
    exact (strip_chars_clean [39] value Hsq').
  - cbn [app]. rewrite (strip_chars_clean [34] (39 :: value ++ [39])).
    + exact (strip_chars_quoted 39 value Hsq).
    + apply (clean_ends_app _ [39] (value ++ [39])); try discriminate.
      * now destruct value.
      * intros c rest E. now injection E as <- _.
      * intros front c E. apply last_of_snoc in E. now subst c.
Qed.

(** The value with its quotes neither starts nor ends with white space. *)
Lemma quoted_clean (value quote : str) :
  clean_ends isspace value ->
  In quote [[]; dq; py "'"] ->
  clean_ends isspace (quote ++ value ++ quote).
Proof.
  intros Hvalue Hin.
  change (py "'") with [39] in Hin. unfold dq in Hin.
  destruct Hin as [<- | [<- | [<- | []]]].
  - cbn [app]. now rewrite app_nil_r.
  - apply (clean_ends_app isspace [34] (value ++ [34])); try discriminate.
    + now destruct value.
    + intros c rest E. now injection E as <- _.
    + intros front c E. apply last_of_snoc in E. now subst c.
  - apply (clean_ends_app isspace [39] (value ++ [39])); try discriminate.
    + now destruct value.
    + intros c rest E. now injection E as <- _.
    + intros front c E. apply last_of_snoc in E. now subst c.
Qed.

Lemma blank_no_equals (ws : str) : blank ws -> ~ In 61 ws.
Proof.
  intros H Hin. apply (proj1 (List.Forall_forall _ _) H) in Hin.
  vm_compute in Hin. discriminate Hin.
Qed.

(** A line with a key and a value, as [strip] leaves it: the white space
    at its ends is gone, and what follows the equals sign gives the
    value with its quotes once it is stripped. *)
Lemma env_line_stripped (key body ws1 ws2 ws3 ws4 : str) :
  key <> [] ->
  clean_ends isspace key ->
  clean_ends isspace body ->
  blank ws1 -> blank ws2 -> blank ws3 -> blank ws4 ->
  exists tail,
    strip (ws1 ++ key ++ ws2 ++ 61 :: ws3 ++ body ++ ws4) = key ++ ws2 ++ 61 :: tail /\
    strip tail = body.
Proof.
  intros Hne Hkey Hbody H1 H2 H3 H4.
  destruct body as [|b body'].
  - exists []. split; [|reflexivity]. cbn [app].
    replace (ws1 ++ key ++ ws2 ++ 61 :: ws3 ++ ws4)
      with (ws1 ++ (key ++ ws2 ++ [61]) ++ (ws3 ++ ws4)).
    + rewrite strip_padded; [reflexivity | exact H1 | |].
      * apply List.Forall_app. now split.
      * rewrite app_assoc.
        apply clean_ends_app; [now destruct key | discriminate | |].
        -- intros c rest E. destruct key as [|k key']; [now elim Hne|].
           cbn [app] in E. injection E as <- _. now apply (proj1 Hkey k key').
        -- intros front c E. apply (last_of_snoc [] front 61 c) in E. now subst c.
    + now rewrite <- !app_assoc.
  - exists (ws3 ++ b :: body'). split.
    + replace (ws1 ++ key ++ ws2 ++ 61 :: ws3 ++ (b :: body') ++ ws4)
        with (ws1 ++ (key ++ ws2 ++ 61 :: ws3 ++ b :: body') ++ ws4).
      * rewrite strip_padded; [reflexivity | exact H1 | exact H4 |].
        replace (key ++ ws2 ++ 61 :: ws3 ++ b :: body')
          with ((key ++ ws2 ++ 61 :: ws3) ++ b :: body')
          by (now rewrite <- !app_assoc).
        apply clean_ends_app; [now destruct key | discriminate | | apply Hbody].
        intros c rest E. destruct key as [|k key']; [now elim Hne|].
        cbn [app] in E. injection E as <- _. now apply (proj1 Hkey k key').
      * rewrite <- !app_assoc. cbn [app]. now rewrite <- !app_assoc.
    + rewrite <- (app_nil_r (b :: body')) at 1.
      apply strip_padded; [exact H3 | constructor | exact Hbody].
Qed.

Lemma lstrip_suffix (s : str) : exists a, s = a ++ lstrip s.
Proof.
  induction s as [|x t [a IH]]; [now exists []|].
  cbn [lstrip]. destruct (isspace x).
  - exists (x :: a). cbn [app]. now f_equal.
  - now exists [].
Qed.

Lemma strip_inside (s : str) : exists a b, s = a ++ strip s ++ b.
Proof.
  unfold strip, rstrip.
  destruct (lstrip_suffix s) as [a Ha].
  destruct (lstrip_suffix (rev (lstrip s))) as [b Hb].
  exists a, (rev b). rewrite <- rev_app_distr, <- Hb, rev_involutive. exact Ha.
Qed.

Lemma str_in_strip (key s : str) :
  str_in key s = false -> str_in key (strip s) = false.
Proof.
  intros H. destruct (str_in key (strip s)) eqn:E; [|reflexivity].
  apply (proj1 (str_in_substring key (strip s))) in E as (u & v & E).
  destruct (strip_inside s) as (a & b & Hs).
  assert (Hsub : str_in key s = true).
  { apply (proj2 (str_in_substring key s)). exists (a ++ u), (v ++ b).
    rewrite Hs, E. now rewrite <- !app_assoc. }
  congruence.
Qed.

(** What [rstrip] leaves of a string that starts with a character that
    is not white space starts with this character. *)
Lemma lstrip_keeps_last (c : N) (l : str) :
  isspace c = false -> exists u, lstrip (l ++ [c]) = u ++ [c].
Proof.
  intros Hc. induction l as [|x l [u IH]].
  - exists []. cbn [app lstrip]. now rewrite Hc.
  - cbn [app lstrip]. destruct (isspace x).
    + now exists u.
    + now exists (x :: l).
Qed.

Lemma rstrip_keeps_first (c : N) (t : str) :
  isspace c = false -> exists u, rstrip (c :: t) = c :: u.
Proof.
  intros Hc. unfold rstrip. cbn [rev].
  destruct (lstrip_keeps_last c (rev t) Hc) as [u ->].
  exists (rev u). now rewrite rev_app_distr.
Qed.

End EnvLineFacts.

(** For every key and value without white space at their ends, where the
    key is not empty, holds no equals sign and does not start with [#],
    and the value neither starts nor ends with a quote: the line
    [key = value], with the value bare, between double quotes or between
    single quotes, and with any white space before the key, around the
    equals sign and after the value, is read back as this key and this
    value.  The value may hold equals signs: the line is split at the
    first one only. *)
Theorem parse_env_line_reads_back_key_and_value :
  forall key value quote ws1 ws2 ws3 ws4 : str,
    key <> [] ->
    clean_ends isspace key ->
    ~ In 61 key ->
    startswith key (py "#") = false ->
    clean_ends isspace value ->
    clean_ends is_quote value ->
    In quote [[]; dq; py "'"] ->
    blank ws1 -> blank ws2 -> blank ws3 -> blank ws4 ->
    parse_env_line
      (ws1 ++ key ++ ws2 ++ py "=" ++ ws3 ++ (quote ++ value ++ quote) ++ ws4)
    = Some (key, value).
Proof.
  intros key value quote ws1 ws2 ws3 ws4 Hne Hkey Heq Hhash Hvalue Hquote Hin
    H1 H2 H3 H4.
  change (py "=") with [61]. cbn [app].
  destruct (env_line_stripped key (quote ++ value ++ quote) ws1 ws2 ws3 ws4
              Hne Hkey (quoted_clean value quote Hvalue Hin) H1 H2 H3 H4)
    as (tail & Hraw & Htail).
  unfold parse_env_line. cbv zeta. rewrite Hraw.
  assert (Hn : nonempty (key ++ ws2 ++ 61 :: tail) = true).
  { destruct key; [now elim Hne | reflexivity]. }
  assert (Hs : startswith (key ++ ws2 ++ 61 :: tail) (py "#") = false).
  { destruct key as [|c k]; [now elim Hne|]. exact Hhash. }
  assert (Hi : str_in (py "=") (key ++ ws2 ++ 61 :: tail) = true).
  { apply str_in_substring. exists (key ++ ws2), tail. now rewrite <- app_assoc. }
  rewrite Hn, Hs, Hi. cbn [negb orb].
  rewrite app_assoc, split_once_first.
  - rewrite Htail, (value_unquoted value quote Hquote Hin).
    pose proof (strip_padded [] key ws2 (List.Forall_nil _) H2 Hkey) as Ek.
    cbn [app] in Ek. now rewrite Ek.
  - intros Hboth. apply in_app_or in Hboth as [Hk | Hw]; [now apply Heq|].
    now apply (blank_no_equals ws2).
Qed.

Lemma parse_env_line_reads_back_key_and_value_witness :
  parse_env_line
    (py "  " ++ py "DEEPSEEK_API_KEY" ++ py " " ++ py "=" ++ py " "
     ++ (dq ++ py "sk-1=2" ++ dq) ++ [])
  = Some (py "DEEPSEEK_API_KEY", py "sk-1=2").
Proof.
  apply (parse_env_line_reads_back_key_and_value
           (py "DEEPSEEK_API_KEY") (py "sk-1=2") dq (py "  ") (py " ") (py " ") []).
  - discriminate.
  - apply clean_ends_check. vm_compute. split; reflexivity.
  - vm_compute. intuition discriminate.
  - vm_compute. reflexivity.
  - apply clean_ends_check. vm_compute. split; reflexivity.
  - apply clean_ends_check. vm_compute. split; reflexivity.
  - right. left. reflexivity.
  - repeat constructor.
  - repeat constructor.
  - repeat constructor.
  - constructor.
Defined.

(** For every line of the environment file: a line of white space only,
    a line whose first character after the white space is [#], and a
    line without an equals sign are skipped. *)
Theorem parse_env_line_skips_blank_comment_and_plain_lines :
  forall raw : str,
    (blank raw -> parse_env_line raw = None) /\
    (forall ws text, blank ws -> raw = ws ++ py "#" ++ text -> parse_env_line raw = None) /\
    (~ In 61 raw -> parse_env_line raw = None).
Proof.
  intros raw. split; [|split].
  - intros H. unfold parse_env_line. cbv zeta. unfold strip.
    now rewrite (lstrip_all_blank raw H).
  - intros ws text Hws ->. unfold parse_env_line. cbv zeta.
    change (py "#") with [35]. unfold strip. rewrite (lstrip_blank ws _ Hws).
    cbn [app lstrip].
    change (isspace 35) with false. cbv iota.
    destruct (rstrip_keeps_first 35 text eq_refl) as [u ->].
    reflexivity.
  - intros Hnot. unfold parse_env_line. cbv zeta.
    assert (Hin : str_in (py "=") (strip raw) = false).
    { apply str_in_strip.
      destruct (str_in (py "=") raw) eqn:E; [|reflexivity].
      apply (proj1 (str_in_substring _ _)) in E as (u & v & ->).
      elim Hnot. apply in_or_app. right. now left. }
    rewrite Hin. cbn [negb]. now rewrite !orb_true_r.
Qed.

(* ================================================================== *)
(** * The repair, once more *)
(* ================================================================== *)

Section RepairTwice.

Lemma dict_set_same (k : str) (v : json) (d : dict) :
  dict_get k d = Some v -> dict_set k v d = d.
Proof.
  induction d as [|[k' v'] d IH]; [discriminate|].
  cbn [dict_get dict_set]. destruct (str_eqb k k') eqn:E.
  - intros H. injection H as ->.
    apply (proj1 (str_eqb_eq k k')) in E. now subst k'.
  - intros H. now rewrite (IH H).
Qed.

Lemma kept_or_cases (v : json) (k : str) (d0 : dict) :
  truthy (kept_or v k d0) = true \/ kept_or v k d0 = v.
Proof.
  unfold kept_or. destruct (dict_get k d0) as [x|]; [|now right].
  destruct (truthy x) eqn:E; [now left | now right].
Qed.

Lemma default_if_falsy_fixed (k : str) (v x : json) (d : dict) :
  dict_get k d = Some x -> truthy x = true \/ x = v -> default_if_falsy k v d = d.
Proof.
  intros H Hor. unfold default_if_falsy. rewrite H.
  destruct (truthy x) eqn:E; [reflexivity|].
  destruct Hor as [Ht | ->]; [congruence | now apply dict_set_same].
Qed.

Lemma role_after_cases (report : Report) (d0 : dict) :
  exists s,
    role_after report d0 = JStr s /\
    (mem s [py "cadre"; py "employee"] = true \/ s = role report).
Proof.
  unfold role_after.
  destruct (dict_get (py "role") d0) as [[| b | z | f | s | l | d]|];
    try (exists (role report); split; [reflexivity | now right]).
  destruct (mem s [py "cadre"; py "employee"]) eqn:E.
  - exists s. split; [reflexivity | now left].
  - exists (role report). split; [reflexivity | now right].
Qed.

Lemma repair_fixed (report : Report) (d0 d : dict) :
  repaired_from report d0 d -> repair report (JObj d) = Ok (JObj d).
Proof.
  intros (Hsp & Hname & Hdept & Hrole & Hwork).
  unfold repair. cbv zeta.
  rewrite (dict_set_same _ _ d Hsp).
  rewrite (default_if_falsy_fixed _ _ _ d Hname (kept_or_cases _ _ _)).
  rewrite (default_if_falsy_fixed _ _ _ d Hdept (kept_or_cases _ _ _)).
  rewrite Hrole.
  destruct (role_after_cases report d0) as (s & Hs & Hvalid).
  rewrite Hs in *. cbn [hashable negb].
  assert (Hkeep : (if mem s [py "cadre"; py "employee"] then d
                   else dict_set (py "role") (JStr (role report)) d) = d).
  { destruct (mem s [py "cadre"; py "employee"]) eqn:E; [reflexivity|].
    destruct Hvalid as [Hv | ->]; [discriminate|]. now apply dict_set_same. }
  rewrite Hkeep.
  now rewrite (default_if_falsy_fixed _ _ _ d Hwork (kept_or_cases _ _ _)).
Qed.

End RepairTwice.

(** For every report and every value: when the repair at the end of
    [summarize_individual] returns a summary, a second repair of this
    summary for the same report returns it unchanged. *)
Theorem repair_leaves_a_repaired_summary_unchanged :
  forall (report : Report) (data data' : json),
    repair report data = Ok data' ->
    repair report data' = Ok data'.
Proof.
  intros report data data' H.
  destruct (repair_only_objects report _ _ H) as [d0 ->].
  destruct (repair_object report _ _ H) as [d [-> Hd]].
  exact (repair_fixed report d0 d Hd).
Qed.

Lemma repair_leaves_a_repaired_summary_unchanged_witness :
  repair Examples.alice Examples.alice_summary = Ok Examples.alice_summary.
Proof.
  apply (repair_leaves_a_repaired_summary_unchanged Examples.alice
           (JObj [(py "name", JStr (py "X"))])).
  vm_compute. reflexivity.
Defined.

(* ================================================================== *)
(** * The code fences *)
(* ================================================================== *)

Section Fences.

Variable c : N.

Let fence : str := [c; c; c].

Lemma replace_from_skip (old new : str) (k : nat) (s : str) :
  replace_from old new k s = replace_from old new 0 (skipn k s).
Proof.
  revert s. induction k as [|k IH]; intros s; [reflexivity|].
  destruct s as [|x t]; [reflexivity|]. cbn [replace_from skipn]. apply IH.
Qed.

Lemma starts_one (s : str) :
  startswith s [c] = match s with x :: _ => c =? x | [] => false end.
Proof. destruct s as [|x t]; cbn [startswith]; [reflexivity | apply andb_true_r]. Qed.

Lemma starts_more (x : N) (t p : str) :
  startswith (x :: t) (c :: p) = (c =? x) && startswith t p.
Proof. reflexivity. Qed.

Lemma remove_fence_step (x : N) (t : str) :
  replace_from fence [] 0 (x :: t)
  = if startswith (x :: t) fence then replace_from fence [] 0 (skipn 2 t)
    else x :: replace_from fence [] 0 t.
Proof.
  cbn [replace_from]. destruct (startswith (x :: t) fence); [|reflexivity].
  unfold fence. cbn [length Nat.sub app]. apply replace_from_skip.
Qed.

(** After the removal, from left to right, of the runs of three: no run
    of three is left, and what did not start with one or two of the
    character does not start with them afterwards. *)
Lemma remove_fence_bounded (n : nat) (s : str) :
  (length s <= n)%nat ->
  str_in fence (replace_from fence [] 0 s) = false /\
  (startswith s [c] = false -> startswith (replace_from fence [] 0 s) [c] = false) /\
  (startswith s [c; c] = false ->
   startswith (replace_from fence [] 0 s) [c; c] = false).
Proof.
  revert s. induction n as [|n IH]; intros s Hlen.
  - destruct s; [|cbn [length] in Hlen; lia].
    cbn [replace_from str_in startswith orb]. auto.
  - destruct s as [|x t].
    { cbn [replace_from str_in startswith orb]. auto. }
    cbn [length] in Hlen. rewrite remove_fence_step.
    destruct (startswith (x :: t) fence) eqn:Hfence.
    + unfold fence in Hfence. rewrite starts_more in Hfence.
      apply andb_prop in Hfence as [Hx Ht].
      assert (Hshort : (length (skipn 2 t) <= n)%nat).
      { rewrite length_skipn. lia. }
      destruct (IH _ Hshort) as (H1 & _ & _).
      split; [exact H1|]. split.
      * rewrite starts_one, Hx. discriminate.
      * rewrite starts_more, Hx. cbn [andb].
        destruct t as [|y t']; [discriminate|].
        rewrite starts_more in Ht. apply andb_prop in Ht as [Hy _].
        rewrite starts_one, Hy. discriminate.
    + assert (Hshort : (length t <= n)%nat) by lia.
      destruct (IH t Hshort) as (H1 & H2 & H3).
      split; [|split].
      * cbn [str_in]. rewrite H1, orb_false_r.
        unfold fence in Hfence |- *. rewrite starts_more in Hfence |- *.
        destruct (c =? x); [|reflexivity]. cbn [andb] in Hfence |- *.
        now apply H3.
      * rewrite !starts_one. auto.
      * rewrite !starts_more. destruct (c =? x); [|reflexivity]. cbn [andb].
        apply H2.
Qed.

Lemma remove_fence_clean (s : str) :
  str_in fence (replace_from fence [] 0 s) = false.
Proof. exact (proj1 (remove_fence_bounded (length s) s (le_n _))). Qed.

End Fences.

(** For every content of a response: in the text that is parsed at the
    second attempt, after the removal of the code fences, no run of
    three backquotes is left, although the removal of one fence can move
    backquotes together. *)
Theorem strip_fences_leaves_no_fence :
  forall content : str, str_in (py "```") (strip_fences content) = false.
Proof.
  intros content. unfold strip_fences. apply str_in_strip.
  change (py "```") with [96; 96; 96]. cbn [replace].
  apply remove_fence_clean.
Qed.

(* ================================================================== *)
(** * The placeholder of a failure *)
(* ================================================================== *)

(** For every report below the input directory whose summary fails with
    an exception, whatever the failure is (the loading of the prompt
    builders, the request, an empty answer, the parsing, the repair):
    when the per-report file can be written, the loop goes on to the
    next report, the batch has got the placeholder of the report with
    the message of the exception under [error], and the last operation
    wrote the JSON text of this placeholder to the per-report file,
    after the request if one was sent. *)
Theorem failed_summary_is_recorded_with_its_message :
  forall (w : World) (args : Args) (report : Report) (rel : Pathlib.path)
         (s s1 : state) (e : exn),
    relative_to (path report) (input args) = Some rel ->
    summarize_individual w (model args) report (temperature args)
      (max_tokens_individual args) s = (Err e, s1) ->
    write_error w (count_writes (log s)) = None ->
    exists message,
      e = Exception message /\
      fst (process_report w args report s) = Ok tt /\
      people (snd (process_report w args report s))
      = people s ++ [make_failure_record report message] /\
      dict_get (py "error")
        (match make_failure_record report message with JObj d => d | _ => [] end)
      = Some (JStr message) /\
      log (snd (process_report w args report s))
      = log s ++
        match individual_prompts w with
        | Ok _ => [EApi (individual_request w (model args) report (temperature args)
                           (max_tokens_individual args))]
        | Err _ => []
        end ++
        [ EWrite (out_dir args ++ py "per_report" :: with_suffix rel (py ".json"))
            (dumps (make_failure_record report message)) ].
Proof.
  intros w args report rel s s1 e Hrel Hs Hw.
  destruct (summarize_individual_raises_exception w _ _ _ _ _ _ _ Hs) as [message ->].
  exists message. split; [reflexivity|].
  pose proof (summarize_individual_state w (model args) report (temperature args)
                (max_tokens_individual args) s) as Hst.
  rewrite Hs in Hst. cbn [snd] in Hst.
  assert (Hfacts : count_writes (log s1) = count_writes (log s) /\
                   people s1 = people s /\
                   log s1 = log s ++
                            match individual_prompts w with
                            | Ok _ => [EApi (individual_request w (model args) report
                                               (temperature args)
                                               (max_tokens_individual args))]
                            | Err _ => []
                            end).
  { subst s1. destruct (individual_prompts w) as [[]|e0].
    - split; [|split; reflexivity].
      unfold add_event, count_writes. cbn [log].
      rewrite List.filter_app, length_app.
      cbn [List.filter is_write length]. apply Nat.add_0_r.
    - split; [reflexivity|]. split; [reflexivity|]. symmetry. apply app_nil_r. }
  destruct Hfacts as (Hc & Hp & Hl).
  unfold process_report, try_except, bind. rewrite Hs.
  unfold append_people, lift, per_report_dest, write_text. rewrite Hrel.
  cbv beta iota. cbn [log add_event people environ].
  rewrite Hc, Hw. cbn [fst snd people log add_event]. rewrite Hp, Hl.
  split; [reflexivity|]. split; [reflexivity|]. split; [reflexivity|].
  now rewrite <- app_assoc.
Qed.

Lemma failed_summary_is_recorded_with_its_message_witness :
  exists message,
    people (snd (process_report
                   (Examples.world Examples.one_report_tree Examples.no_builders
                      (fun _ _ => ApiError (py "Connection error.")) Examples.disk_fine)
                   Examples.args Examples.alice (initial Examples.environment)))
    = [make_failure_record Examples.alice message] /\
    message = py "调用模型失败: Connection error.".
Proof.
  destruct (failed_summary_is_recorded_with_its_message
              (Examples.world Examples.one_report_tree Examples.no_builders
                 (fun _ _ => ApiError (py "Connection error.")) Examples.disk_fine)
              Examples.args Examples.alice [py "RnD"; py "alice.txt"]
              (initial Examples.environment)
              (snd (summarize_individual
                      (Examples.world Examples.one_report_tree Examples.no_builders
                         (fun _ _ => ApiError (py "Connection error.")) Examples.disk_fine)
                      (model Examples.args) Examples.alice (temperature Examples.args)
                      (max_tokens_individual Examples.args)
                      (initial Examples.environment)))
              (Exception (py "调用模型失败: Connection error.")))
    as (message & He & _ & Hp & _).
  - vm_compute. reflexivity.
  - vm_compute. reflexivity.
  - reflexivity.
  - exists message. split; [exact Hp|]. now injection He as <-.
Defined.

(* ================================================================== *)
(** * The per-report files *)
(* ================================================================== *)

Section PerReportFacts.

Lemma per_report_dest_below_input (args : Args) (report : Report) (rel : Pathlib.path) :
  path report = input args ++ rel ->
  per_report_dest args report
  = Ok (out_dir args ++ py "per_report" :: removelast rel ++ [stem rel ++ py ".json"]).
Proof.
  intros H. unfold per_report_dest. rewrite H, relative_to_app.
  unfold with_suffix. reflexivity.
Qed.

End PerReportFacts.

(** For every two reports that are files below the input directory: the
    per-report file of each is [per_report] in the output directory,
    followed by the directories of the report below the input and the
    stem of its file name with [.json]; and the two files are the same
    exactly when the reports lie in the same directory and their file
    names have the same stem.  Two reports that differ in the suffix
    only, [alice.txt] and [alice.md], are written to one file, the later
    over the earlier. *)
Theorem per_report_files_coincide_on_equal_directory_and_stem :
  forall (args : Args) (r1 r2 : Report) (rel1 rel2 : Pathlib.path),
    path r1 = input args ++ rel1 ->
    path r2 = input args ++ rel2 ->
    Pathlib.name rel1 <> [] ->
    Pathlib.name rel2 <> [] ->
    exists dest1 dest2,
      per_report_dest args r1 = Ok dest1 /\
      per_report_dest args r2 = Ok dest2 /\
      dest1 = out_dir args ++ py "per_report" :: removelast rel1 ++ [stem rel1 ++ py ".json"] /\
      (dest1 = dest2 <-> removelast rel1 = removelast rel2 /\ stem rel1 = stem rel2).
Proof.
  intros args r1 r2 rel1 rel2 H1 H2 _ _.
  do 2 eexists.
  split; [exact (per_report_dest_below_input args r1 rel1 H1)|].
  split; [exact (per_report_dest_below_input args r2 rel2 H2)|].
  split; [reflexivity|]. split.
  - intros H. apply app_inv_head in H. injection H as H.
    apply app_inj_tail in H as [Hdir Hname].
    split; [exact Hdir|]. now apply app_inv_tail in Hname.
  - intros [-> ->]. reflexivity.
Qed.

Lemma per_report_files_coincide_on_equal_directory_and_stem_witness :
  exists dest,
    per_report_dest Examples.args Examples.alice = Ok dest /\
    per_report_dest Examples.args
      {| path := [py "reports"; py "RnD"; py "alice.md"];
         department := py "RnD"; title := py "alice";
         role := py "employee"; content := py "another text" |} = Ok dest.
Proof.
  destruct (per_report_files_coincide_on_equal_directory_and_stem
              Examples.args Examples.alice
              {| path := [py "reports"; py "RnD"; py "alice.md"];
                 department := py "RnD"; title := py "alice";
                 role := py "employee"; content := py "another text" |}
              [py "RnD"; py "alice.txt"] [py "RnD"; py "alice.md"]
              eq_refl eq_refl)
    as (dest1 & dest2 & H1 & H2 & _ & Hsame).
  - vm_compute. discriminate.
  - vm_compute. discriminate.
  - exists dest1. split; [exact H1|].
    rewrite H2. f_equal. symmetry. apply (proj2 Hsame).
    split; vm_compute; reflexivity.
Defined.
